(** * Icon cache of the renderer: resolution chain, cache isolation, SVG theming

    A shallow embedding of the renderer's unified icon cache, the module
    [@/lib/icon-cache] that [SourceAvatar] imports: the two stores
    [iconCache] and [logoUrlCache], the prefix views over them, the clear
    operations, [isEmoji], [loadSourceIcon], [loadSkillIcon],
    [themeSvgContent], [svgToThemedDataUrl] and [deriveServiceUrl]; of the
    hooks of [SourceAvatar] that read and fill the cache; and of the helpers
    that name a model.

    JavaScript strings are sequences of UTF-16 code units, [Map]s are finite
    maps, and the asynchronous functions run in a state-and-exception monad
    over the two stores, the outside world and the log of collaborator calls.
    Line numbers in comments are those of the module. *)

From stdpp Require Import gmap list.
From Stdlib Require Import String Ascii NArith.

Local Open Scope N_scope.

(** ** JavaScript strings *)

(** A string value is its sequence of UTF-16 code units. *)
Definition jsstring : Type := list N.

(** An ASCII literal of the source as a [jsstring]. *)
Definition lit (s : string) : jsstring :=
  List.map N_of_ascii (list_ascii_of_string s).

(** The double quote, for literals that contain one. *)
Definition dquote : jsstring := [34].

(** ToBoolean on a string: only the empty string is falsy. *)
Definition truthy (s : jsstring) : bool :=
  match s with [] => false | _ :: _ => true end.

(** ToBoolean on [string | undefined] and on [string | null]. *)
Definition truthy_opt (o : option jsstring) : bool :=
  match o with Some s => truthy s | None => false end.

(** [a ?? b] *)
Definition nullish {A : Type} (a b : option A) : option A :=
  match a with Some _ => a | None => b end.

Definition code_unit_eqb (a b : N) : bool := a =? b.

(** [s.startsWith(p)] *)
Fixpoint startsWith (s p : jsstring) {struct p} : bool :=
  match p with
  | [] => true
  | c :: p' =>
      match s with
      | [] => false
      | d :: s' => code_unit_eqb d c && startsWith s' p'
      end
  end.

(** [s.endsWith(p)] *)
Definition endsWith (s p : jsstring) : bool :=
  startsWith (rev s) (rev p).

(** [s.slice(n)] for a non-negative [n]. *)
Definition slice (s : jsstring) (n : nat) : jsstring := drop n s.

(** ** Unicode *)

(** A property of code points given by its inclusive ranges. *)
Definition in_ranges (table : list (N * N)) (cp : N) : bool :=
  existsb (fun r => (fst r <=? cp) && (cp <=? snd r)) table.

(** [Emoji_Presentation=Yes] in Unicode 14.0 (emoji-data.txt). The engine's
    table depends on its Unicode version, so the model of the code below takes
    the two properties as parameters; these tables instantiate them. *)
Definition Emoji_Presentation_14 : list (N * N) := [
  (0x231A, 0x231B); (0x23E9, 0x23EC); (0x23F0, 0x23F0); (0x23F3, 0x23F3);
  (0x25FD, 0x25FE); (0x2614, 0x2615); (0x2648, 0x2653); (0x267F, 0x267F);
  (0x2693, 0x2693); (0x26A1, 0x26A1); (0x26AA, 0x26AB); (0x26BD, 0x26BE);
  (0x26C4, 0x26C5); (0x26CE, 0x26CE); (0x26D4, 0x26D4); (0x26EA, 0x26EA);
  (0x26F2, 0x26F3); (0x26F5, 0x26F5); (0x26FA, 0x26FA); (0x26FD, 0x26FD);
  (0x2705, 0x2705); (0x270A, 0x270B); (0x2728, 0x2728); (0x274C, 0x274C);
  (0x274E, 0x274E); (0x2753, 0x2755); (0x2757, 0x2757); (0x2795, 0x2797);
  (0x27B0, 0x27B0); (0x27BF, 0x27BF); (0x2B1B, 0x2B1C); (0x2B50, 0x2B50);
  (0x2B55, 0x2B55); (0x1F004, 0x1F004); (0x1F0CF, 0x1F0CF);
  (0x1F18E, 0x1F18E); (0x1F191, 0x1F19A); (0x1F1E6, 0x1F1FF);
  (0x1F201, 0x1F201); (0x1F21A, 0x1F21A); (0x1F22F, 0x1F22F);
  (0x1F232, 0x1F236); (0x1F238, 0x1F23A); (0x1F250, 0x1F251);
  (0x1F300, 0x1F320); (0x1F32D, 0x1F335); (0x1F337, 0x1F37C);
  (0x1F37E, 0x1F393); (0x1F3A0, 0x1F3CA); (0x1F3CF, 0x1F3D3);
  (0x1F3E0, 0x1F3F0); (0x1F3F4, 0x1F3F4); (0x1F3F8, 0x1F43E);
  (0x1F440, 0x1F440); (0x1F442, 0x1F4FC); (0x1F4FF, 0x1F53D);
  (0x1F54B, 0x1F54E); (0x1F550, 0x1F567); (0x1F57A, 0x1F57A);
  (0x1F595, 0x1F596); (0x1F5A4, 0x1F5A4); (0x1F5FB, 0x1F64F);
  (0x1F680, 0x1F6C5); (0x1F6CC, 0x1F6CC); (0x1F6D0, 0x1F6D2);
  (0x1F6D5, 0x1F6D7); (0x1F6DD, 0x1F6DF); (0x1F6EB, 0x1F6EC);
  (0x1F6F4, 0x1F6FC); (0x1F7E0, 0x1F7EB); (0x1F7F0, 0x1F7F0);
  (0x1F90C, 0x1F93A); (0x1F93C, 0x1F945); (0x1F947, 0x1F9FF);
  (0x1FA70, 0x1FA74); (0x1FA78, 0x1FA7C); (0x1FA80, 0x1FA86);
  (0x1FA90, 0x1FAAC); (0x1FAB0, 0x1FABA); (0x1FAC0, 0x1FAC5);
  (0x1FAD0, 0x1FAD9); (0x1FAE0, 0x1FAE7); (0x1FAF0, 0x1FAF6)
].

(** [Emoji=Yes] in Unicode 14.0 (emoji-data.txt). *)
Definition Emoji_14 : list (N * N) := [
  (0x23, 0x23); (0x2A, 0x2A); (0x30, 0x39); (0xA9, 0xA9); (0xAE, 0xAE);
  (0x203C, 0x203C); (0x2049, 0x2049); (0x2122, 0x2122); (0x2139, 0x2139);
  (0x2194, 0x2199); (0x21A9, 0x21AA); (0x231A, 0x231B); (0x2328, 0x2328);
  (0x23CF, 0x23CF); (0x23E9, 0x23F3); (0x23F8, 0x23FA); (0x24C2, 0x24C2);
  (0x25AA, 0x25AB); (0x25B6, 0x25B6); (0x25C0, 0x25C0); (0x25FB, 0x25FE);
  (0x2600, 0x2604); (0x260E, 0x260E); (0x2611, 0x2611); (0x2614, 0x2615);
  (0x2618, 0x2618); (0x261D, 0x261D); (0x2620, 0x2620); (0x2622, 0x2623);
  (0x2626, 0x2626); (0x262A, 0x262A); (0x262E, 0x262F); (0x2638, 0x263A);
  (0x2640, 0x2640); (0x2642, 0x2642); (0x2648, 0x2653); (0x265F, 0x2660);
  (0x2663, 0x2663); (0x2665, 0x2666); (0x2668, 0x2668); (0x267B, 0x267B);
  (0x267E, 0x267F); (0x2692, 0x2697); (0x2699, 0x2699); (0x269B, 0x269C);
  (0x26A0, 0x26A1); (0x26A7, 0x26A7); (0x26AA, 0x26AB); (0x26B0, 0x26B1);
  (0x26BD, 0x26BE); (0x26C4, 0x26C5); (0x26C8, 0x26C8); (0x26CE, 0x26CF);
  (0x26D1, 0x26D1); (0x26D3, 0x26D4); (0x26E9, 0x26EA); (0x26F0, 0x26F5);
  (0x26F7, 0x26FA); (0x26FD, 0x26FD); (0x2702, 0x2702); (0x2705, 0x2705);
  (0x2708, 0x270D); (0x270F, 0x270F); (0x2712, 0x2712); (0x2714, 0x2714);
  (0x2716, 0x2716); (0x271D, 0x271D); (0x2721, 0x2721); (0x2728, 0x2728);
  (0x2733, 0x2734); (0x2744, 0x2744); (0x2747, 0x2747); (0x274C, 0x274C);
  (0x274E, 0x274E); (0x2753, 0x2755); (0x2757, 0x2757); (0x2763, 0x2764);
  (0x2795, 0x2797); (0x27A1, 0x27A1); (0x27B0, 0x27B0); (0x27BF, 0x27BF);
  (0x2934, 0x2935); (0x2B05, 0x2B07); (0x2B1B, 0x2B1C); (0x2B50, 0x2B50);
  (0x2B55, 0x2B55); (0x3030, 0x3030); (0x303D, 0x303D); (0x3297, 0x3297);
  (0x3299, 0x3299); (0x1F004, 0x1F004); (0x1F0CF, 0x1F0CF);
  (0x1F170, 0x1F171); (0x1F17E, 0x1F17F); (0x1F18E, 0x1F18E);
  (0x1F191, 0x1F19A); (0x1F1E6, 0x1F1FF); (0x1F201, 0x1F202);
  (0x1F21A, 0x1F21A); (0x1F22F, 0x1F22F); (0x1F232, 0x1F23A);
  (0x1F250, 0x1F251); (0x1F300, 0x1F321); (0x1F324, 0x1F393);
  (0x1F396, 0x1F397); (0x1F399, 0x1F39B); (0x1F39E, 0x1F3F0);
  (0x1F3F3, 0x1F3F5); (0x1F3F7, 0x1F4FD); (0x1F4FF, 0x1F53D);
  (0x1F549, 0x1F54E); (0x1F550, 0x1F567); (0x1F56F, 0x1F570);
  (0x1F573, 0x1F57A); (0x1F587, 0x1F587); (0x1F58A, 0x1F58D);
  (0x1F590, 0x1F590); (0x1F595, 0x1F596); (0x1F5A4, 0x1F5A5);
  (0x1F5A8, 0x1F5A8); (0x1F5B1, 0x1F5B2); (0x1F5BC, 0x1F5BC);
  (0x1F5C2, 0x1F5C4); (0x1F5D1, 0x1F5D3); (0x1F5DC, 0x1F5DE);
  (0x1F5E1, 0x1F5E1); (0x1F5E3, 0x1F5E3); (0x1F5E8, 0x1F5E8);
  (0x1F5EF, 0x1F5EF); (0x1F5F3, 0x1F5F3); (0x1F5FA, 0x1F64F);
  (0x1F680, 0x1F6C5); (0x1F6CB, 0x1F6D2); (0x1F6D5, 0x1F6D7);
  (0x1F6DD, 0x1F6E5); (0x1F6E9, 0x1F6E9); (0x1F6EB, 0x1F6EC);
  (0x1F6F0, 0x1F6F0); (0x1F6F3, 0x1F6FC); (0x1F7E0, 0x1F7EB);
  (0x1F7F0, 0x1F7F0); (0x1F90C, 0x1F93A); (0x1F93C, 0x1F945);
  (0x1F947, 0x1F9FF); (0x1FA70, 0x1FA74); (0x1FA78, 0x1FA7C);
  (0x1FA80, 0x1FA86); (0x1FA90, 0x1FAAC); (0x1FAB0, 0x1FABA);
  (0x1FAC0, 0x1FAC5); (0x1FAD0, 0x1FAD9); (0x1FAE0, 0x1FAE7);
  (0x1FAF0, 0x1FAF6)
].

Definition isLeadSurrogate (c : N) : bool := (0xD800 <=? c) && (c <=? 0xDBFF).
Definition isTrailSurrogate (c : N) : bool := (0xDC00 <=? c) && (c <=? 0xDFFF).

(** The code points a regular expression with the [u] flag sees: a lead
    surrogate followed by a trail surrogate is one code point, any other code
    unit stands for itself. *)
Fixpoint toCodePoints (s : jsstring) : list N :=
  match s with
  | [] => []
  | c :: r =>
      match r with
      | d :: r' =>
          if isLeadSurrogate c && isTrailSurrogate d
          then (0x10000 + (c - 0xD800) * 0x400 + (d - 0xDC00)) :: toCodePoints r'
          else c :: toCodePoints r
      | [] => [c]
      end
  end.

Definition ZWJ : N := 0x200D.
Definition VS16 : N := 0xFE0F.

(** ** Emoji detection (lines 148-156) *)

Section Emoji.
(** [\p{Emoji_Presentation}] and [\p{Emoji}] of the engine. *)
Variable Emoji_Presentation Emoji : N -> bool.

(** [(?:\u200D(?:\p{Emoji_Presentation}|\p{Emoji}\uFE0F))*$] on the
    remaining code points. The engine tries the alternatives in order and
    backtracks, so a match exists exactly when one of them leads to the end
    of the input. *)
Fixpoint emojiTail (cps : list N) : bool :=
  match cps with
  | [] => true
  | z :: r =>
      (z =? ZWJ) &&
      match r with
      | [] => false
      | c :: r1 =>
          (Emoji_Presentation c && emojiTail r1)
          || match r1 with
             | [] => false
             | v :: r2 => Emoji c && (v =? VS16) && emojiTail r2
             end
      end
  end.

(** [EMOJI_REGEX.test(str)]:
    [/^(?:\p{Emoji_Presentation}|\p{Emoji}\uFE0F)(?:\u200D(?:\p{Emoji_Presentation}|\p{Emoji}\uFE0F))*$/u] *)
Definition EMOJI_REGEX_test (str : jsstring) : bool :=
  match toCodePoints str with
  | [] => false
  | c :: r1 =>
      (Emoji_Presentation c && emojiTail r1)
      || match r1 with
         | [] => false
         | v :: r2 => Emoji c && (v =? VS16) && emojiTail r2
         end
  end.

Definition isEmoji (str : jsstring) : bool :=
  (N.of_nat (List.length str) <=? 8) && EMOJI_REGEX_test str.
End Emoji.

(** Special prefix for emoji icons in cache. *)
Definition EMOJI_ICON_PREFIX : jsstring := lit "emoji:".

(** [isEmoji] with the Unicode 14.0 tables. *)
Definition isEmoji_14 : jsstring -> bool :=
  isEmoji (in_ranges Emoji_Presentation_14) (in_ranges Emoji_14).

(** Sample icons as code units. *)
Definition fire : jsstring := [0xD83D; 0xDD25].
Definition red_heart : jsstring := [0x2764; 0xFE0F].
Definition family_mwg : jsstring :=
  [0xD83D; 0xDC68; 0x200D; 0xD83D; 0xDC69; 0x200D; 0xD83D; 0xDC67].
Definition flag_US : jsstring := [0xD83C; 0xDDFA; 0xD83C; 0xDDF8].
Definition thumbs_up_medium : jsstring := [0xD83D; 0xDC4D; 0xD83C; 0xDFFD].
Definition keycap_1 : jsstring := [0x31; 0xFE0F; 0x20E3].


(** ** Regular expressions of the source

    Each matcher below is the ECMAScript semantics of one regular expression
    literal of the file, written out for that literal. *)

(** Canonicalize under the [i] flag without [u]: a character matches an
    ASCII letter of the pattern when it is that letter in either case; no
    character outside ASCII matches an ASCII pattern character. *)
Definition toUpperAscii (c : N) : N :=
  if (97 <=? c) && (c <=? 122) then c - 32 else c.

Definition ci_eqb (c p : N) : bool := toUpperAscii c =? toUpperAscii p.

(** The literal [p] matches case-insensitively at the start of [s]. *)
Fixpoint startsWith_ci (s p : jsstring) {struct p} : bool :=
  match p with
  | [] => true
  | c :: p' =>
      match s with
      | [] => false
      | d :: s' => ci_eqb d c && startsWith_ci s' p'
      end
  end.

(** The longest prefix whose code units satisfy [f], and what follows it. *)
Fixpoint span (f : N -> bool) (s : jsstring) : jsstring * jsstring :=
  match s with
  | [] => ([], [])
  | c :: r =>
      if f c then let '(a, b) := span f r in (c :: a, b) else ([], s)
  end.

(** GetSubstitution for a pattern without capture groups: [$$], [$&],
    [$`] and [$'] are expanded; [$] before anything else (a digit, [<]) has
    nothing to refer to and stays as written. *)
Fixpoint GetSubstitution (matched before after template : jsstring) : jsstring :=
  match template with
  | [] => []
  | c :: t =>
      if c =? 36 then
        match t with
        | [] => [36]
        | d :: t' =>
            if d =? 36 then 36 :: GetSubstitution matched before after t'
            else if d =? 96 then before ++ GetSubstitution matched before after t'
            else if d =? 38 then matched ++ GetSubstitution matched before after t'
            else if d =? 39 then after ++ GetSubstitution matched before after t'
            else 36 :: GetSubstitution matched before after t
        end
      else c :: GetSubstitution matched before after t
  end.

(** [s.replace(/pat/gi, template)] for a non-empty literal [pat]: the
    matches are found from left to right without overlap. [before] is the
    part of the subject already passed, [skip] the number of code units of
    the current match still to pass. *)
Fixpoint replaceAll_ci (pat template before : jsstring) (skip : nat)
    (s : jsstring) : jsstring :=
  match s with
  | [] => []
  | c :: r =>
      match skip with
      | S k => replaceAll_ci pat template (before ++ [c]) k r
      | O =>
          if startsWith_ci s pat
          then GetSubstitution (take (List.length pat) s) before
                 (drop (List.length pat) s) template
               ++ replaceAll_ci pat template (before ++ [c])
                    (Nat.pred (List.length pat)) r
          else c :: replaceAll_ci pat template (before ++ [c]) O r
      end
  end.

Definition GT : N := 62.
Definition SLASH : N := 47.

(** The root-tag pattern of line 377 (literal [<svg], a starred class of
    everything but [>] as group 1, then [>], flag [i]) at the start of [s]:
    the captured attributes and the rest of the subject after the closing
    [>]. The class excludes [>], so the capture is the whole run up to the
    first [>]. *)
Definition svgTagAt (s : jsstring) : option (jsstring * jsstring) :=
  if startsWith_ci s (lit "<svg") then
    match span (fun c => negb (c =? GT)) (drop 4 s) with
    | (attrs, _ :: rest) => Some (attrs, rest)
    | (_, []) => None
    end
  else None.

(** [s.replace] with the root-tag pattern and a replacer function: the
    leftmost match is replaced by what [replacer match attrs] returns, taken
    as it is. *)
Fixpoint replaceSvgTag (replacer : jsstring -> jsstring -> jsstring)
    (s : jsstring) : jsstring :=
  match svgTagAt s with
  | Some (attrs, rest) =>
      replacer (take (4 + List.length attrs + 1) s) attrs ++ rest
  | None =>
      match s with
      | [] => []
      | c :: r => c :: replaceSvgTag replacer r
      end
  end.

(** [\w] without the [u] flag. *)
Definition isWordChar (c : N) : bool :=
  ((97 <=? c) && (c <=? 122)) || ((65 <=? c) && (c <=? 90))
  || ((48 <=? c) && (c <=? 57)) || (c =? 95).

(** [\s]: WhiteSpace and LineTerminator. *)
Definition isWhiteSpace (c : N) : bool :=
  ((9 <=? c) && (c <=? 13)) || (c =? 32) || (c =? 0xA0) || (c =? 0x1680)
  || ((0x2000 <=? c) && (c <=? 0x200A)) || (c =? 0x2028) || (c =? 0x2029)
  || (c =? 0x202F) || (c =? 0x205F) || (c =? 0x3000) || (c =? 0xFEFF).

(** [fill\s*=] with the [i] flag at the start of [s]. *)
Definition fillAttrAt (s : jsstring) : bool :=
  startsWith_ci s (lit "fill") &&
  match snd (span isWhiteSpace (drop 4 s)) with
  | c :: _ => c =? 61
  | [] => false
  end.

(** [/\bfill\s*=/i.test(s)], scanning with [prevWord] telling whether the
    code unit before the current position is a word character: the match
    starts with a word character, so [\b] holds there when the one before is
    none (or there is none). *)
Fixpoint fillAttr_search (prevWord : bool) (s : jsstring) : bool :=
  match s with
  | [] => false
  | c :: r => (negb prevWord && fillAttrAt s) || fillAttr_search (isWordChar c) r
  end.

Definition hasFillAttr (attrs : jsstring) : bool := fillAttr_search false attrs.

(** [.] without the [s] flag matches all but the line terminators. *)
Definition isLineTerminator (c : N) : bool :=
  (c =? 10) || (c =? 13) || (c =? 0x2028) || (c =? 0x2029).

(** [/skills\/([^/]+)\/(.+)$/] at the start of [s]: the two groups. [[^/]+]
    cannot give back what it took (the next pattern character is [/]), so
    group 1 is the run up to the first [/]; group 2 is all that follows and
    has to reach the end of the subject. *)
Definition skillsMatchAt (s : jsstring) : option (jsstring * jsstring) :=
  if startsWith s (lit "skills/") then
    match span (fun c => negb (c =? SLASH)) (drop 7 s) with
    | (g1, _ :: g2) =>
        if truthy g1 && truthy g2 && forallb (fun c => negb (isLineTerminator c)) g2
        then Some (g1, g2) else None
    | (_, []) => None
    end
  else None.

(** [s.match(/skills\/([^/]+)\/(.+)$/)]: the leftmost start that matches,
    [None] for [null]. *)
Fixpoint skillsMatch (s : jsstring) : option (jsstring * jsstring) :=
  match skillsMatchAt s with
  | Some m => Some m
  | None =>
      match s with
      | [] => None
      | _ :: r => skillsMatch r
      end
  end.

(** ** Types (lines 21-38) *)

Module McpConfig.
Record t : Type := { url : option jsstring }.
End McpConfig.

Module ApiConfig.
Record t : Type := { baseUrl : option jsstring }.
End ApiConfig.

Module SourceConfig.
Record t : Type := {
  slug : jsstring;
  name : jsstring;
  type : jsstring;
  icon : option jsstring;
  provider : option jsstring;
  mcp : option McpConfig.t;
  api : option ApiConfig.t
}.
End SourceConfig.

Module SkillConfig.
Record t : Type := {
  slug : jsstring;
  iconPath : option jsstring
}.
End SkillConfig.

(** The argument of [loadSourceIcon]. *)
Record Source : Type := {
  config : SourceConfig.t;
  workspaceId : jsstring
}.

(** ** The platform *)

(** How an evaluation ends: with a value, or by throwing (a rejected promise
    once awaited). The thrown value is kept as its message. *)
Inductive Completion (A : Type) : Type :=
| Normal (v : A)
| Throw (e : jsstring).
Arguments Normal {A} v.
Arguments Throw {A} e.

(** What the module does not own: the privileged-process bridge
    [window.electronAPI], the document's style, [btoa] and the Unicode tables
    of the regular-expression engine. The bridge may answer differently from
    one call to the next; [World] is whatever its answers depend on. *)
Record Platform : Type := {
  World : Type;
  (** [window.electronAPI.readWorkspaceImage(workspaceId, relativePath)] *)
  electronAPI_readWorkspaceImage :
    jsstring -> jsstring -> World -> Completion jsstring * World;
  (** [window.electronAPI.getLogoUrl(serviceUrl, provider)] *)
  electronAPI_getLogoUrl :
    jsstring -> option jsstring -> World -> Completion (option jsstring) * World;
  (** [None] when [typeof document === 'undefined'], else the trimmed
      computed value of [--foreground] on the document element. *)
  document_foreground : World -> option jsstring;
  (** [btoa]: throws on a code unit above 0xFF. *)
  btoa : jsstring -> Completion jsstring;
  Emoji_Presentation : N -> bool;
  Emoji : N -> bool
}.

(** A call that leaves the module. *)
Inductive Event : Type :=
| ReadWorkspaceImage (workspaceId relativePath : jsstring)
| GetLogoUrl (serviceUrl : jsstring) (provider : option jsstring)
| ConsoleError (message error : jsstring).

(** File reads and favicon lookups are the I/O collaborators. *)
Definition isIO (e : Event) : bool :=
  match e with
  | ReadWorkspaceImage _ _ | GetLogoUrl _ _ => true
  | ConsoleError _ _ => false
  end.

Definition isGetLogoUrl (e : Event) : bool :=
  match e with GetLogoUrl _ _ => true | _ => false end.

(** [for (const key of m.keys()) if (key.startsWith(prefix)) m.delete(key)]
    (lines 76-78, 90-92, 104-106). The iteration visits the entries that are
    in the map; deleting the one being visited does not touch the others. *)
Definition deleteByPrefix (prefix : jsstring) (m : gmap jsstring jsstring)
    : gmap jsstring jsstring :=
  foldl (fun acc key => if startsWith key prefix then delete key acc else acc)
        m (map_to_list m).*1.

(** [a === b] on strings. *)
Fixpoint string_eqb (a b : jsstring) : bool :=
  match a, b with
  | [], [] => true
  | c :: a', d :: b' => code_unit_eqb c d && string_eqb a' b'
  | _, _ => false
  end.

(** ** SVG theming, the part after the color is known (lines 369-388) *)

(** Line 372: [processed.replace(/currentColor/gi, color)]. *)
Definition replaceCurrentColor (color svgContent : jsstring) : jsstring :=
  replaceAll_ci (lit "currentColor") color [] O svgContent.

(** The replacer of lines 378-385. *)
Definition rootFillReplacer (color : jsstring) (match_ attrs : jsstring) : jsstring :=
  if hasFillAttr attrs then match_
  else lit "<svg" ++ attrs ++ lit " fill=" ++ dquote ++ color ++ dquote ++ lit ">".

Definition themeSvgContent_with (color svgContent : jsstring) : jsstring :=
  let processed := svgContent in
  let processed := replaceCurrentColor color processed in
  let processed := replaceSvgTag (rootFillReplacer color) processed in
  processed.

(** ** Helpers (lines 404-419) *)

Definition mcp_url (config : SourceConfig.t) : option jsstring :=
  match SourceConfig.mcp config with Some m => McpConfig.url m | None => None end.

Definition api_baseUrl (config : SourceConfig.t) : option jsstring :=
  match SourceConfig.api config with Some a => ApiConfig.baseUrl a | None => None end.

Definition deriveServiceUrl (config : SourceConfig.t) : option jsstring :=
  if string_eqb (SourceConfig.type config) (lit "mcp") && truthy_opt (mcp_url config)
  then mcp_url config
  else if string_eqb (SourceConfig.type config) (lit "api")
          && truthy_opt (api_baseUrl config)
  then api_baseUrl config
  else None.

Section IconCache.
Variable P : Platform.

(** ** Unified cache (lines 44-58) and what surrounds it *)
Record State : Type := {
  (** [iconCache = new Map<string, string>()] *)
  iconCache : gmap jsstring jsstring;
  (** [logoUrlCache = new Map<string, string | null>()]; [Some None] is a
      stored [null], a key without entry reads as [undefined]. *)
  logoUrlCache : gmap jsstring (option jsstring);
  world : World P;
  (** The calls made so far, oldest first. *)
  events : list Event
}.

Definition M (A : Type) : Type := State -> Completion A * State.

Definition ret {A : Type} (a : A) : M A := fun s => (Normal a, s).

Definition bind {A B : Type} (m : M A) (k : A -> M B) : M B :=
  fun s =>
    match m s with
    | (Normal a, s') => k a s'
    | (Throw e, s') => (Throw e, s')
    end.

(** [try { body } catch (error) { handler }] *)
Definition try_catch {A : Type} (body : M A) (handler : jsstring -> M A) : M A :=
  fun s =>
    match body s with
    | (Normal a, s') => (Normal a, s')
    | (Throw e, s') => handler e s'
    end.

(** A pure evaluation that may throw. *)
Definition lift {A : Type} (c : Completion A) : M A := fun s => (c, s).

Definition with_iconCache (f : gmap jsstring jsstring -> gmap jsstring jsstring)
    (s : State) : State :=
  {| iconCache := f (iconCache s); logoUrlCache := logoUrlCache s;
     world := world s; events := events s |}.

Definition with_logoUrlCache
    (f : gmap jsstring (option jsstring) -> gmap jsstring (option jsstring))
    (s : State) : State :=
  {| iconCache := iconCache s; logoUrlCache := f (logoUrlCache s);
     world := world s; events := events s |}.

Definition call (e : Event) (w : World P) (s : State) : State :=
  {| iconCache := iconCache s; logoUrlCache := logoUrlCache s;
     world := w; events := events s ++ [e] |}.

Definition iconCache_get (key : jsstring) : M (option jsstring) :=
  fun s => (Normal (iconCache s !! key), s).

Definition iconCache_set (key value : jsstring) : M unit :=
  fun s => (Normal tt, with_iconCache (insert key value) s).

Definition logoUrlCache_get (key : jsstring) : M (option (option jsstring)) :=
  fun s => (Normal (logoUrlCache s !! key), s).

Definition logoUrlCache_set (key : jsstring) (value : option jsstring) : M unit :=
  fun s => (Normal tt, with_logoUrlCache (insert key value) s).

Definition readWorkspaceImage (workspaceId relativePath : jsstring) : M jsstring :=
  fun s =>
    let '(r, w) := electronAPI_readWorkspaceImage P workspaceId relativePath (world s) in
    (r, call (ReadWorkspaceImage workspaceId relativePath) w s).

Definition getLogoUrl (serviceUrl : jsstring) (provider : option jsstring)
    : M (option jsstring) :=
  fun s =>
    let '(r, w) := electronAPI_getLogoUrl P serviceUrl provider (world s) in
    (r, call (GetLogoUrl serviceUrl provider) w s).

Definition console_error (message error : jsstring) : M unit :=
  fun s => (Normal tt, call (ConsoleError message error) (world s) s).

(** *** Legacy views (lines 68-108) *)

Definition sourceIconCache_get (key : jsstring) : M (option jsstring) :=
  iconCache_get (lit "source:" ++ key).
Definition sourceIconCache_set (key value : jsstring) : M unit :=
  iconCache_set (lit "source:" ++ key) value.
Definition sourceIconCache_clear : M unit :=
  fun s => (Normal tt, with_iconCache (deleteByPrefix (lit "source:")) s).

Definition skillIconCache_get (key : jsstring) : M (option jsstring) :=
  iconCache_get (lit "skill:" ++ key).
Definition skillIconCache_set (key value : jsstring) : M unit :=
  iconCache_set (lit "skill:" ++ key) value.
Definition skillIconCache_clear : M unit :=
  fun s => (Normal tt, with_iconCache (deleteByPrefix (lit "skill:")) s).

Definition statusIconCache_clear : M unit :=
  fun s => (Normal tt, with_iconCache (deleteByPrefix (lit "status:")) s).

(** *** Cache management (lines 114-142) *)

Definition clearIconCaches : M unit :=
  bind (fun s => (Normal tt, with_iconCache (fun _ => ∅) s))
       (fun _ s => (Normal tt, with_logoUrlCache (fun _ => ∅) s)).

Definition clearSourceIconCaches : M unit :=
  bind sourceIconCache_clear
       (fun _ s => (Normal tt, with_logoUrlCache (fun _ => ∅) s)).

Definition clearSkillIconCaches : M unit := skillIconCache_clear.

Definition clearStatusIconCaches : M unit := statusIconCache_clear.

Notation "x <- m ;; k" := (bind m (fun x => k))
  (at level 100, m at next level, right associativity).
Notation "m ;;; k" := (bind m (fun _ => k))
  (at level 100, right associativity).

(** *** SVG theming (lines 333-398) *)

Definition getForegroundColor : M jsstring :=
  fun s =>
    match document_foreground P (world s) with
    | None => (Normal (lit "#e3e2e5"), s)
    | Some computedColor =>
        (Normal (if truthy computedColor then computedColor else lit "#e3e2e5"), s)
    end.

Definition themeSvgContent (svgContent : jsstring)
    (foregroundColor : option jsstring) : M jsstring :=
  color <- match foregroundColor with
           | Some c => ret c
           | None => getForegroundColor
           end ;;
  ret (themeSvgContent_with color svgContent).

Definition svgToThemedDataUrl (svgContent : jsstring)
    (foregroundColor : option jsstring) : M jsstring :=
  themedSvg <- themeSvgContent svgContent foregroundColor ;;
  encoded <- lift (btoa P themedSvg) ;;
  ret (lit "data:image/svg+xml;base64," ++ encoded).

(** *** Source icon loading (lines 148-273) *)

(** Lines 251-264. *)
Definition loadWorkspaceIcon (workspaceId relativePath : jsstring)
    : M (option jsstring) :=
  try_catch
    (result <- readWorkspaceImage workspaceId relativePath ;;
     if endsWith relativePath (lit ".svg")
     then (themed <- svgToThemedDataUrl result None ;; ret (Some themed))
     else ret (Some result))
    (fun _ => ret None).

(** [if (value) sourceIconCache.set(cacheKey, value)] *)
Definition cacheIfTruthy (cacheKey : jsstring) (value : option jsstring) : M unit :=
  match value with
  | Some v => if truthy v then sourceIconCache_set cacheKey v else ret tt
  | None => ret tt
  end.

(** [if (value) { yes } no]: the branch on a [string | null] that is then
    known to be a string. *)
Definition ifTruthy {A : Type} (value : option jsstring) (yes : jsstring -> M A)
    (no : M A) : M A :=
  match value with
  | Some v => if truthy v then yes v else no
  | None => no
  end.

(** Priority 5 of [loadSourceIcon] (lines 216-244). *)
Definition faviconFallback (config : SourceConfig.t) (cacheKey : jsstring)
    : M (option jsstring) :=
  let serviceUrl := deriveServiceUrl config in
  match serviceUrl with
  | None => ret None
  | Some serviceUrl =>
      if negb (truthy serviceUrl) then ret None else
      let provider := nullish (Some (SourceConfig.slug config))
                              (SourceConfig.provider config) in
      let logoCacheKey := serviceUrl ++ lit ":" ++ default [] provider in
      cachedLogoUrl <- logoUrlCache_get logoCacheKey ;;
      match cachedLogoUrl with
      | Some cachedLogoUrl =>
          cacheIfTruthy cacheKey cachedLogoUrl ;;;
          ret cachedLogoUrl
      | None =>
          try_catch
            (logoUrl <- getLogoUrl serviceUrl provider ;;
             logoUrlCache_set logoCacheKey logoUrl ;;;
             cacheIfTruthy cacheKey logoUrl ;;;
             ret logoUrl)
            (fun error =>
               console_error (lit "[IconCache] Failed to resolve logo URL:") error ;;;
               logoUrlCache_set logoCacheKey None ;;;
               ret None)
      end
  end.

(** Priorities 3 and 4 of [loadSourceIcon], then priority 5 (lines 200-244). *)
Definition autoDiscover (config : SourceConfig.t) (workspaceId cacheKey : jsstring)
    : M (option jsstring) :=
  localIconSvg <- loadWorkspaceIcon workspaceId
    (lit "sources/" ++ SourceConfig.slug config ++ lit "/icon.svg") ;;
  ifTruthy localIconSvg
    (fun localIconSvg =>
       sourceIconCache_set cacheKey localIconSvg ;;;
       ret (Some localIconSvg))
    (localIconPng <- loadWorkspaceIcon workspaceId
       (lit "sources/" ++ SourceConfig.slug config ++ lit "/icon.png") ;;
     ifTruthy localIconPng
       (fun localIconPng =>
          sourceIconCache_set cacheKey localIconPng ;;;
          ret (Some localIconPng))
       (faviconFallback config cacheKey)).

(** [icon && isEmoji(icon)] *)
Definition isEmojiIcon (icon : option jsstring) : bool :=
  match icon with
  | Some i => truthy i && isEmoji (Emoji_Presentation P) (Emoji P) i
  | None => false
  end.

(** [icon?.startsWith('./')] *)
Definition isLocalPath (icon : option jsstring) : bool :=
  match icon with
  | Some i => startsWith i (lit "./")
  | None => false
  end.

(** Lines 170-245. *)
Definition loadSourceIcon (source : Source) : M (option jsstring) :=
  let config := config source in
  let workspaceId := workspaceId source in
  let cacheKey := workspaceId ++ lit ":" ++ SourceConfig.slug config in
  cached <- sourceIconCache_get cacheKey ;;
  if truthy_opt cached then ret cached else
  let icon := SourceConfig.icon config in
  if isEmojiIcon icon then
    let emojiMarker := EMOJI_ICON_PREFIX ++ default [] icon in
    sourceIconCache_set cacheKey emojiMarker ;;;
    ret (Some emojiMarker)
  else
  if isLocalPath icon then
    let iconFilename := slice (default [] icon) 2 in
    let relativePath :=
      lit "sources/" ++ SourceConfig.slug config ++ lit "/" ++ iconFilename in
    loaded <- loadWorkspaceIcon workspaceId relativePath ;;
    ifTruthy loaded
      (fun loaded => sourceIconCache_set cacheKey loaded ;;; ret (Some loaded))
      (autoDiscover config workspaceId cacheKey)
  else autoDiscover config workspaceId cacheKey.

(** Lines 270-273. *)
Definition getSourceIconSync (workspaceId slug : jsstring) : M (option jsstring) :=
  sourceIconCache_get (workspaceId ++ lit ":" ++ slug).

(** *** Skill icon loading (lines 284-327) *)

Definition loadSkillIcon (skill : SkillConfig.t) (workspaceId : jsstring)
    : M (option jsstring) :=
  let iconPath := SkillConfig.iconPath skill in
  if negb (truthy_opt iconPath) then ret None else
  let iconPath := default [] iconPath in
  let cacheKey := workspaceId ++ lit ":" ++ SkillConfig.slug skill in
  cached <- skillIconCache_get cacheKey ;;
  if truthy_opt cached then ret cached else
  let skillsMatch := skillsMatch iconPath in
  match skillsMatch with
  | None => ret None
  | Some (group1, group2) =>
      let relativePath := lit "skills/" ++ group1 ++ lit "/" ++ group2 in
      try_catch
        (result <- readWorkspaceImage workspaceId relativePath ;;
         url <- (if endsWith relativePath (lit ".svg")
                 then svgToThemedDataUrl result None
                 else ret result) ;;
         skillIconCache_set cacheKey url ;;;
         ret (Some url))
        (fun error =>
           console_error
             (lit "[IconCache] Failed to load skill icon " ++ relativePath ++ lit ":")
             error ;;;
           ret None)
  end.

(** Lines 324-327. *)
Definition getSkillIconSync (workspaceId slug : jsstring) : M (option jsstring) :=
  skillIconCache_get (workspaceId ++ lit ":" ++ slug).

End IconCache.

Arguments iconCache {P} s.
Arguments logoUrlCache {P} s.
Arguments world {P} s.
Arguments events {P} s.

(** ** A concrete platform *)

Definition b64char (n : N) : N :=
  if n <? 26 then 65 + n
  else if n <? 52 then 97 + (n - 26)
  else if n <? 62 then 48 + (n - 52)
  else if n =? 62 then 43 else 47.

(** Base64 of a sequence of bytes, with padding. *)
Fixpoint b64encode (s : list N) : list N :=
  match s with
  | [] => []
  | [a] => [b64char (a / 4); b64char ((a mod 4) * 16); 61; 61]
  | [a; b] =>
      [b64char (a / 4); b64char ((a mod 4) * 16 + b / 16);
       b64char ((b mod 16) * 4); 61]
  | a :: b :: c :: r =>
      b64char (a / 4) :: b64char ((a mod 4) * 16 + b / 16)
      :: b64char ((b mod 16) * 4 + c / 64) :: b64char (c mod 64)
      :: b64encode r
  end.

(** [btoa] of the browser. *)
Definition btoa_base64 (s : jsstring) : Completion jsstring :=
  if forallb (fun c => c <=? 0xFF) s then Normal (b64encode s)
  else Throw (lit "InvalidCharacterError").

(** A workspace on disk and a favicon service that do not change: the files
    as [(workspaceId, relativePath, content)], the favicon answers per
    service URL ([Throw] for a transport error; a URL that is not listed has
    no logo). *)
Record Disk : Type := {
  files : list (jsstring * jsstring * jsstring);
  favicons : list (jsstring * Completion (option jsstring))
}.

Fixpoint readFile (fs : list (jsstring * jsstring * jsstring))
    (workspaceId relativePath : jsstring) : Completion jsstring :=
  match fs with
  | [] => Throw (lit "ENOENT")
  | (w, p, content) :: fs' =>
      if string_eqb w workspaceId && string_eqb p relativePath
      then Normal content
      else readFile fs' workspaceId relativePath
  end.

Fixpoint lookupFavicon (t : list (jsstring * Completion (option jsstring)))
    (serviceUrl : jsstring) : Completion (option jsstring) :=
  match t with
  | [] => Normal None
  | (u, r) :: t' => if string_eqb u serviceUrl then r else lookupFavicon t' serviceUrl
  end.

(** The renderer on a fixed disk, without a document (the fallback color is
    used), with the Unicode 14.0 tables. *)
Definition diskPlatform : Platform := {|
  World := Disk;
  electronAPI_readWorkspaceImage := fun workspaceId relativePath d =>
    (readFile (files d) workspaceId relativePath, d);
  electronAPI_getLogoUrl := fun serviceUrl _ d =>
    (lookupFavicon (favicons d) serviceUrl, d);
  document_foreground := fun _ => None;
  btoa := btoa_base64;
  Emoji_Presentation := in_ranges Emoji_Presentation_14;
  Emoji := in_ranges Emoji_14
|}.

(** The state of a renderer that has just started on disk [d]. *)
Definition freshState (d : Disk) : State diskPlatform :=
  Build_State diskPlatform ∅ ∅ d [].

Definition emptyDisk : Disk := {| files := []; favicons := [] |}.

(** [config] with the [icon] field left out. *)
Definition withoutIcon (c : SourceConfig.t) : SourceConfig.t :=
  {| SourceConfig.slug := SourceConfig.slug c;
     SourceConfig.name := SourceConfig.name c;
     SourceConfig.type := SourceConfig.type c;
     SourceConfig.icon := None;
     SourceConfig.provider := SourceConfig.provider c;
     SourceConfig.mcp := SourceConfig.mcp c;
     SourceConfig.api := SourceConfig.api c |}.

(** [{ slug, name: slug, type, icon }] *)
Definition plainSource (slug type : string) (icon : option jsstring) : SourceConfig.t :=
  {| SourceConfig.slug := lit slug;
     SourceConfig.name := lit slug;
     SourceConfig.type := lit type;
     SourceConfig.icon := icon;
     SourceConfig.provider := None;
     SourceConfig.mcp := None;
     SourceConfig.api := None |}.

(** [{ slug: "linear", type: "mcp", mcp: { url: "https://api.linear.app" } }] *)
Definition linear : SourceConfig.t :=
  {| SourceConfig.slug := lit "linear";
     SourceConfig.name := lit "Linear";
     SourceConfig.type := lit "mcp";
     SourceConfig.icon := None;
     SourceConfig.provider := None;
     SourceConfig.mcp := Some {| McpConfig.url := Some (lit "https://api.linear.app") |};
     SourceConfig.api := None |}.

Definition inWorkspace (ws : string) (c : SourceConfig.t) : Source :=
  {| config := c; workspaceId := lit ws |}.

Definition red : jsstring := lit "#ff0000".

(** A renderer holding one source icon, one skill icon and one favicon
    answer. *)
Definition populatedState : State diskPlatform :=
  Build_State diskPlatform
    (<[lit "source:ws:linear" := lit "https://logo.example/linear.png"]>
       (<[lit "skill:ws:commit" := lit "data:image/png;base64,AA=="]> ∅))
    (<[lit "https://api.linear.app:linear" := None]> ∅)
    emptyDisk [].

Definition svg_currentColor_child : jsstring :=
  lit "<svg><path fill=" ++ dquote ++ lit "currentColor" ++ dquote ++ lit "/></svg>".

(** What the specification expects for [svg_currentColor_child] in red. *)
Definition svg_red_child_only : jsstring :=
  lit "<svg><path fill=" ++ dquote ++ lit "#ff0000" ++ dquote ++ lit "/></svg>".

(** What the code returns for it. *)
Definition svg_red_child_and_root : jsstring :=
  lit "<svg fill=" ++ dquote ++ lit "#ff0000" ++ dquote ++ lit "><path fill="
  ++ dquote ++ lit "#ff0000" ++ dquote ++ lit "/></svg>".

Arguments lit : simpl never.

(** What [getForegroundColor] returns in world [w] (lines 337-350). *)
Definition foregroundColorIn (P : Platform) (w : World P) : jsstring :=
  match document_foreground P w with
  | None => lit "#e3e2e5"
  | Some computedColor =>
      if truthy computedColor then computedColor else lit "#e3e2e5"
  end.

(** What [loadWorkspaceIcon] resolves to (lines 252-263), given the answer of
    the file read and the world the read leaves behind. *)
Definition loadedIcon (P : Platform) (relativePath : jsstring)
    (answer : Completion jsstring) (w : World P) : option jsstring :=
  match answer with
  | Throw _ => None
  | Normal result =>
      if endsWith relativePath (lit ".svg") then
        match btoa P (themeSvgContent_with (foregroundColorIn P w) result) with
        | Normal encoded => Some (lit "data:image/svg+xml;base64," ++ encoded)
        | Throw _ => None
        end
      else Some result
  end.

(** The key of the logo-URL store for a service URL and a source
    (lines 221-222). *)
Definition logoCacheKey (serviceUrl : jsstring) (config : SourceConfig.t) : jsstring :=
  serviceUrl ++ lit ":"
  ++ default [] (nullish (Some (SourceConfig.slug config)) (SourceConfig.provider config)).

(** The provider handed to the favicon collaborator (line 221). *)
Definition logoProvider (config : SourceConfig.t) : option jsstring :=
  nullish (Some (SourceConfig.slug config)) (SourceConfig.provider config).

(** The key of a source in the icon store (lines 70 and 174). *)
Definition sourceKey (source : Source) : jsstring :=
  lit "source:" ++ (workspaceId source ++ lit ":" ++ SourceConfig.slug (config source)).

(** The key of a skill in the icon store (lines 84 and 291). *)
Definition skillKey (skill : SkillConfig.t) (workspaceId : jsstring) : jsstring :=
  lit "skill:" ++ (workspaceId ++ lit ":" ++ SkillConfig.slug skill).

(** The service URL as the specification words it: [mcp.url] for a source
    of type [mcp], [api.baseUrl] for one of type [api], none for any other
    type. *)
Definition serviceUrlOf (config : SourceConfig.t) : option jsstring :=
  if string_eqb (SourceConfig.type config) (lit "mcp") then mcp_url config
  else if string_eqb (SourceConfig.type config) (lit "api") then api_baseUrl config
  else None.

(** The two files of the auto-discovery (lines 204 and 210). *)
Definition iconSvgPath (config : SourceConfig.t) : jsstring :=
  lit "sources/" ++ SourceConfig.slug config ++ lit "/icon.svg".
Definition iconPngPath (config : SourceConfig.t) : jsstring :=
  lit "sources/" ++ SourceConfig.slug config ++ lit "/icon.png".

(** A favicon service that is down. *)
Definition linearDown : Disk :=
  {| files := [];
     favicons := [(lit "https://api.linear.app", Throw (lit "net::ERR_FAILED"))] |}.

(** [source] with the [icon] field of its configuration left out. *)
Definition sourceWithoutIcon (source : Source) : Source :=
  {| config := withoutIcon (config source); workspaceId := workspaceId source |}.

(** A source whose icon is a remote URL. *)
Definition remoteIconSource : Source :=
  inWorkspace "ws"
    (plainSource "docs" "api" (Some (lit "https://example.com/icon.png"))).

(** A source of type [local] whose icon is the flag of the United States. *)
Definition flagSource : Source :=
  inWorkspace "ws" (plainSource "x" "local" (Some flag_US)).

(** The favicon of a source needs no lookup in state [st]: there is no
    service URL, or the logo-URL store has an entry for its key. *)
Definition logoSettled {P : Platform} (config : SourceConfig.t) (st : State P) : Prop :=
  match deriveServiceUrl config with
  | None => True
  | Some u => is_Some (logoUrlCache st !! logoCacheKey u config)
  end.

(** A source of type [local] without icon and without files. *)
Definition bareSource : Source := inWorkspace "ws" (plainSource "x" "local" None).

(** A source with the fire emoji as its icon. *)
Definition fireSource : Source := inWorkspace "ws" (plainSource "x" "local" (Some fire)).






(** The path read for a skill icon (line 302). *)
Definition skillRelativePath (group1 group2 : jsstring) : jsstring :=
  lit "skills/" ++ group1 ++ lit "/" ++ group2.

(** The message logged when a skill icon cannot be loaded (line 315). *)
Definition skillLoadFailed (relativePath : jsstring) : jsstring :=
  lit "[IconCache] Failed to load skill icon " ++ relativePath ++ lit ":".

(** A workspace with one skill icon. *)
Definition commitDisk : Disk :=
  {| files := [(lit "ws", lit "skills/commit/icon.png",
                lit "data:image/png;base64,iVBORw0KGgo=")];
     favicons := [] |}.

Definition commitSkill : SkillConfig.t :=
  {| SkillConfig.slug := lit "commit";
     SkillConfig.iconPath := Some (lit "/home/u/.craft/skills/commit/icon.png") |}.

(** The same skill with a path outside any [skills] folder. *)
Definition commitSkillMisplaced : SkillConfig.t :=
  {| SkillConfig.slug := lit "commit";
     SkillConfig.iconPath := Some (lit "/tmp/icon.png") |}.

(** The attributes of the root tag as line 377 finds it: group 1 of the
    leftmost match of the root-tag pattern. *)
Fixpoint rootAttrs (s : jsstring) : option jsstring :=
  match svgTagAt s with
  | Some (attrs, _) => Some attrs
  | None =>
      match s with
      | [] => None
      | _ :: r => rootAttrs r
      end
  end.

(** The literal [pat] occurs in [s], in any case of its letters. *)
Fixpoint occurs_ci (pat s : jsstring) : bool :=
  startsWith_ci s pat
  || match s with
     | [] => false
     | _ :: r => occurs_ci pat r
     end.

(** [<svg fill="none" stroke="currentColor"><path d="M0 0h24"/></svg>] *)
Definition svg_stroke_icon : jsstring :=
  lit "<svg fill=" ++ dquote ++ lit "none" ++ dquote ++ lit " stroke=" ++ dquote
  ++ lit "currentColor" ++ dquote ++ lit "><path d=" ++ dquote ++ lit "M0 0h24"
  ++ dquote ++ lit "/></svg>".

(** [<svg fill="none"><path d="M0 0h24" stroke="#000"/></svg>] *)
Definition svg_fill_none : jsstring :=
  lit "<svg fill=" ++ dquote ++ lit "none" ++ dquote ++ lit "><path d=" ++ dquote
  ++ lit "M0 0h24" ++ dquote ++ lit " stroke=" ++ dquote ++ lit "#000" ++ dquote
  ++ lit "/></svg>".

(** [<svg stroke="currentColor" fill="none"></svg>] *)
Definition svg_stroke_then_fill : jsstring :=
  lit "<svg stroke=" ++ dquote ++ lit "currentColor" ++ dquote ++ lit " fill="
  ++ dquote ++ lit "none" ++ dquote ++ lit "></svg>".

(** A workspace where the source [linear] has an SVG icon. *)
Definition linearIconDisk : Disk :=
  {| files := [(lit "ws", lit "sources/linear/icon.svg", svg_currentColor_child)];
     favicons := [] |}.

(** [s] contains the character [>]. *)
Definition hasGT (s : jsstring) : bool := existsb (fun c => c =? GT) s.

Definition isRead (e : Event) : bool :=
  match e with ReadWorkspaceImage _ _ => true | _ => false end.

Definition isLog (e : Event) : bool :=
  match e with ConsoleError _ _ => true | _ => false end.

(** How many of the calls [l] satisfy [f]. *)
Definition count (f : Event -> bool) (l : list Event) : nat :=
  List.length (List.filter f l).

(** What one call of a loader may do to the two stores and to the log of
    calls, for the entry [key] of the icon store and the entry [logoKey] of
    the logo-URL store ([None]: the call has no such entry): the icon store
    is left alone or receives the non-empty result under [key], where no
    non-empty value was; the logo-URL store is left alone or receives an
    entry under [logoKey], where none was; the log grows by at most [reads]
    file reads, one favicon lookup and one error line. *)
Definition loaderStep {P : Platform} (key : jsstring) (logoKey : option jsstring)
    (reads : nat) (r : Completion (option jsstring)) (st st1 : State P) : Prop :=
  (iconCache st1 = iconCache st
   \/ exists v, truthy v = true /\ r = Normal (Some v)
                /\ truthy_opt (iconCache st !! key) = false
                /\ iconCache st1 = <[key := v]> (iconCache st))
  /\ (logoUrlCache st1 = logoUrlCache st
      \/ exists k o, logoKey = Some k /\ logoUrlCache st !! k = None
                     /\ logoUrlCache st1 = <[k := o]> (logoUrlCache st))
  /\ exists evs, events st1 = events st ++ evs
                 /\ (count isRead evs <= reads)%nat
                 /\ (count isGetLogoUrl evs <= 1)%nat
                 /\ (count isLog evs <= count isGetLogoUrl evs)%nat.

(** The entry of the logo-URL store that belongs to a source, if it has a
    service URL. *)
Definition logoKeyOf (config : SourceConfig.t) : option jsstring :=
  match deriveServiceUrl config with
  | Some u => Some (logoCacheKey u config)
  | None => None
  end.

(** A workspace where the source [docs] has its own logo and also the two
    files of the auto-discovery; the favicon service knows a logo too. *)
Definition docsDisk : Disk :=
  {| files :=
       [(lit "ws", lit "sources/docs/logo.png", lit "data:image/png;base64,bG9nbw==");
        (lit "ws", lit "sources/docs/icon.svg", svg_fill_none);
        (lit "ws", lit "sources/docs/icon.png", lit "data:image/png;base64,aWNvbg==")];
     favicons :=
       [(lit "https://docs.example", Normal (Some (lit "https://logo.example/docs.png")))] |}.

(** [{ slug: "docs", type: "api", icon: "./logo.png",
       api: { baseUrl: "https://docs.example" } }] *)
Definition docsConfig : SourceConfig.t :=
  {| SourceConfig.slug := lit "docs";
     SourceConfig.name := lit "Docs";
     SourceConfig.type := lit "api";
     SourceConfig.icon := Some (lit "./logo.png");
     SourceConfig.provider := None;
     SourceConfig.mcp := None;
     SourceConfig.api := Some {| ApiConfig.baseUrl := Some (lit "https://docs.example") |} |}.

Definition docsSource : Source := inWorkspace "ws" docsConfig.

(** [s] contains a colon. *)
Definition hasColon (s : jsstring) : bool := existsb (fun c => c =? 58) s.

(** [s] contains a slash. *)
Definition hasSlash (s : jsstring) : bool := existsb (fun c => c =? SLASH) s.

(** Two sources whose workspace identifier and slug differ, yet share their
    cache key [a:b:c]. *)
Definition colonSourceA : Source :=
  inWorkspace "a:b" (plainSource "c" "local" (Some fire)).
Definition colonSourceB : Source :=
  inWorkspace "a" (plainSource "b:c" "local" None).

(** A workspace whose skill [blank] has an icon file without content. *)
Definition blankDisk : Disk :=
  {| files := [(lit "ws", lit "skills/blank/icon.png", [])]; favicons := [] |}.

Definition blankSkill : SkillConfig.t :=
  {| SkillConfig.slug := lit "blank";
     SkillConfig.iconPath := Some (lit "/home/u/.craft/skills/blank/icon.png") |}.

(** ** The legacy views as objects (lines 69-108) *)

Section Views.
Variable P : Platform.

(** [iconCache.has(key)] *)
Definition iconCache_has (key : jsstring) : M P bool :=
  fun s => (Normal (match iconCache s !! key with Some _ => true | None => false end), s).

(** [iconCache.delete(key)], which tells whether there was an entry. *)
Definition iconCache_delete (key : jsstring) : M P bool :=
  fun s => (Normal (match iconCache s !! key with Some _ => true | None => false end),
            with_iconCache P (delete key) s).

Definition sourceIconCache_has (key : jsstring) : M P bool :=
  iconCache_has (lit "source:" ++ key).
Definition sourceIconCache_delete (key : jsstring) : M P bool :=
  iconCache_delete (lit "source:" ++ key).

Definition skillIconCache_has (key : jsstring) : M P bool :=
  iconCache_has (lit "skill:" ++ key).
Definition skillIconCache_delete (key : jsstring) : M P bool :=
  iconCache_delete (lit "skill:" ++ key).

Definition statusIconCache_get (key : jsstring) : M P (option jsstring) :=
  iconCache_get P (lit "status:" ++ key).
Definition statusIconCache_set (key value : jsstring) : M P unit :=
  iconCache_set P (lit "status:" ++ key) value.
Definition statusIconCache_has (key : jsstring) : M P bool :=
  iconCache_has (lit "status:" ++ key).
Definition statusIconCache_delete (key : jsstring) : M P bool :=
  iconCache_delete (lit "status:" ++ key).

(** An object with the five methods of a view. *)
Record IconView : Type := {
  view_get : jsstring -> M P (option jsstring);
  view_set : jsstring -> jsstring -> M P unit;
  view_has : jsstring -> M P bool;
  view_delete : jsstring -> M P bool;
  view_clear : M P unit
}.

Definition sourceIconCache : IconView :=
  {| view_get := sourceIconCache_get P;
     view_set := sourceIconCache_set P;
     view_has := sourceIconCache_has;
     view_delete := sourceIconCache_delete;
     view_clear := sourceIconCache_clear P |}.

Definition skillIconCache : IconView :=
  {| view_get := skillIconCache_get P;
     view_set := skillIconCache_set P;
     view_has := skillIconCache_has;
     view_delete := skillIconCache_delete;
     view_clear := skillIconCache_clear P |}.

Definition statusIconCache : IconView :=
  {| view_get := statusIconCache_get;
     view_set := statusIconCache_set;
     view_has := statusIconCache_has;
     view_delete := statusIconCache_delete;
     view_clear := statusIconCache_clear P |}.

End Views.

(** The three views by name, and the prefix each one puts before its keys. *)
Inductive ViewName : Type := SourceIcons | SkillIcons | StatusIcons.

Definition viewOf (P : Platform) (n : ViewName) : IconView P :=
  match n with
  | SourceIcons => sourceIconCache P
  | SkillIcons => skillIconCache P
  | StatusIcons => statusIconCache P
  end.

Definition viewPrefix (n : ViewName) : jsstring :=
  match n with
  | SourceIcons => lit "source:"
  | SkillIcons => lit "skill:"
  | StatusIcons => lit "status:"
  end.

(** [clearSourceIconCache] of the avatar component ([SourceAvatar],
    lines 138-140). *)
Definition clearSourceIconCache (P : Platform) : M P unit := clearIconCaches P.

(** Two runs end alike: with the same completion, in the same world, after
    the same calls. *)
Definition sameOutcome {P : Platform} {A : Type} (st st' : State P)
    (out out' : Completion A * State P) : Prop :=
  out.1 = out'.1
  /\ world out.2 = world out'.2
  /\ exists evs, events out.2 = events st ++ evs /\ events out'.2 = events st' ++ evs.

(** Two states hold the same for a source: the same entry under its key of
    the icon store, the same entry under its key of the logo-URL store, and
    the same world around them. *)
Definition sameEntries {P : Platform} (source : Source) (st st' : State P) : Prop :=
  iconCache st !! sourceKey source = iconCache st' !! sourceKey source
  /\ (forall k, logoKeyOf (config source) = Some k ->
        logoUrlCache st !! k = logoUrlCache st' !! k)
  /\ world st = world st'.

(** A renderer with empty stores in the world of [st], after the calls of
    [st]. *)
Definition emptied {P : Platform} (st : State P) : State P :=
  Build_State P ∅ ∅ (world st) (events st).

(** In [st'] the icon of [source] has to be resolved anew: nothing is cached
    under its key, and [loadSourceIcon] does what it does with empty
    stores. *)
Definition resolvedAfresh {P : Platform} (source : Source) (st' : State P) : Prop :=
  (getSourceIconSync P (workspaceId source) (SourceConfig.slug (config source)) st').1
  = Normal None
  /\ sameOutcome st' (emptied st')
       (loadSourceIcon P source st') (loadSourceIcon P source (emptied st')).

(** [s] has a code unit above 0xFF, one that [btoa] does not encode. *)
Definition hasWide (s : jsstring) : bool := existsb (fun c => 0xFF <? c) s.

(** [<svg><title>☃</title><path d="M0 0h24"/></svg>], the title being the
    snowman U+2603. *)
Definition svg_snowman : jsstring :=
  lit "<svg><title>" ++ [0x2603] ++ lit "</title><path d=" ++ dquote ++ lit "M0 0h24"
  ++ dquote ++ lit "/></svg>".

(** A workspace whose source [x] and whose skill [snow] have that icon. *)
Definition snowDisk : Disk :=
  {| files := [(lit "ws", lit "sources/x/icon.svg", svg_snowman);
               (lit "ws", lit "skills/snow/icon.svg", svg_snowman)];
     favicons := [] |}.

Definition snowSkill : SkillConfig.t :=
  {| SkillConfig.slug := lit "snow";
     SkillConfig.iconPath := Some (lit "/home/u/.craft/skills/snow/icon.svg") |}.



(** ** The avatar component ([SourceAvatar])

    A hook is modelled by its state initializers, which run in the first
    render, and by its effect, which runs after that render and is followed
    here until the promise it started has settled and the handler of the
    promise has run. Line numbers are those of the component. *)

(** The two pieces of state of [useSourceIcon] (lines 153 and 164). *)
Record SourceIconState : Type := {
  iconUrl : option jsstring;
  emojiIcon : option jsstring
}.

Definition setIconUrl (value : option jsstring) (h : SourceIconState)
    : SourceIconState :=
  {| iconUrl := value; emojiIcon := emojiIcon h |}.

Definition setEmojiIcon (value : option jsstring) (h : SourceIconState)
    : SourceIconState :=
  {| iconUrl := iconUrl h; emojiIcon := value |}.

(** The props of the component: a loaded source, or the direct props
    (lines 49-94). [logoUrl] is absent both for [undefined] and for [null],
    which lines 323 and 329 do not tell apart. *)
Inductive SourceAvatarProps : Type :=
| LoadedSourceAvatarProps (source : Source)
| DirectSourceAvatarProps (type name : jsstring)
    (logoUrl serviceUrl provider : option jsstring).

Section SourceAvatar.
Variable P : Platform.

Notation "x <- m ;; k" := (bind P m (fun x => k))
  (at level 100, m at next level, right associativity).
Notation "m ;;; k" := (bind P m (fun _ => k))
  (at level 100, right associativity).

(** Lines 153-162: the initial [iconUrl]. *)
Definition useSourceIcon_initialIconUrl (source : option Source)
    : M P (option jsstring) :=
  match source with
  | Some source =>
      (cached <- getSourceIconSync P (workspaceId source)
                   (SourceConfig.slug (config source)) ;;
       if truthy_opt cached && negb (startsWith (default [] cached) EMOJI_ICON_PREFIX)
       then ret P cached
       else ret P None)
  | None => ret P None
  end.

(** Lines 164-173: the initial [emojiIcon]. *)
Definition useSourceIcon_initialEmojiIcon (source : option Source)
    : M P (option jsstring) :=
  match source with
  | Some source =>
      (cached <- getSourceIconSync P (workspaceId source)
                   (SourceConfig.slug (config source)) ;;
       match cached with
       | Some cached =>
           if startsWith cached EMOJI_ICON_PREFIX
           then ret P (Some (slice cached (List.length EMOJI_ICON_PREFIX)))
           else ret P None
       | None => ret P None
       end)
  | None => ret P None
  end.

(** Lines 175-217: the effect. [cancelled] is the flag of line 196 when the
    promise settles: [true] when the cleanup of line 215 has run by then.
    The result is the state of the hook after the setters have run. *)
Definition useSourceIcon_effect (source : option Source) (cancelled : bool)
    (h : SourceIconState) : M P SourceIconState :=
  match source with
  | None => ret P (setEmojiIcon None (setIconUrl None h))
  | Some source =>
      (cached <- getSourceIconSync P (workspaceId source)
                   (SourceConfig.slug (config source)) ;;
       if truthy_opt cached then
         let cached := default [] cached in
         if startsWith cached EMOJI_ICON_PREFIX
         then ret P (setIconUrl None
                       (setEmojiIcon
                          (Some (slice cached (List.length EMOJI_ICON_PREFIX))) h))
         else ret P (setEmojiIcon None (setIconUrl (Some cached) h))
       else
         try_catch P
           (result <- loadSourceIcon P
                        {| config := config source; workspaceId := workspaceId source |} ;;
            if cancelled then ret P h else
            match result with
            | Some r =>
                if startsWith r EMOJI_ICON_PREFIX
                then ret P (setIconUrl None
                              (setEmojiIcon
                                 (Some (slice r (List.length EMOJI_ICON_PREFIX))) h))
                else ret P (setEmojiIcon None (setIconUrl result h))
            | None => ret P (setEmojiIcon None (setIconUrl result h))
            end)
           (fun _ =>
              if cancelled then ret P h
              else ret P (setEmojiIcon None (setIconUrl None h))))
  end.

(** What the hook returns once the effect of the first render has settled
    (lines 149-220). *)
Definition useSourceIcon (source : option Source) (cancelled : bool)
    : M P SourceIconState :=
  iconUrl0 <- useSourceIcon_initialIconUrl source ;;
  emojiIcon0 <- useSourceIcon_initialEmojiIcon source ;;
  useSourceIcon_effect source cancelled {| iconUrl := iconUrl0; emojiIcon := emojiIcon0 |}.

(** Lines 230-240: the initial [logoUrl] of [useLogoUrl]. *)
Definition useLogoUrl_initial (serviceUrl provider : option jsstring)
    : M P (option jsstring) :=
  if truthy_opt serviceUrl then
    let cacheKey := default [] serviceUrl ++ lit ":" ++ default [] provider in
    cached <- logoUrlCache_get P cacheKey ;;
    match cached with
    | Some cached => ret P cached
    | None => ret P None
    end
  else ret P None.

(** Lines 242-275: the effect of [useLogoUrl], with [cancelled] as above.
    The result is the state of the hook. *)
Definition useLogoUrl_effect (serviceUrl provider : option jsstring)
    (cancelled : bool) (logoUrl : option jsstring) : M P (option jsstring) :=
  if negb (truthy_opt serviceUrl) then ret P None else
  let serviceUrl := default [] serviceUrl in
  let cacheKey := serviceUrl ++ lit ":" ++ default [] provider in
  cached <- logoUrlCache_get P cacheKey ;;
  match cached with
  | Some cached => ret P cached
  | None =>
      try_catch P
        (result <- getLogoUrl P serviceUrl provider ;;
         if cancelled then ret P logoUrl else
         (logoUrlCache_set P cacheKey result ;;;
          ret P result))
        (fun error =>
           if cancelled then ret P logoUrl else
           (console_error P (lit "[SourceAvatar] Failed to resolve logo URL:") error ;;;
            logoUrlCache_set P cacheKey None ;;;
            ret P None))
  end.

(** What [useLogoUrl] returns once the effect of the first render has
    settled (lines 226-278). *)
Definition useLogoUrl (serviceUrl provider : option jsstring) (cancelled : bool)
    : M P (option jsstring) :=
  logoUrl0 <- useLogoUrl_initial serviceUrl provider ;;
  useLogoUrl_effect serviceUrl provider cancelled logoUrl0.

(** Lines 280-330: [finalLogoUrl] and [emojiIcon] of the component once the
    effects of its first render have settled, the component still being
    mounted. The state initializers of the two hooks run in the render, in
    the order of the hooks; their effects run after it, in the same order. *)
Definition SourceAvatar_icon (props : SourceAvatarProps)
    : M P (option jsstring * option jsstring) :=
  let source :=
    match props with
    | LoadedSourceAvatarProps source => Some source
    | DirectSourceAvatarProps _ _ _ _ _ => None
    end in
  let explicitLogoUrl :=
    match props with
    | LoadedSourceAvatarProps _ => None
    | DirectSourceAvatarProps _ _ logoUrl _ _ => logoUrl
    end in
  let serviceUrl :=
    match props with
    | LoadedSourceAvatarProps _ => None
    | DirectSourceAvatarProps _ _ _ serviceUrl _ => serviceUrl
    end in
  let provider :=
    match props with
    | LoadedSourceAvatarProps _ => None
    | DirectSourceAvatarProps _ _ _ _ provider => provider
    end in
  let lookedUp :=
    if match source with Some _ => false | None => true end
       && negb (truthy_opt explicitLogoUrl)
    then serviceUrl else None in
  iconUrl0 <- useSourceIcon_initialIconUrl source ;;
  emojiIcon0 <- useSourceIcon_initialEmojiIcon source ;;
  logoUrl0 <- useLogoUrl_initial lookedUp provider ;;
  sourceIcon <- useSourceIcon_effect source false
                  {| iconUrl := iconUrl0; emojiIcon := emojiIcon0 |} ;;
  resolvedLogoUrl <- useLogoUrl_effect lookedUp provider false logoUrl0 ;;
  let finalLogoUrl :=
    match source with
    | Some _ => iconUrl sourceIcon
    | None => nullish explicitLogoUrl resolvedLogoUrl
    end in
  let emojiIcon :=
    match source with
    | Some _ => emojiIcon sourceIcon
    | None => None
    end in
  ret P (finalLogoUrl, emojiIcon).

End SourceAvatar.

(** What the hook shows for a result of [loadSourceIcon]: the emoji behind
    the marker, or the result as a URL. *)
Definition shownFor (result : option jsstring) : SourceIconState :=
  match result with
  | Some r =>
      if startsWith r EMOJI_ICON_PREFIX
      then {| iconUrl := None;
              emojiIcon := Some (slice r (List.length EMOJI_ICON_PREFIX)) |}
      else {| iconUrl := Some r; emojiIcon := None |}
  | None => {| iconUrl := None; emojiIcon := None |}
  end.

(** A state of the hook that a first render starts from when nothing is
    cached. *)
Definition noIcon : SourceIconState := {| iconUrl := None; emojiIcon := None |}.

(** A favicon service that knows the logo of Linear. *)
Definition linearUp : Disk :=
  {| files := [];
     favicons := [(lit "https://api.linear.app",
                   Normal (Some (lit "https://logo.example/linear.png")))] |}.

(** The key of the logo-URL store for a direct avatar (lines 233 and 248). *)
Definition avatarLogoKey (serviceUrl : jsstring) (provider : option jsstring)
    : jsstring :=
  serviceUrl ++ lit ":" ++ default [] provider.

(** The source [linear] in the workspace [ws], and the direct props of an
    avatar for the same service. *)
Definition linearSource : Source := inWorkspace "ws" linear.

Definition linearDirect (logoUrl : option jsstring) : SourceAvatarProps :=
  DirectSourceAvatarProps (lit "mcp") (lit "Linear") logoUrl
    (Some (lit "https://api.linear.app")) (Some (lit "linear")).

(** ** Model names (the module of model definitions)

    The helpers that turn a model identifier into a name for display. Line
    numbers are those of the file that holds the module. *)

Module ModelDefinition.
Record t : Type := {
  id : jsstring;
  name : jsstring;
  shortName : jsstring;
  description : jsstring
}.
End ModelDefinition.

(** Lines 1062-1066. *)
Definition MODELS : list ModelDefinition.t := [
  {| ModelDefinition.id := lit "claude-opus-4-5-20251101";
     ModelDefinition.name := lit "Opus 4.5";
     ModelDefinition.shortName := lit "Opus";
     ModelDefinition.description := lit "Most capable" |};
  {| ModelDefinition.id := lit "claude-sonnet-4-5-20250929";
     ModelDefinition.name := lit "Sonnet 4.5";
     ModelDefinition.shortName := lit "Sonnet";
     ModelDefinition.description := lit "Balanced" |};
  {| ModelDefinition.id := lit "claude-haiku-4-5-20251001";
     ModelDefinition.name := lit "Haiku 4.5";
     ModelDefinition.shortName := lit "Haiku";
     ModelDefinition.description := lit "Fast & efficient" |}
].

(** [MODELS.find(m => m.id === modelId)] *)
Definition findModel (modelId : jsstring) : option ModelDefinition.t :=
  List.find (fun m => string_eqb (ModelDefinition.id m) modelId) MODELS.

(** [s.replace(pat, '')] for a string [pat] that is not empty: the first
    occurrence of [pat] is taken out. *)
Fixpoint removeFirst (pat s : jsstring) {struct s} : jsstring :=
  if startsWith s pat then drop (List.length pat) s
  else
    match s with
    | [] => []
    | c :: r => c :: removeFirst pat r
    end.

(** [\d] *)
Definition isDigit (c : N) : bool := (48 <=? c) && (c <=? 57).

(** The pattern of line 1093, a hyphen and eight digits before the end of the
    subject, at the start of [s]. *)
Definition dateSuffixAt (s : jsstring) : bool :=
  match s with
  | c :: r => (c =? 45) && (List.length r =? 8)%nat && forallb isDigit r
  | [] => false
  end.

(** [s.replace] with that pattern and the empty string: the leftmost match
    reaches the end of [s] and is taken out. *)
Fixpoint stripDateSuffix (s : jsstring) : jsstring :=
  if dateSuffixAt s then []
  else
    match s with
    | [] => []
    | c :: r => c :: stripDateSuffix r
    end.

(** The class of digits, dot and hyphen of line 1105. *)
Definition isVersionChar (c : N) : bool := isDigit c || (c =? 46) || (c =? 45).

(** The pattern of line 1105, a hyphen and a non-empty run of the class
    before the end of the subject, at the start of [s]: the run has to be all
    that follows the hyphen. *)
Definition versionSuffixAt (s : jsstring) : bool :=
  match s with
  | c :: r => (c =? 45) && truthy r && forallb isVersionChar r
  | [] => false
  end.

Fixpoint stripVersionSuffix (s : jsstring) : jsstring :=
  if versionSuffixAt s then []
  else
    match s with
    | [] => []
    | c :: r => c :: stripVersionSuffix r
    end.

(** [s.split('/').pop()]: what follows the last slash, all of [s] without
    one. *)
Fixpoint lastSegment (s : jsstring) : jsstring :=
  match s with
  | [] => []
  | c :: r =>
      if hasSlash r then lastSegment r
      else if c =? SLASH then r
      else s
  end.

(** Lines 1089-1094. *)
Definition getModelDisplayName (modelId : jsstring) : jsstring :=
  match findModel modelId with
  | Some model => ModelDefinition.name model
  | None => stripDateSuffix (removeFirst (lit "claude-") modelId)
  end.

(** Lines 1097-1106. *)
Definition getModelShortName (modelId : jsstring) : jsstring :=
  match findModel modelId with
  | Some model => ModelDefinition.shortName model
  | None =>
      if hasSlash modelId then
        let last := lastSegment modelId in
        if truthy last then last else modelId
      else stripVersionSuffix (removeFirst (lit "claude-") modelId)
  end.

(** [s.includes(pat)] *)
Fixpoint includes (s pat : jsstring) {struct s} : bool :=
  startsWith s pat
  || match s with
     | [] => false
     | _ :: r => includes r pat
     end.

(** The stores of [st] in the world and after the calls of [st1]: a renderer
    that has seen what [st1] has seen and cached none of it. *)
Definition withStoresOf {P : Platform} (st st1 : State P) : State P :=
  Build_State P (iconCache st) (logoUrlCache st) (world st1) (events st1).

(** [config] under another name and with another provider. *)
Definition relabelled (c : SourceConfig.t) (name : jsstring)
    (provider : option jsstring) : SourceConfig.t :=
  {| SourceConfig.slug := SourceConfig.slug c;
     SourceConfig.name := name;
     SourceConfig.type := SourceConfig.type c;
     SourceConfig.icon := SourceConfig.icon c;
     SourceConfig.provider := provider;
     SourceConfig.mcp := SourceConfig.mcp c;
     SourceConfig.api := SourceConfig.api c |}.

(** A second source of the workspace [ws], without files and service URL. *)
Definition otherSource : Source := inWorkspace "ws" (plainSource "y" "local" None).

(** ** The emoji icon of the specification

    The specification takes an icon for an emoji when it is a single emoji
    grapheme cluster, multi-codepoint sequences joined by U+200D, skin-tone
    modifiers and flags included. The definitions below say so with the
    sequences of Unicode Technical Standard 51 (emoji presentation sequence,
    emoji modifier sequence, emoji flag sequence, emoji keycap sequence,
    emoji ZWJ sequence) over the tables of the engine, each read widely: any
    character with the Emoji property may take U+FE0F or a modifier, and any
    element may be joined. They do not come from the pattern of line 149,
    which knows neither flags nor modifiers nor keycaps. *)

(** Regional indicators, the letters of flags. *)
Definition isRegionalIndicator (c : N) : bool := (0x1F1E6 <=? c) && (c <=? 0x1F1FF).

(** The five skin-tone modifiers. *)
Definition isEmojiModifier (c : N) : bool := (0x1F3FB <=? c) && (c <=? 0x1F3FF).

(** The characters a keycap is built on: the digits, [#] and [*]. *)
Definition isKeycapBase (c : N) : bool :=
  ((48 <=? c) && (c <=? 57)) || (c =? 35) || (c =? 42).

Definition KEYCAP : N := 0x20E3.

(** One element of an emoji: a character with emoji presentation, a
    character with the Emoji property followed by U+FE0F or by a skin-tone
    modifier, a flag, or a keycap. *)
Inductive emojiElement (EP E : N -> bool) : list N -> Prop :=
| emoji_presented (c : N) :
    EP c = true -> emojiElement EP E [c]
| emoji_styled (c : N) :
    E c = true -> emojiElement EP E [c; VS16]
| emoji_modified (c m : N) :
    E c = true -> isEmojiModifier m = true -> emojiElement EP E [c; m]
| emoji_flag (a b : N) :
    isRegionalIndicator a = true -> isRegionalIndicator b = true ->
    emojiElement EP E [a; b]
| emoji_keycap (c : N) :
    isKeycapBase c = true -> emojiElement EP E [c; VS16; KEYCAP].

(** A single emoji: one element, or elements joined by U+200D. *)
Inductive emojiCluster (EP E : N -> bool) : list N -> Prop :=
| emoji_single (e : list N) :
    emojiElement EP E e -> emojiCluster EP E e
| emoji_joined (e rest : list N) :
    emojiElement EP E e -> emojiCluster EP E rest ->
    emojiCluster EP E (e ++ ZWJ :: rest).

(** The string is a single emoji. *)
Definition isSingleEmoji (EP E : N -> bool) (str : jsstring) : Prop :=
  emojiCluster EP E (toCodePoints str).

(** A source whose icon is the fire emoji followed by a letter. *)
Definition fireAndLetter : jsstring := fire ++ lit "x".

(** ** The icon files of a source

    The files [loadSourceIcon] asks for, in its order: the file of a local
    icon path (lines 190-193), then [icon.svg] and [icon.png] (lines 204 and
    210). *)
Definition iconPaths (source : Source) : list jsstring :=
  (if isLocalPath (SourceConfig.icon (config source))
   then [lit "sources/" ++ SourceConfig.slug (config source) ++ lit "/"
         ++ slice (default [] (SourceConfig.icon (config source))) 2]
   else [])
  ++ [iconSvgPath (config source); iconPngPath (config source)].

(** What [loadWorkspaceIcon] returns for each of the files, asked one after
    the other from world [w]. *)
Fixpoint fileAnswers (P : Platform) (workspaceId : jsstring) (paths : list jsstring)
    (w : World P) : list (option jsstring) :=
  match paths with
  | [] => []
  | relativePath :: rest =>
      let '(answer, w') := electronAPI_readWorkspaceImage P workspaceId relativePath w in
      loadedIcon P relativePath answer w' :: fileAnswers P workspaceId rest w'
  end.

(** The state after these reads. *)
Fixpoint afterReads (P : Platform) (workspaceId : jsstring) (paths : list jsstring)
    (st : State P) : State P :=
  match paths with
  | [] => st
  | relativePath :: rest =>
      let '(_, w') :=
        electronAPI_readWorkspaceImage P workspaceId relativePath (world st) in
      afterReads P workspaceId rest
        (call P (ReadWorkspaceImage workspaceId relativePath) w' st)
  end.

(** Lines 190-214 as one loop over the files: the first non-empty answer is
    cached and returned, and [otherwise] runs when there is none. *)
Fixpoint firstIcon (P : Platform) (key workspaceId : jsstring) (paths : list jsstring)
    (otherwise : M P (option jsstring)) (st : State P)
    : Completion (option jsstring) * State P :=
  match paths with
  | [] => otherwise st
  | relativePath :: rest =>
      let '(answer, w') :=
        electronAPI_readWorkspaceImage P workspaceId relativePath (world st) in
      let st1 := call P (ReadWorkspaceImage workspaceId relativePath) w' st in
      let loaded := loadedIcon P relativePath answer w' in
      if truthy_opt loaded
      then (Normal loaded, with_iconCache P (insert key (default [] loaded)) st1)
      else firstIcon P key workspaceId rest otherwise st1
  end.

(** ** An SVG document whose root tag carries a fill attribute

    The document by its parts, as its author wrote it: what stands before
    the root tag, the tag name, what the tag holds before its fill
    attribute, the blank before the attribute, the attribute name [fill],
    the blanks before [=], and from the value of the attribute on: the
    value, the rest of the tag with its closing [>], and the rest of the
    document. *)
Record SvgWithFill : Type := {
  beforeRoot : jsstring;
  attrsBeforeFill : jsstring;
  blank : N;
  blanksBeforeEq : jsstring;
  fromValue : jsstring
}.

Definition svgText (d : SvgWithFill) : jsstring :=
  beforeRoot d ++ lit "<svg" ++ attrsBeforeFill d
  ++ blank d :: lit "fill" ++ blanksBeforeEq d ++ 61 :: fromValue d.

(** White space of XML: space, tab, line feed and carriage return. *)
Definition isXmlSpace (c : N) : bool :=
  (c =? 32) || (c =? 9) || (c =? 10) || (c =? 13).

(** The parts are what their names say: no [<svg] stands before the root
    tag, the blanks are white space, and the tag is closed. The tag holds
    no [>] before its fill attribute, so inside the value of an earlier
    attribute. *)
Definition isSvgWithFill (d : SvgWithFill) : bool :=
  negb (occurs_ci (lit "<svg") (beforeRoot d))
  && negb (hasGT (attrsBeforeFill d))
  && isXmlSpace (blank d)
  && forallb isXmlSpace (blanksBeforeEq d)
  && hasGT (fromValue d).

(** A color that holds no [>] and no [$]. *)
Definition isPlainColor (color : jsstring) : bool :=
  negb (hasGT color) && forallb (fun c => negb (c =? 36)) color.

(** The document with every currentColor of its parts replaced by
    [color]. *)
Definition withColor (color : jsstring) (d : SvgWithFill) : SvgWithFill :=
  {| beforeRoot := replaceCurrentColor color (beforeRoot d);
     attrsBeforeFill := replaceCurrentColor color (attrsBeforeFill d);
     blank := blank d;
     blanksBeforeEq := blanksBeforeEq d;
     fromValue := replaceCurrentColor color (fromValue d) |}.

(** [<svg stroke="currentColor" fill="none"></svg>] by its parts. *)
Definition strokeThenFill : SvgWithFill :=
  {| beforeRoot := [];
     attrsBeforeFill := lit " stroke=" ++ dquote ++ lit "currentColor" ++ dquote;
     blank := 32;
     blanksBeforeEq := [];
     fromValue := dquote ++ lit "none" ++ dquote ++ lit "></svg>" |}.

(** [<svg fill="none"><path stroke="currentColor"/></svg>] by its parts. *)
Definition fillThenChild : SvgWithFill :=
  {| beforeRoot := [];
     attrsBeforeFill := [];
     blank := 32;
     blanksBeforeEq := [];
     fromValue := dquote ++ lit "none" ++ dquote ++ lit "><path stroke=" ++ dquote
                  ++ lit "currentColor" ++ dquote ++ lit "/></svg>" |}.

(** [<svg data-x=">" fill="none"></svg>]: the value of an attribute before
    [fill] holds a [>]. *)
Definition svg_quoted_gt : jsstring :=
  lit "<svg data-x=" ++ dquote ++ lit ">" ++ dquote ++ lit " fill=" ++ dquote
  ++ lit "none" ++ dquote ++ lit "></svg>".

(** * Properties *)

(** ** Emoji detection and base64 on samples *)

Example isEmoji_fire : isEmoji_14 fire = true.
Proof. reflexivity. Qed.
Example isEmoji_red_heart : isEmoji_14 red_heart = true.
Proof. reflexivity. Qed.
Example isEmoji_family : isEmoji_14 family_mwg = true.
Proof. reflexivity. Qed.
Example isEmoji_letters : isEmoji_14 (lit "abc") = false.
Proof. reflexivity. Qed.
Example isEmoji_flag : isEmoji_14 flag_US = false.
Proof. reflexivity. Qed.
Example isEmoji_skin_tone : isEmoji_14 thumbs_up_medium = false.
Proof. reflexivity. Qed.
Example isEmoji_keycap : isEmoji_14 keycap_1 = false.
Proof. reflexivity. Qed.

Example btoa_Man : btoa_base64 (lit "Man") = Normal (lit "TWFu").
Proof. reflexivity. Qed.
Example btoa_Ma : btoa_base64 (lit "Ma") = Normal (lit "TWE=").
Proof. reflexivity. Qed.
Example btoa_M : btoa_base64 (lit "M") = Normal (lit "TQ==").
Proof. reflexivity. Qed.

(** ** The stores and the clear operations *)

Lemma foldl_delete_lookup (prefix : jsstring) (l : list jsstring)
    (m : gmap jsstring jsstring) (k : jsstring) :
  foldl (fun acc key => if startsWith key prefix then delete key acc else acc) m l !! k
  = if startsWith k prefix && bool_decide (k ∈ l) then None else m !! k.
Proof.
  revert m. induction l as [|a l IH]; intros m; simpl.
  - by rewrite andb_false_r.
  - rewrite IH. destruct (decide (k = a)) as [->|Hne].
    + rewrite (bool_decide_eq_true_2 (a ∈ a :: l)); [|by left].
      destruct (startsWith a prefix) eqn:Ha; simpl.
      * destruct (bool_decide (a ∈ l)); [done|]. by rewrite lookup_delete_eq.
      * done.
    + assert (bool_decide (k ∈ a :: l) = bool_decide (k ∈ l)) as ->.
      { apply bool_decide_ext. rewrite elem_of_cons. tauto. }
      destruct (startsWith k prefix && bool_decide (k ∈ l)); [done|].
      destruct (startsWith a prefix); [|done]. by rewrite lookup_delete_ne.
Qed.

(** The loop deletes exactly the entries whose key starts with the prefix. *)
Lemma deleteByPrefix_lookup (prefix : jsstring) (m : gmap jsstring jsstring)
    (k : jsstring) :
  deleteByPrefix prefix m !! k = if startsWith k prefix then None else m !! k.
Proof.
  unfold deleteByPrefix. rewrite foldl_delete_lookup.
  destruct (startsWith k prefix); [simpl|done].
  case_bool_decide as Hin; [done|].
  destruct (m !! k) as [v|] eqn:Hk; [|done].
  exfalso. apply Hin. apply list_elem_of_fmap. exists (k, v).
  split; [done|]. by apply elem_of_map_to_list.
Qed.

Lemma startsWith_app (p s : jsstring) : startsWith (p ++ s) p = true.
Proof.
  induction p as [|c p IH]; [done|]. simpl. unfold code_unit_eqb.
  rewrite N.eqb_refl. exact IH.
Qed.

Lemma startsWith_spec (s p : jsstring) :
  startsWith s p = true <-> exists r, s = p ++ r.
Proof.
  revert s. induction p as [|c p IH]; intros s; simpl.
  - split; [eauto|done].
  - destruct s as [|d s]; [split; [done|by intros [r Hr]]|].
    unfold code_unit_eqb. rewrite andb_true_iff, N.eqb_eq, IH. split.
    + intros [-> [r ->]]. by exists r.
    + intros [r Hr]. simplify_eq. eauto.
Qed.

(** Two prefixes that differ within their common length have no key in
    common. *)
Lemma startsWith_disjoint (k p r1 r2 : jsstring) (c d : N) :
  c <> d ->
  startsWith k (p ++ c :: r1) = true -> startsWith k (p ++ d :: r2) = false.
Proof.
  intros Hcd H1. apply not_true_is_false. intros H2.
  apply startsWith_spec in H1 as [t1 ->]. apply startsWith_spec in H2 as [t2 H2].
  rewrite <- !app_assoc in H2. apply app_inv_head in H2.
  simpl in H2. by injection H2.
Qed.

Lemma source_key_not_skill (k : jsstring) :
  startsWith k (lit "source:") = true -> startsWith k (lit "skill:") = false.
Proof.
  intros H.
  exact (startsWith_disjoint k (lit "s") (lit "urce:") (lit "ill:") 111 107
           ltac:(done) H).
Qed.

Section ClearOperations.
Variable P : Platform.

(** C5, as the code has it: entries under the [source:] prefix are unchanged
    by [clearSkillIconCaches]; [clearIconCaches] empties both stores whatever
    they hold, and no other clear operation does: [clearSourceIconCaches]
    empties the logo-URL store too but keeps every icon entry whose key does
    not start with [source:], and [clearSkillIconCaches] and
    [clearStatusIconCaches] leave the logo-URL store as it is. *)
Theorem clear_operations_scope :
  (forall (st : State P) (key : jsstring),
      startsWith key (lit "source:") = true ->
      iconCache (clearSkillIconCaches P st).2 !! key = iconCache st !! key)
  /\ (forall st : State P,
        iconCache (clearIconCaches P st).2 = ∅
        /\ logoUrlCache (clearIconCaches P st).2 = ∅)
  /\ (forall st : State P,
        logoUrlCache (clearSourceIconCaches P st).2 = ∅
        /\ forall key : jsstring,
            startsWith key (lit "source:") = false ->
            iconCache (clearSourceIconCaches P st).2 !! key = iconCache st !! key)
  /\ (forall st : State P,
        logoUrlCache (clearSkillIconCaches P st).2 = logoUrlCache st)
  /\ (forall st : State P,
        logoUrlCache (clearStatusIconCaches P st).2 = logoUrlCache st).
Proof.
  repeat split; try reflexivity.
  - intros st key Hkey. simpl. rewrite deleteByPrefix_lookup.
    by rewrite (source_key_not_skill key Hkey).
  - intros key Hkey. simpl. rewrite deleteByPrefix_lookup. by rewrite Hkey.
Qed.

End ClearOperations.

Lemma clear_operations_scope_witness :
  iconCache (clearSkillIconCaches diskPlatform populatedState).2
    !! lit "source:ws:linear"
  = Some (lit "https://logo.example/linear.png")
  /\ iconCache (clearSourceIconCaches diskPlatform populatedState).2
       !! lit "skill:ws:commit"
     = Some (lit "data:image/png;base64,AA==").
Proof.
  destruct (clear_operations_scope diskPlatform) as (Hsource & _ & Hkeeps & _).
  split.
  - rewrite (Hsource populatedState (lit "source:ws:linear")); reflexivity.
  - destruct (Hkeeps populatedState) as [_ Hother].
    rewrite (Hother (lit "skill:ws:commit")); reflexivity.
Defined.

(** C5 as stated fails: [clearSourceIconCaches] is a second clear operation
    that removes entries from both stores. *)
Lemma clearSourceIconCaches_removes_from_both :
  iconCache populatedState !! lit "source:ws:linear"
    = Some (lit "https://logo.example/linear.png")
  /\ logoUrlCache populatedState !! lit "https://api.linear.app:linear" = Some None
  /\ iconCache (clearSourceIconCaches diskPlatform populatedState).2
       !! lit "source:ws:linear" = None
  /\ logoUrlCache (clearSourceIconCaches diskPlatform populatedState).2
       !! lit "https://api.linear.app:linear" = None.
Proof. vm_compute. repeat split; reflexivity. Qed.

(** ** SVG theming *)

(** C3, as the code has it: theming [<svg><path fill="currentColor"/></svg>]
    with [#ff0000] substitutes the occurrence of currentColor and, the root
    tag having no fill attribute of its own, injects one into it:
    [<svg fill="#ff0000"><path fill="#ff0000"/></svg>]. *)
Theorem themeSvgContent_currentColor_child (P : Platform) (st : State P) :
  themeSvgContent P svg_currentColor_child (Some red) st
  = (Normal svg_red_child_and_root, st).
Proof. reflexivity. Qed.

(** C3 as stated fails: the result is not the input with only the child
    rewritten. *)
Lemma themeSvgContent_currentColor_child_root_injected :
  (themeSvgContent diskPlatform svg_currentColor_child (Some red)
     (freshState emptyDisk)).1
  = Normal svg_red_child_and_root
  /\ (themeSvgContent diskPlatform svg_currentColor_child (Some red)
        (freshState emptyDisk)).1
     <> Normal svg_red_child_only.
Proof. split; [reflexivity|]. vm_compute. discriminate. Qed.

(** ** The root tag *)

Lemma span_app (f : N -> bool) (s a b : jsstring) :
  span f s = (a, b) -> s = a ++ b.
Proof.
  revert a b. induction s as [|c s IH]; intros a b; cbn.
  - by intros [= <- <-].
  - destruct (f c); [|by intros [= <- <-]].
    destruct (span f s) as [a' b'] eqn:Hs. intros [= <- <-].
    cbn. f_equal. by apply IH.
Qed.

Lemma startsWith_ci_length (s p : jsstring) :
  startsWith_ci s p = true -> (List.length p <= List.length s)%nat.
Proof.
  revert s. induction p as [|c p IH]; intros s; cbn; [lia|].
  destruct s as [|d s]; [done|]. intros [_ H]%andb_true_iff.
  apply IH in H. cbn. lia.
Qed.

Lemma svgTagAt_split (s attrs rest : jsstring) :
  svgTagAt s = Some (attrs, rest) ->
  take (4 + List.length attrs + 1) s ++ rest = s.
Proof.
  unfold svgTagAt. destruct (startsWith_ci s (lit "<svg")) eqn:Hsvg; [|done].
  destruct (span _ (drop 4 s)) as [a b] eqn:Hspan. destruct b as [|gt b]; [done|].
  intros [= <- <-]. apply span_app in Hspan.
  apply startsWith_ci_length in Hsvg. change (List.length (lit "<svg")) with 4%nat in Hsvg.
  assert (s = (take 4 s ++ a ++ [gt]) ++ b) as Hs.
  { rewrite <- (take_drop 4 s) at 1. rewrite Hspan, <- !app_assoc. done. }
  rewrite Hs at 1. rewrite take_app_length'; [by rewrite <- Hs|].
  rewrite !length_app, length_take. cbn [List.length]. lia.
Qed.

Lemma rootAttrs_unfold (s : jsstring) :
  rootAttrs s
  = match svgTagAt s with
    | Some (attrs, _) => Some attrs
    | None => match s with [] => None | _ :: r => rootAttrs r end
    end.
Proof. by destruct s. Qed.

Lemma replaceSvgTag_unfold (replacer : jsstring -> jsstring -> jsstring) (s : jsstring) :
  replaceSvgTag replacer s
  = match svgTagAt s with
    | Some (attrs, rest) =>
        replacer (take (4 + List.length attrs + 1) s) attrs ++ rest
    | None => match s with [] => [] | c :: r => c :: replaceSvgTag replacer r end
    end.
Proof. by destruct s. Qed.

(** With a fill attribute on the root tag the replacer returns the match,
    and the second [replace] changes nothing. *)
Lemma replaceSvgTag_root_has_fill (color s attrs : jsstring) :
  rootAttrs s = Some attrs ->
  hasFillAttr attrs = true ->
  replaceSvgTag (rootFillReplacer color) s = s.
Proof.
  intros Hroot Hfill. induction s as [|c s IH];
    rewrite rootAttrs_unfold in Hroot; rewrite replaceSvgTag_unfold;
    destruct (svgTagAt _) as [[a rest]|] eqn:Htag; try done.
  - simplify_eq. unfold rootFillReplacer. rewrite Hfill. by apply svgTagAt_split.
  - f_equal. by apply IH.
Qed.

Lemma replaceAll_ci_no_occurrence (pat template before s : jsstring) :
  occurs_ci pat s = false ->
  replaceAll_ci pat template before O s = s.
Proof.
  revert before. induction s as [|c s IH]; intros before; [done|].
  cbn [occurs_ci replaceAll_ci]. intros [H1 H2]%orb_false_iff.
  rewrite H1. f_equal. by apply IH.
Qed.

(** ** The root tag of the input *)

Lemma startsWith_ci_app (s x p : jsstring) :
  startsWith_ci s p = true -> startsWith_ci (s ++ x) p = true.
Proof.
  revert s. induction p as [|d p IH]; intros s; [done|].
  destruct s as [|c s]; [done|]. cbn.
  intros [-> H]%andb_true_iff. by apply IH.
Qed.

Lemma startsWith_ci_app_long (s x p : jsstring) :
  (List.length p <= List.length s)%nat ->
  startsWith_ci (s ++ x) p = startsWith_ci s p.
Proof.
  revert s. induction p as [|d p IH]; intros s; [done|].
  destruct s as [|c s]; cbn; [lia|]. intros Hlen.
  rewrite IH; [done|lia].
Qed.

(** The run of characters other than [>] stops at the first [>]. *)
Lemma span_notGT (s a b : jsstring) :
  span (fun c => negb (c =? GT)) s = (a, b) ->
  s = a ++ b /\ hasGT a = false /\ (b = [] \/ exists r, b = GT :: r).
Proof.
  revert a b. induction s as [|c s IH]; intros a b; cbn.
  - intros [= <- <-]. eauto.
  - destruct (c =? GT) eqn:Hc; cbn.
    + intros [= <- <-]. apply N.eqb_eq in Hc as ->. eauto.
    + destruct (span _ s) as [a' b'] eqn:Hs. intros [= <- <-].
      destruct (IH _ _ eq_refl) as (-> & Ha & Hb). cbn. by rewrite Hc.
Qed.

Lemma span_notGT_found (a r x : jsstring) :
  hasGT a = false ->
  span (fun c => negb (c =? GT)) (a ++ GT :: r) = (a, GT :: r).
Proof.
  induction a as [|c a IH]; cbn; [done|].
  intros [Hc Ha]%orb_false_iff. rewrite Hc. cbn. by rewrite (IH Ha).
Qed.

Lemma svgTagAt_Some (s attrs rest : jsstring) :
  svgTagAt s = Some (attrs, rest) <->
  startsWith_ci s (lit "<svg") = true
  /\ drop 4 s = attrs ++ GT :: rest /\ hasGT attrs = false.
Proof.
  unfold svgTagAt. split.
  - destruct (startsWith_ci s (lit "<svg")); [|done].
    destruct (span _ (drop 4 s)) as [a b] eqn:Hspan.
    apply span_notGT in Hspan as (Hs & Ha & [->|[r ->]]); [done|].
    by intros [= <- <-].
  - intros (-> & -> & Ha). by rewrite (span_notGT_found _ _ [] Ha).
Qed.

Lemma svgTagAt_None (s : jsstring) :
  svgTagAt s = None ->
  startsWith_ci s (lit "<svg") = false \/ hasGT (drop 4 s) = false.
Proof.
  unfold svgTagAt. destruct (startsWith_ci s (lit "<svg")); [|by left].
  destruct (span _ (drop 4 s)) as [a b] eqn:Hspan.
  apply span_notGT in Hspan as (Hs & Ha & [->|[r ->]]); [|done].
  intros _. right. by rewrite Hs, app_nil_r.
Qed.

Lemma svgTagAt_app (s attrs rest x : jsstring) :
  svgTagAt s = Some (attrs, rest) -> svgTagAt (s ++ x) = Some (attrs, rest ++ x).
Proof.
  rewrite !svgTagAt_Some. intros (Hsvg & Hdrop & Ha).
  split; [by apply startsWith_ci_app|]. split; [|done].
  apply startsWith_ci_length in Hsvg.
  change (List.length (lit "<svg")) with 4%nat in Hsvg.
  rewrite drop_app_le by exact Hsvg. rewrite Hdrop, <- app_assoc. done.
Qed.

Lemma hasGT_drop (n : nat) (s : jsstring) :
  hasGT (drop n s) = true -> hasGT s = true.
Proof.
  intros H. rewrite <- (take_drop n s). unfold hasGT in *.
  by rewrite existsb_app, H, orb_true_r.
Qed.

(** A root tag is closed: there is a [>] past its first four characters. *)
Lemma rootAttrs_closed (s attrs : jsstring) :
  rootAttrs s = Some attrs -> hasGT (drop 4 s) = true.
Proof.
  induction s as [|c s IH]; rewrite rootAttrs_unfold;
    destruct (svgTagAt _) as [[a r]|] eqn:Htag; try done.
  - apply svgTagAt_Some in Htag as (_ & Hdrop & _). intros _.
    rewrite Hdrop. unfold hasGT. rewrite existsb_app. cbn. by rewrite orb_true_r.
  - intros Hroot%IH. change (drop 4 (c :: s)) with (drop 3 s).
    apply (hasGT_drop 1). by rewrite drop_drop.
Qed.

(** The root tag found in a prefix of the content is the root tag of the
    content. *)
Lemma rootAttrs_app (head x attrs : jsstring) :
  rootAttrs head = Some attrs -> rootAttrs (head ++ x) = Some attrs.
Proof.
  induction head as [|c h IH]; intros Hroot.
  - rewrite rootAttrs_unfold in Hroot.
    by destruct (svgTagAt []) as [[a r]|] eqn:Htag.
  - pose proof (rootAttrs_closed _ _ Hroot) as Hclosed.
    rewrite rootAttrs_unfold in Hroot. rewrite rootAttrs_unfold.
    destruct (svgTagAt (c :: h)) as [[a r]|] eqn:Htag.
    + by rewrite (svgTagAt_app _ _ _ x Htag).
    + assert (svgTagAt ((c :: h) ++ x) = None) as ->; [|by apply IH].
      apply svgTagAt_None in Htag as [Hsvg|Hno]; [|congruence].
      assert (4 <= List.length (c :: h))%nat as Hlen.
      { destruct (c :: h) as [|c1 [|c2 [|c3 [|c4 t]]]]; cbn in *; try done; lia. }
      unfold svgTagAt.
      by rewrite (startsWith_ci_app_long (c :: h) x (lit "<svg") Hlen), Hsvg.
Qed.

(** No occurrence of the pattern reaches across a [>] that the pattern does
    not contain. *)
Lemma startsWith_ci_across_GT (pat x rest : jsstring) :
  forallb (fun d => negb (ci_eqb GT d)) pat = true ->
  startsWith_ci ((x ++ [GT]) ++ rest) pat = true ->
  startsWith_ci (x ++ [GT]) pat = true.
Proof.
  revert x. induction pat as [|d pat IH]; intros x; [done|].
  cbn [forallb]. intros [Hd Hpat]%andb_true_iff.
  destruct x as [|c x]; cbn [app startsWith_ci].
  - apply negb_true_iff in Hd. by rewrite Hd.
  - intros [-> H]%andb_true_iff. by apply IH.
Qed.

Lemma replaceAll_ci_head (pat template h0 before rest : jsstring) :
  forallb (fun d => negb (ci_eqb GT d)) pat = true ->
  occurs_ci pat (h0 ++ [GT]) = false ->
  replaceAll_ci pat template before O ((h0 ++ [GT]) ++ rest)
  = (h0 ++ [GT]) ++ replaceAll_ci pat template (before ++ h0 ++ [GT]) O rest.
Proof.
  intros Hpat. revert before. induction h0 as [|c h IH]; intros before.
  - cbn [app occurs_ci replaceAll_ci]. intros [H1 _]%orb_false_iff.
    assert (startsWith_ci (GT :: rest) pat = false) as ->; [|done].
    apply not_true_is_false. intros H.
    apply (startsWith_ci_across_GT pat [] rest Hpat) in H. cbn in H. congruence.
  - cbn [app occurs_ci replaceAll_ci]. intros [H1 H2]%orb_false_iff.
    assert (startsWith_ci (c :: (h ++ [GT]) ++ rest) pat = false) as ->.
    { apply not_true_is_false. intros H.
      apply (startsWith_ci_across_GT pat (c :: h) rest Hpat) in H.
      cbn [app] in H. congruence. }
    rewrite (IH _ H2). by rewrite <- !app_assoc.
Qed.

(** ** Running the loaders *)

Section Loaders.
Variable P : Platform.

Lemma getForegroundColor_run (st : State P) :
  getForegroundColor P st = (Normal (foregroundColorIn P (world st)), st).
Proof.
  unfold getForegroundColor, foregroundColorIn.
  by destruct (document_foreground P (world st)).
Qed.

Lemma svgToThemedDataUrl_run (svgContent : jsstring) (st : State P) :
  svgToThemedDataUrl P svgContent None st
  = match btoa P (themeSvgContent_with (foregroundColorIn P (world st)) svgContent) with
    | Normal encoded => (Normal (lit "data:image/svg+xml;base64," ++ encoded), st)
    | Throw e => (Throw e, st)
    end.
Proof.
  unfold svgToThemedDataUrl, themeSvgContent, lift, ret.
  unfold bind. rewrite getForegroundColor_run.
  by destruct (btoa P _).
Qed.

Lemma loadWorkspaceIcon_run (workspaceId relativePath : jsstring) (st : State P) :
  loadWorkspaceIcon P workspaceId relativePath st
  = let '(answer, w) :=
      electronAPI_readWorkspaceImage P workspaceId relativePath (world st) in
    (Normal (loadedIcon P relativePath answer w),
     call P (ReadWorkspaceImage workspaceId relativePath) w st).
Proof.
  unfold loadWorkspaceIcon, readWorkspaceImage, loadedIcon, try_catch.
  unfold bind at 1.
  destruct (electronAPI_readWorkspaceImage P workspaceId relativePath (world st))
    as [[result|e] w]; [|reflexivity].
  destruct (endsWith relativePath (lit ".svg")); [|reflexivity].
  unfold bind. rewrite svgToThemedDataUrl_run. cbn [world call].
  by destruct (btoa P _).
Qed.

Lemma deriveServiceUrl_truthy (config : SourceConfig.t) (u : jsstring) :
  deriveServiceUrl config = Some u -> truthy u = true.
Proof.
  unfold deriveServiceUrl. intros H.
  repeat match type of H with
         | (if ?b then _ else _) = _ => destruct b eqn:?
         end; try discriminate;
    match goal with
    | Hb : _ && truthy_opt ?o = true |- _ =>
        apply andb_true_iff in Hb as [_ Hb]; rewrite H in Hb; exact Hb
    end.
Qed.

Lemma ifTruthy_cache_run (cacheKey : jsstring) (value : option jsstring)
    (no : M P (option jsstring)) (st : State P) :
  ifTruthy P value
    (fun v => bind P (sourceIconCache_set P cacheKey v) (fun _ => ret P (Some v))) no st
  = if truthy_opt value
    then (Normal value,
          with_iconCache P (insert (lit "source:" ++ cacheKey) (default [] value)) st)
    else no st.
Proof.
  unfold ifTruthy. destruct value as [v|]; [|reflexivity].
  cbn [truthy_opt]. by destruct (truthy v).
Qed.

Lemma cacheIfTruthy_run (cacheKey : jsstring) (value : option jsstring) (st : State P) :
  cacheIfTruthy P cacheKey value st
  = (Normal tt,
     if truthy_opt value
     then with_iconCache P (insert (lit "source:" ++ cacheKey) (default [] value)) st
     else st).
Proof.
  unfold cacheIfTruthy. destruct value as [v|]; [|reflexivity].
  simpl. destruct (truthy v); reflexivity.
Qed.

(** Priority 5 without a service URL. *)
Lemma faviconFallback_no_url (config : SourceConfig.t) (cacheKey : jsstring)
    (st : State P) :
  deriveServiceUrl config = None ->
  faviconFallback P config cacheKey st = (Normal None, st).
Proof. unfold faviconFallback. by intros ->. Qed.

(** Priority 5 when the logo-URL store has an entry for the key. *)
Lemma faviconFallback_stored (config : SourceConfig.t) (cacheKey u : jsstring)
    (stored : option jsstring) (st : State P) :
  deriveServiceUrl config = Some u ->
  logoUrlCache st !! logoCacheKey u config = Some stored ->
  faviconFallback P config cacheKey st
  = (Normal stored,
     if truthy_opt stored
     then with_iconCache P (insert (lit "source:" ++ cacheKey) (default [] stored)) st
     else st).
Proof.
  intros Hu Hstored. unfold faviconFallback. rewrite Hu.
  rewrite (deriveServiceUrl_truthy _ _ Hu). cbn [negb].
  unfold bind at 1. unfold logoUrlCache_get.
  fold (logoCacheKey u config). rewrite Hstored.
  unfold bind. rewrite cacheIfTruthy_run. reflexivity.
Qed.

(** Priority 5 on a miss of the logo-URL store: the collaborator is asked
    once and its answer, or [null] for a failure, is stored. *)
Lemma faviconFallback_miss (config : SourceConfig.t) (cacheKey u : jsstring)
    (st : State P) :
  deriveServiceUrl config = Some u ->
  logoUrlCache st !! logoCacheKey u config = None ->
  faviconFallback P config cacheKey st
  = match electronAPI_getLogoUrl P u (logoProvider config) (world st) with
    | (Normal logoUrl, w) =>
        let st1 := with_logoUrlCache P (insert (logoCacheKey u config) logoUrl)
                     (call P (GetLogoUrl u (logoProvider config)) w st) in
        (Normal logoUrl,
         if truthy_opt logoUrl
         then with_iconCache P (insert (lit "source:" ++ cacheKey) (default [] logoUrl)) st1
         else st1)
    | (Throw error, w) =>
        (Normal None,
         with_logoUrlCache P (insert (logoCacheKey u config) None)
           (call P (ConsoleError (lit "[IconCache] Failed to resolve logo URL:") error)
              w (call P (GetLogoUrl u (logoProvider config)) w st)))
    end.
Proof.
  intros Hu Hmiss. unfold faviconFallback. rewrite Hu.
  rewrite (deriveServiceUrl_truthy _ _ Hu). cbn [negb].
  unfold bind at 1. unfold logoUrlCache_get.
  fold (logoCacheKey u config). fold (logoProvider config). rewrite Hmiss.
  unfold try_catch, bind, getLogoUrl.
  destruct (electronAPI_getLogoUrl P u (logoProvider config) (world st))
    as [[logoUrl|error] w]; [|reflexivity].
  unfold logoUrlCache_set. rewrite cacheIfTruthy_run. reflexivity.
Qed.

End Loaders.

Section SourceIcons.
Variable P : Platform.

Lemma autoDiscover_run (config : SourceConfig.t) (workspaceId cacheKey : jsstring)
    (st : State P) :
  autoDiscover P config workspaceId cacheKey st
  = let '(a1, w1) :=
      electronAPI_readWorkspaceImage P workspaceId (iconSvgPath config) (world st) in
    let st1 := call P (ReadWorkspaceImage workspaceId (iconSvgPath config)) w1 st in
    let r1 := loadedIcon P (iconSvgPath config) a1 w1 in
    if truthy_opt r1
    then (Normal r1,
          with_iconCache P (insert (lit "source:" ++ cacheKey) (default [] r1)) st1)
    else
      let '(a2, w2) :=
        electronAPI_readWorkspaceImage P workspaceId (iconPngPath config) w1 in
      let st2 := call P (ReadWorkspaceImage workspaceId (iconPngPath config)) w2 st1 in
      let r2 := loadedIcon P (iconPngPath config) a2 w2 in
      if truthy_opt r2
      then (Normal r2,
            with_iconCache P (insert (lit "source:" ++ cacheKey) (default [] r2)) st2)
      else faviconFallback P config cacheKey st2.
Proof.
  unfold autoDiscover. fold (iconSvgPath config). fold (iconPngPath config).
  unfold bind at 1. rewrite loadWorkspaceIcon_run.
  destruct (electronAPI_readWorkspaceImage P workspaceId (iconSvgPath config) (world st))
    as [a1 w1]. cbn zeta.
  rewrite ifTruthy_cache_run.
  destruct (truthy_opt (loadedIcon P (iconSvgPath config) a1 w1)); [reflexivity|].
  unfold bind at 1. rewrite loadWorkspaceIcon_run. cbn [world call].
  destruct (electronAPI_readWorkspaceImage P workspaceId (iconPngPath config) w1)
    as [a2 w2]. cbn zeta.
  by rewrite ifTruthy_cache_run.
Qed.

(** What a call of [faviconFallback] can do: it completes normally, a
    non-empty result ends up in the icon store, the icon store is untouched
    otherwise, and the world and the events change only by a favicon lookup
    that happens when the logo-URL store has no entry. *)
Lemma faviconFallback_completes (config : SourceConfig.t) (cacheKey : jsstring)
    (st : State P) :
  exists r st', faviconFallback P config cacheKey st = (Normal r, st').
Proof.
  destruct (deriveServiceUrl config) as [u|] eqn:Hu.
  - destruct (logoUrlCache st !! logoCacheKey u config) as [stored|] eqn:Hs.
    + rewrite (faviconFallback_stored P _ _ _ _ _ Hu Hs). eauto.
    + rewrite (faviconFallback_miss P _ _ _ _ Hu Hs).
      destruct (electronAPI_getLogoUrl P u (logoProvider config) (world st))
        as [[logoUrl|error] w]; eauto.
  - rewrite (faviconFallback_no_url P _ _ _ Hu). eauto.
Qed.

Lemma autoDiscover_completes (config : SourceConfig.t) (workspaceId cacheKey : jsstring)
    (st : State P) :
  exists r st', autoDiscover P config workspaceId cacheKey st = (Normal r, st').
Proof.
  rewrite autoDiscover_run.
  destruct (electronAPI_readWorkspaceImage P workspaceId (iconSvgPath config) (world st))
    as [a1 w1]. cbn zeta.
  destruct (truthy_opt _); [eauto|].
  destruct (electronAPI_readWorkspaceImage P workspaceId (iconPngPath config) w1)
    as [a2 w2]. cbn zeta.
  destruct (truthy_opt _); [eauto|].
  apply faviconFallback_completes.
Qed.

(** [loadSourceIcon] by cases, in the order of the source. *)
Lemma loadSourceIcon_run (source : Source) (st : State P) :
  loadSourceIcon P source st
  = let cacheKey := workspaceId source ++ lit ":" ++ SourceConfig.slug (config source) in
    let icon := SourceConfig.icon (config source) in
    if truthy_opt (iconCache st !! sourceKey source)
    then (Normal (iconCache st !! sourceKey source), st)
    else if isEmojiIcon P icon
    then (Normal (Some (EMOJI_ICON_PREFIX ++ default [] icon)),
          with_iconCache P
            (insert (sourceKey source) (EMOJI_ICON_PREFIX ++ default [] icon)) st)
    else if isLocalPath icon
    then
      let relativePath :=
        lit "sources/" ++ SourceConfig.slug (config source) ++ lit "/"
        ++ slice (default [] icon) 2 in
      let '(a, w) :=
        electronAPI_readWorkspaceImage P (workspaceId source) relativePath (world st) in
      let st1 := call P (ReadWorkspaceImage (workspaceId source) relativePath) w st in
      let loaded := loadedIcon P relativePath a w in
      if truthy_opt loaded
      then (Normal loaded,
            with_iconCache P (insert (sourceKey source) (default [] loaded)) st1)
      else autoDiscover P (config source) (workspaceId source) cacheKey st1
    else autoDiscover P (config source) (workspaceId source) cacheKey st.
Proof.
  unfold loadSourceIcon, sourceKey. cbn zeta.
  unfold bind at 1. unfold sourceIconCache_get, iconCache_get.
  destruct (truthy_opt (iconCache st !! _)); [reflexivity|].
  destruct (isEmojiIcon P (SourceConfig.icon (config source))); [reflexivity|].
  destruct (isLocalPath (SourceConfig.icon (config source))); [|reflexivity].
  unfold bind at 1. rewrite loadWorkspaceIcon_run.
  destruct (electronAPI_readWorkspaceImage P _ _ (world st)) as [a w]. cbn zeta.
  by rewrite ifTruthy_cache_run.
Qed.

Lemma loadSourceIcon_completes (source : Source) (st : State P) :
  exists r st', loadSourceIcon P source st = (Normal r, st').
Proof.
  rewrite loadSourceIcon_run. cbn zeta.
  destruct (truthy_opt (iconCache st !! _)); [eauto|].
  destruct (isEmojiIcon P _); [eauto|].
  destruct (isLocalPath _); [|apply autoDiscover_completes].
  destruct (electronAPI_readWorkspaceImage P _ _ (world st)) as [a w].
  destruct (truthy_opt (loadedIcon P _ a w)); [eauto|apply autoDiscover_completes].
Qed.

End SourceIcons.

(** ** The favicon fallback *)

Section FaviconFallback.
Variable P : Platform.

Lemma with_iconCache_insert_twice (k v : jsstring) (st : State P) :
  with_iconCache P (insert k v) (with_iconCache P (insert k v) st)
  = with_iconCache P (insert k v) st.
Proof. unfold with_iconCache. cbn. by rewrite insert_insert_eq. Qed.

Lemma faviconFallback_again (config : SourceConfig.t) (cacheKey : jsstring)
    (r : Completion (option jsstring)) (st st' : State P) :
  faviconFallback P config cacheKey st = (r, st') ->
  faviconFallback P config cacheKey st' = (r, st').
Proof.
  destruct (deriveServiceUrl config) as [u|] eqn:Hu.
  2: { rewrite !(faviconFallback_no_url P _ _ _ Hu). by intros [= <- <-]. }
  assert (forall (stored : option jsstring) (s : State P),
    logoUrlCache s !! logoCacheKey u config = Some stored ->
    let s' := if truthy_opt stored
              then with_iconCache P (insert (lit "source:" ++ cacheKey) (default [] stored)) s
              else s in
    faviconFallback P config cacheKey s' = (Normal stored, s')) as Hagain.
  { intros stored s Hs s'.
    assert (logoUrlCache s' !! logoCacheKey u config = Some stored) as Hs'.
    { subst s'. by destruct (truthy_opt stored). }
    rewrite (faviconFallback_stored P _ _ _ _ _ Hu Hs'). subst s'.
    destruct (truthy_opt stored); [|reflexivity].
    by rewrite with_iconCache_insert_twice. }
  destruct (logoUrlCache st !! logoCacheKey u config) as [stored|] eqn:Hs.
  - rewrite (faviconFallback_stored P _ _ _ _ _ Hu Hs). intros [= <- <-].
    by apply Hagain.
  - rewrite (faviconFallback_miss P _ _ _ _ Hu Hs).
    destruct (electronAPI_getLogoUrl P u (logoProvider config) (world st))
      as [[logoUrl|error] w]; cbn zeta; intros [= <- <-].
    + apply Hagain. cbn. apply lookup_insert_eq.
    + apply (Hagain None). cbn. apply lookup_insert_eq.
Qed.

(** C4: [loadSourceIcon] always resolves, never rejects. In its favicon
    fallback an exception of the favicon collaborator is caught, logged,
    stored as [null] in the logo-URL store and answered with [null]. A call
    that reaches the fallback when the logo-URL store has an entry for the
    key, a stored [null] included, returns the stored value without a
    favicon lookup; and so does any second call of the fallback after a
    first. *)
Theorem favicon_fallback_negative_cache :
  (forall (source : Source) (st : State P),
      exists r st', loadSourceIcon P source st = (Normal r, st'))
  /\ (forall (config : SourceConfig.t) (cacheKey u error : jsstring)
        (w : World P) (st : State P),
        deriveServiceUrl config = Some u ->
        logoUrlCache st !! logoCacheKey u config = None ->
        electronAPI_getLogoUrl P u (logoProvider config) (world st) = (Throw error, w) ->
        exists st',
          faviconFallback P config cacheKey st = (Normal None, st')
          /\ logoUrlCache st' = <[logoCacheKey u config := None]> (logoUrlCache st)
          /\ iconCache st' = iconCache st
          /\ events st'
             = events st
               ++ [GetLogoUrl u (logoProvider config);
                   ConsoleError (lit "[IconCache] Failed to resolve logo URL:") error])
  /\ (forall (config : SourceConfig.t) (cacheKey u : jsstring)
        (stored : option jsstring) (st : State P),
        deriveServiceUrl config = Some u ->
        logoUrlCache st !! logoCacheKey u config = Some stored ->
        exists st',
          faviconFallback P config cacheKey st = (Normal stored, st')
          /\ events st' = events st
          /\ world st' = world st
          /\ logoUrlCache st' = logoUrlCache st)
  /\ (forall (config : SourceConfig.t) (cacheKey : jsstring)
        (r : Completion (option jsstring)) (st st' : State P),
        faviconFallback P config cacheKey st = (r, st') ->
        faviconFallback P config cacheKey st' = (r, st')).
Proof.
  split; [exact (loadSourceIcon_completes P)|]. split; [|split].
  - intros config cacheKey u error w st Hu Hmiss Hthrow.
    rewrite (faviconFallback_miss P _ _ _ _ Hu Hmiss), Hthrow.
    eexists. split; [reflexivity|]. cbn. rewrite <- app_assoc. done.
  - intros config cacheKey u stored st Hu Hs.
    rewrite (faviconFallback_stored P _ _ _ _ _ Hu Hs).
    eexists. split; [reflexivity|]. by destruct (truthy_opt stored).
  - exact faviconFallback_again.
Qed.

End FaviconFallback.

Lemma favicon_fallback_negative_cache_witness :
  exists st',
    faviconFallback diskPlatform linear (lit "ws:linear") (freshState linearDown)
    = (Normal None, st')
    /\ logoUrlCache st' = <[lit "https://api.linear.app:linear" := None]> ∅
    /\ iconCache st' = ∅
    /\ events st'
       = [GetLogoUrl (lit "https://api.linear.app") (Some (lit "linear"));
          ConsoleError (lit "[IconCache] Failed to resolve logo URL:")
            (lit "net::ERR_FAILED")].
Proof.
  destruct (favicon_fallback_negative_cache diskPlatform) as (_ & Hthrow & _).
  apply (Hthrow linear (lit "ws:linear") (lit "https://api.linear.app")
           (lit "net::ERR_FAILED") linearDown (freshState linearDown));
    reflexivity.
Defined.

(** ** The service URL *)

Lemma string_eqb_eq (a b : jsstring) : string_eqb a b = true <-> a = b.
Proof.
  revert b. induction a as [|c a IH]; intros [|d b]; cbn; try done.
  unfold code_unit_eqb. rewrite andb_true_iff, N.eqb_eq, IH.
  split; [by intros [-> ->]|by intros [= -> ->]].
Qed.

Lemma deriveServiceUrl_serviceUrlOf (config : SourceConfig.t) :
  deriveServiceUrl config
  = if truthy_opt (serviceUrlOf config) then serviceUrlOf config else None.
Proof.
  unfold deriveServiceUrl, serviceUrlOf.
  destruct (string_eqb (SourceConfig.type config) (lit "mcp")) eqn:Hmcp; cbn [andb].
  - apply string_eqb_eq in Hmcp. rewrite Hmcp.
    by destruct (truthy_opt (mcp_url config)).
  - destruct (string_eqb (SourceConfig.type config) (lit "api")); cbn [andb].
    + by destruct (truthy_opt (api_baseUrl config)).
    + done.
Qed.

Lemma filter_events_call (P : Platform) (f : Event -> bool) (e : Event)
    (w : World P) (st : State P) :
  List.filter f (events (call P e w st))
  = List.filter f (events st) ++ (if f e then [e] else []).
Proof. cbn. by rewrite List.filter_app. Qed.

Section ServiceUrl.
Variable P : Platform.

Lemma faviconFallback_no_lookup_without_url (config : SourceConfig.t)
    (cacheKey : jsstring) (st : State P) :
  truthy_opt (serviceUrlOf config) = false ->
  faviconFallback P config cacheKey st = (Normal None, st).
Proof.
  intros H. apply faviconFallback_no_url.
  by rewrite deriveServiceUrl_serviceUrlOf, H.
Qed.

Lemma autoDiscover_no_lookup_without_url (config : SourceConfig.t)
    (workspaceId cacheKey : jsstring) (st : State P) :
  truthy_opt (serviceUrlOf config) = false ->
  List.filter isGetLogoUrl (events (autoDiscover P config workspaceId cacheKey st).2)
  = List.filter isGetLogoUrl (events st).
Proof.
  intros H. rewrite autoDiscover_run.
  destruct (electronAPI_readWorkspaceImage P workspaceId (iconSvgPath config) (world st))
    as [a1 w1]. cbn zeta.
  destruct (truthy_opt (loadedIcon P (iconSvgPath config) a1 w1)).
  { cbn. rewrite List.filter_app. cbn. by rewrite app_nil_r. }
  destruct (electronAPI_readWorkspaceImage P workspaceId (iconPngPath config) w1)
    as [a2 w2]. cbn zeta.
  destruct (truthy_opt (loadedIcon P (iconPngPath config) a2 w2)).
  { cbn. rewrite !List.filter_app. cbn. by rewrite !app_nil_r. }
  rewrite (faviconFallback_no_lookup_without_url _ _ _ H).
  cbn. rewrite !List.filter_app. cbn. by rewrite !app_nil_r.
Qed.

(** C6: the service URL of step 5 is [mcp.url] for a source of type [mcp]
    and [api.baseUrl] for one of type [api], an absent or empty field
    counting as none; with such a URL and no entry in the logo-URL store the
    favicon collaborator is asked for exactly that URL. For any other type,
    or without the field, no service URL is derived: step 5 returns [null]
    and leaves the state as it is, and the whole of [loadSourceIcon] makes no
    favicon lookup. *)
Theorem service_url_by_source_type :
  (forall config : SourceConfig.t,
      deriveServiceUrl config
      = if truthy_opt (serviceUrlOf config) then serviceUrlOf config else None)
  /\ (forall (config : SourceConfig.t) (cacheKey u : jsstring) (st : State P),
        serviceUrlOf config = Some u -> truthy u = true ->
        logoUrlCache st !! logoCacheKey u config = None ->
        exists r st' after,
          faviconFallback P config cacheKey st = (Normal r, st')
          /\ events st'
             = events st ++ GetLogoUrl u (Some (SourceConfig.slug config)) :: after)
  /\ (forall (config : SourceConfig.t) (cacheKey : jsstring) (st : State P),
        truthy_opt (serviceUrlOf config) = false ->
        faviconFallback P config cacheKey st = (Normal None, st))
  /\ (forall (source : Source) (st : State P),
        truthy_opt (serviceUrlOf (config source)) = false ->
        List.filter isGetLogoUrl (events (loadSourceIcon P source st).2)
        = List.filter isGetLogoUrl (events st)).
Proof.
  split; [exact deriveServiceUrl_serviceUrlOf|]. split; [|split].
  - intros config cacheKey u st Hu Ht Hmiss.
    assert (deriveServiceUrl config = Some u) as Hd.
    { rewrite deriveServiceUrl_serviceUrlOf, Hu. cbn. by rewrite Ht. }
    rewrite (faviconFallback_miss P _ _ _ _ Hd Hmiss).
    destruct (electronAPI_getLogoUrl P u (logoProvider config) (world st))
      as [[logoUrl|error] w]; cbn zeta.
    + exists logoUrl. eexists. exists []. split; [reflexivity|].
      by destruct (truthy_opt logoUrl).
    + exists None. eexists. eexists. split; [reflexivity|].
      cbn. rewrite <- app_assoc. reflexivity.
  - exact faviconFallback_no_lookup_without_url.
  - intros source st H. rewrite loadSourceIcon_run. cbn zeta.
    destruct (truthy_opt (iconCache st !! _)); [done|].
    destruct (isEmojiIcon P _); [done|].
    destruct (isLocalPath _); [|by apply autoDiscover_no_lookup_without_url].
    destruct (electronAPI_readWorkspaceImage P _ _ (world st)) as [a w].
    destruct (truthy_opt (loadedIcon P _ a w)).
    + cbn. rewrite List.filter_app. cbn. by rewrite app_nil_r.
    + rewrite autoDiscover_no_lookup_without_url by done.
      cbn. rewrite List.filter_app. cbn. by rewrite app_nil_r.
Qed.

End ServiceUrl.

Lemma service_url_by_source_type_witness :
  exists r st' after,
    faviconFallback diskPlatform linear (lit "ws:linear") (freshState emptyDisk)
    = (Normal r, st')
    /\ events st'
       = [] ++ GetLogoUrl (lit "https://api.linear.app") (Some (lit "linear")) :: after.
Proof.
  destruct (service_url_by_source_type diskPlatform) as (_ & Hurl & _).
  apply (Hurl linear (lit "ws:linear") (lit "https://api.linear.app")
           (freshState emptyDisk)); reflexivity.
Defined.

(** ** The icon field *)

Section IconField.
Variable P : Platform.

(** An emoji icon on a key that is not cached: the marker is returned and
    cached, nothing else changes and no collaborator is called. *)
Lemma loadSourceIcon_emoji_marker (source : Source) (i : jsstring) (st : State P) :
  SourceConfig.icon (config source) = Some i ->
  isEmoji (Emoji_Presentation P) (Emoji P) i = true ->
  iconCache st !! sourceKey source = None ->
  loadSourceIcon P source st
  = (Normal (Some (EMOJI_ICON_PREFIX ++ i)),
     with_iconCache P (insert (sourceKey source) (EMOJI_ICON_PREFIX ++ i)) st).
Proof.
  intros Hi He Hmiss. rewrite loadSourceIcon_run. cbn zeta.
  rewrite Hmiss, Hi. cbn [truthy_opt isEmojiIcon]. rewrite He.
  destruct i as [|c i]; [discriminate He|]. reflexivity.
Qed.

(** C10: with an icon string that is neither an emoji for [isEmoji] nor
    starts with [./], a remote URL for one, [loadSourceIcon] does in every
    state exactly what it does when the icon field is absent: the same
    result, the same stores, the same collaborator calls. The icon string
    takes no part in what is returned or cached. *)
Theorem other_icon_string_is_ignored (source : Source) (i : jsstring) (st : State P) :
  SourceConfig.icon (config source) = Some i ->
  isEmoji (Emoji_Presentation P) (Emoji P) i = false ->
  startsWith i (lit "./") = false ->
  loadSourceIcon P source st = loadSourceIcon P (sourceWithoutIcon source) st.
Proof.
  intros Hi He Hl. rewrite !loadSourceIcon_run. cbn zeta.
  change (sourceKey (sourceWithoutIcon source)) with (sourceKey source).
  destruct (truthy_opt (iconCache st !! sourceKey source)); [reflexivity|].
  rewrite Hi. cbn [isEmojiIcon isLocalPath sourceWithoutIcon withoutIcon config
                   SourceConfig.icon].
  rewrite He, Hl, andb_false_r. reflexivity.
Qed.

End IconField.

Lemma other_icon_string_is_ignored_witness :
  loadSourceIcon diskPlatform remoteIconSource (freshState emptyDisk)
  = loadSourceIcon diskPlatform (sourceWithoutIcon remoteIconSource)
      (freshState emptyDisk).
Proof.
  apply (other_icon_string_is_ignored diskPlatform remoteIconSource
           (lit "https://example.com/icon.png")); reflexivity.
Defined.

(** C1 fails on the code: whatever the Unicode tables of the engine, a flag
    (two regional indicators) and an emoji with a skin-tone modifier are
    rejected by [isEmoji], the pattern asking for U+200D between two emoji
    code points; the flag icon is then looked for on disk and resolves to
    [null] after two file reads. *)
Theorem flag_and_skin_tone_are_not_emoji :
  (forall EP E : N -> bool, isEmoji EP E flag_US = false)
  /\ (forall EP E : N -> bool, isEmoji EP E thumbs_up_medium = false)
  /\ (loadSourceIcon diskPlatform flagSource (freshState emptyDisk)).1 = Normal None
  /\ iconCache (loadSourceIcon diskPlatform flagSource (freshState emptyDisk)).2 = ∅
  /\ events (loadSourceIcon diskPlatform flagSource (freshState emptyDisk)).2
     = [ReadWorkspaceImage (lit "ws") (lit "sources/x/icon.svg");
        ReadWorkspaceImage (lit "ws") (lit "sources/x/icon.png")].
Proof.
  split; [|split; [|split; [|split]]].
  - intros EP E. unfold isEmoji, EMOJI_REGEX_test. cbn.
    by destruct (EP _), (E _).
  - intros EP E. unfold isEmoji, EMOJI_REGEX_test. cbn.
    by destruct (EP _), (E _).
  - vm_compute. reflexivity.
  - vm_compute. reflexivity.
  - vm_compute. reflexivity.
Qed.

(** ** Calling [loadSourceIcon] twice *)

Ltac by_autoDiscover_cases :=
  rewrite autoDiscover_run;
  let a1 := fresh "a1" in let w1 := fresh "w1" in
  let a2 := fresh "a2" in let w2 := fresh "w2" in
  destruct (electronAPI_readWorkspaceImage _ _ (iconSvgPath _) _) as [a1 w1];
  cbn zeta;
  destruct (truthy_opt (loadedIcon _ (iconSvgPath _) a1 w1)) eqn:?;
  [|destruct (electronAPI_readWorkspaceImage _ _ (iconPngPath _) w1) as [a2 w2];
    cbn zeta;
    destruct (truthy_opt (loadedIcon _ (iconPngPath _) a2 w2)) eqn:?].

Ltac by_faviconFallback_cases P config st :=
  let u := fresh "u" in let Hu := fresh "Hu" in
  let stored := fresh "stored" in let Hs := fresh "Hs" in
  destruct (deriveServiceUrl config) as [u|] eqn:Hu;
  [destruct (logoUrlCache st !! logoCacheKey u config) as [stored|] eqn:Hs;
   [rewrite (faviconFallback_stored P _ _ _ _ _ Hu Hs)
   |rewrite (faviconFallback_miss P _ _ _ _ Hu Hs);
    destruct (electronAPI_getLogoUrl P u (logoProvider config) (world st))
      as [[?logoUrl|?error] ?w] eqn:?; cbn zeta]
  |rewrite (faviconFallback_no_url P _ _ _ Hu)].

Section Twice.
Variable P : Platform.

Lemma truthy_opt_Some (o : option jsstring) :
  truthy_opt o = true -> o = Some (default [] o).
Proof. by destruct o. Qed.

Lemma inserted_truthy (k : jsstring) (o : option jsstring) (st : State P) :
  truthy_opt o = true ->
  iconCache (with_iconCache P (insert k (default [] o)) st) !! k = o.
Proof.
  intros H. cbn. rewrite lookup_insert_eq. symmetry. by apply truthy_opt_Some.
Qed.

(** A non-empty result of the fallback is in the icon store afterwards. *)
Lemma faviconFallback_result_cached (config : SourceConfig.t) (cacheKey : jsstring)
    (r : option jsstring) (st st1 : State P) :
  faviconFallback P config cacheKey st = (Normal r, st1) ->
  truthy_opt r = true ->
  iconCache st1 !! (lit "source:" ++ cacheKey) = r.
Proof.
  by_faviconFallback_cases P config st; intros [= <- <-] Hr; try discriminate Hr;
    rewrite Hr; by apply inserted_truthy.
Qed.

Lemma autoDiscover_result_cached (config : SourceConfig.t)
    (workspaceId cacheKey : jsstring) (r : option jsstring) (st st1 : State P) :
  autoDiscover P config workspaceId cacheKey st = (Normal r, st1) ->
  truthy_opt r = true ->
  iconCache st1 !! (lit "source:" ++ cacheKey) = r.
Proof.
  by_autoDiscover_cases.
  - intros [= <- <-] Hr. by apply inserted_truthy.
  - intros [= <- <-] Hr. by apply inserted_truthy.
  - apply faviconFallback_result_cached.
Qed.

Lemma loadSourceIcon_result_cached (source : Source) (r : option jsstring)
    (st st1 : State P) :
  loadSourceIcon P source st = (Normal r, st1) ->
  truthy_opt r = true ->
  iconCache st1 !! sourceKey source = r.
Proof.
  rewrite loadSourceIcon_run. cbn zeta.
  destruct (truthy_opt (iconCache st !! sourceKey source)) eqn:Hc.
  { by intros [= <- <-]. }
  destruct (isEmojiIcon P _).
  { intros [= <- <-] _. cbn. by rewrite lookup_insert_eq. }
  destruct (isLocalPath _); [|apply autoDiscover_result_cached].
  destruct (electronAPI_readWorkspaceImage P _ _ (world st)) as [a w].
  cbn zeta. destruct (truthy_opt (loadedIcon P _ a w)) eqn:Hl.
  - intros [= <- <-] _. by apply inserted_truthy.
  - apply autoDiscover_result_cached.
Qed.

(** After a first call the favicon of the source needs no further lookup. *)
Lemma faviconFallback_settles (config : SourceConfig.t) (cacheKey : jsstring)
    (r : Completion (option jsstring)) (st st1 : State P) :
  faviconFallback P config cacheKey st = (r, st1) -> logoSettled config st1.
Proof.
  unfold logoSettled.
  by_faviconFallback_cases P config st; intros [= <- <-]; try done.
  - destruct (truthy_opt stored); cbn; by rewrite Hs.
  - destruct (truthy_opt logoUrl); cbn; by rewrite lookup_insert_eq.
  - cbn. by rewrite lookup_insert_eq.
Qed.

Lemma autoDiscover_settles (config : SourceConfig.t) (workspaceId cacheKey : jsstring)
    (r : Completion (option jsstring)) (st st1 : State P) :
  autoDiscover P config workspaceId cacheKey st = (r, st1) ->
  truthy_opt (iconCache st1 !! (lit "source:" ++ cacheKey)) = true
  \/ logoSettled config st1.
Proof.
  by_autoDiscover_cases.
  - intros [= <- <-]. left. by rewrite inserted_truthy.
  - intros [= <- <-]. left. by rewrite inserted_truthy.
  - intros H. right. by eapply faviconFallback_settles.
Qed.

Lemma loadSourceIcon_settles (source : Source) (r : Completion (option jsstring))
    (st st1 : State P) :
  loadSourceIcon P source st = (r, st1) ->
  truthy_opt (iconCache st1 !! sourceKey source) = true
  \/ logoSettled (config source) st1.
Proof.
  rewrite loadSourceIcon_run. cbn zeta.
  destruct (truthy_opt (iconCache st !! sourceKey source)) eqn:Hc.
  { intros [= <- <-]. by left. }
  destruct (isEmojiIcon P (SourceConfig.icon (config source))) eqn:He.
  { intros [= <- <-]. left. cbn. rewrite lookup_insert_eq.
    destruct (SourceConfig.icon (config source)) as [[|c i]|]; done. }
  destruct (isLocalPath _); [|apply autoDiscover_settles].
  destruct (electronAPI_readWorkspaceImage P _ _ (world st)) as [a w].
  cbn zeta. destruct (truthy_opt (loadedIcon P _ a w)) eqn:Hl.
  - intros [= <- <-]. left. by rewrite inserted_truthy.
  - apply autoDiscover_settles.
Qed.

Lemma faviconFallback_settled_quiet (config : SourceConfig.t) (cacheKey : jsstring)
    (st : State P) :
  logoSettled config st ->
  events (faviconFallback P config cacheKey st).2 = events st.
Proof.
  unfold logoSettled.
  by_faviconFallback_cases P config st; intros Hsettled;
    try (by destruct Hsettled); try done.
  by destruct (truthy_opt stored).
Qed.

Lemma autoDiscover_settled_no_lookup (config : SourceConfig.t)
    (workspaceId cacheKey : jsstring) (st : State P) :
  logoSettled config st ->
  List.filter isGetLogoUrl (events (autoDiscover P config workspaceId cacheKey st).2)
  = List.filter isGetLogoUrl (events st).
Proof.
  intros Hsettled. by_autoDiscover_cases.
  - cbn. rewrite List.filter_app. cbn. by rewrite app_nil_r.
  - cbn. rewrite !List.filter_app. cbn. by rewrite !app_nil_r.
  - rewrite faviconFallback_settled_quiet by exact Hsettled.
    cbn. rewrite !List.filter_app. cbn. by rewrite !app_nil_r.
Qed.

Lemma loadSourceIcon_settled_no_lookup (source : Source) (st : State P) :
  truthy_opt (iconCache st !! sourceKey source) = true
  \/ logoSettled (config source) st ->
  List.filter isGetLogoUrl (events (loadSourceIcon P source st).2)
  = List.filter isGetLogoUrl (events st).
Proof.
  intros Hsettled. rewrite loadSourceIcon_run. cbn zeta.
  destruct (truthy_opt (iconCache st !! sourceKey source)) eqn:Hc; [done|].
  destruct Hsettled as [|Hsettled]; [done|].
  destruct (isEmojiIcon P _); [done|].
  destruct (isLocalPath _); [|by apply autoDiscover_settled_no_lookup].
  destruct (electronAPI_readWorkspaceImage P _ _ (world st)) as [a w].
  cbn zeta. destruct (truthy_opt (loadedIcon P _ a w)).
  - cbn. rewrite List.filter_app. cbn. by rewrite app_nil_r.
  - rewrite autoDiscover_settled_no_lookup by exact Hsettled.
    cbn. rewrite List.filter_app. cbn. by rewrite app_nil_r.
Qed.

(** Once resolved to a non-empty string, a source is served from the icon
    store: the second call returns the same and changes nothing. *)
Lemma second_call_cache_hit (source : Source) (v : jsstring) (st st1 : State P) :
  loadSourceIcon P source st = (Normal (Some v), st1) ->
  truthy v = true ->
  loadSourceIcon P source st1 = (Normal (Some v), st1).
Proof.
  intros Hfirst Hv.
  pose proof (loadSourceIcon_result_cached _ _ _ _ Hfirst Hv) as Hcached.
  rewrite loadSourceIcon_run. cbn zeta. rewrite Hcached. cbn [truthy_opt].
  by rewrite Hv.
Qed.

(** Whatever the first call returned, the second makes no favicon lookup. *)
Lemma second_call_no_lookup (source : Source) (r : Completion (option jsstring))
    (st st1 : State P) :
  loadSourceIcon P source st = (r, st1) ->
  List.filter isGetLogoUrl (events (loadSourceIcon P source st1).2)
  = List.filter isGetLogoUrl (events st1).
Proof.
  intros Hfirst. apply loadSourceIcon_settled_no_lookup.
  by eapply loadSourceIcon_settles.
Qed.

End Twice.

(** ** Two calls, the first without a result *)

Section SecondCall.
Variable P : Platform.

(** Without a cached value and without an emoji icon, [loadSourceIcon] goes
    through the icon files and ends with the favicon fallback. *)
Lemma loadSourceIcon_firstIcon (source : Source) (st : State P) :
  truthy_opt (iconCache st !! sourceKey source) = false ->
  isEmojiIcon P (SourceConfig.icon (config source)) = false ->
  loadSourceIcon P source st
  = firstIcon P (sourceKey source) (workspaceId source) (iconPaths source)
      (faviconFallback P (config source)
         (workspaceId source ++ lit ":" ++ SourceConfig.slug (config source))) st.
Proof.
  intros Hc He. rewrite loadSourceIcon_run. cbn zeta. rewrite Hc, He.
  unfold iconPaths.
  destruct (isLocalPath (SourceConfig.icon (config source))); cbn [app firstIcon].
  - destruct (electronAPI_readWorkspaceImage P _ _ (world st)) as [a w].
    cbn zeta. destruct (truthy_opt (loadedIcon P _ a w)); [reflexivity|].
    by rewrite autoDiscover_run.
  - by rewrite autoDiscover_run.
Qed.

(** A first call without result had no cached value and no emoji icon. *)
Lemma loadSourceIcon_falsy_start (source : Source) (o : option jsstring)
    (st st1 : State P) :
  loadSourceIcon P source st = (Normal o, st1) ->
  truthy_opt o = false ->
  truthy_opt (iconCache st !! sourceKey source) = false
  /\ isEmojiIcon P (SourceConfig.icon (config source)) = false.
Proof.
  rewrite loadSourceIcon_run. cbn zeta.
  destruct (truthy_opt (iconCache st !! sourceKey source)) eqn:Hc.
  { intros [= <- _] Ho. congruence. }
  destruct (isEmojiIcon P (SourceConfig.icon (config source))) eqn:He; [|done].
  intros [= <- _]. destruct (SourceConfig.icon (config source)) as [[|c i]|]; done.
Qed.

Lemma afterReads_stores (workspaceId : jsstring) (paths : list jsstring) :
  forall st : State P,
    iconCache (afterReads P workspaceId paths st) = iconCache st
    /\ logoUrlCache (afterReads P workspaceId paths st) = logoUrlCache st
    /\ events (afterReads P workspaceId paths st)
       = events st ++ List.map (ReadWorkspaceImage workspaceId) paths.
Proof.
  induction paths as [|p rest IH]; intros st; cbn [afterReads List.map].
  - by rewrite app_nil_r.
  - destruct (electronAPI_readWorkspaceImage P workspaceId p (world st)) as [a w].
    destruct (IH (call P (ReadWorkspaceImage workspaceId p) w st)) as (-> & -> & ->).
    cbn [iconCache logoUrlCache events call]. by rewrite <- app_assoc.
Qed.

(** A loop that ended without result got an empty answer for every file,
    and ended in [otherwise]. *)
Lemma firstIcon_falsy (key workspaceId : jsstring) (otherwise : M P (option jsstring))
    (o : option jsstring) (paths : list jsstring) :
  forall st st1 : State P,
    firstIcon P key workspaceId paths otherwise st = (Normal o, st1) ->
    truthy_opt o = false ->
    Forall (fun answer => truthy_opt answer = false)
           (fileAnswers P workspaceId paths (world st))
    /\ otherwise (afterReads P workspaceId paths st) = (Normal o, st1).
Proof.
  induction paths as [|p rest IH]; intros st st1; cbn [firstIcon fileAnswers afterReads].
  - by intros ->.
  - destruct (electronAPI_readWorkspaceImage P workspaceId p (world st)) as [a w].
    cbn zeta. destruct (truthy_opt (loadedIcon P p a w)) eqn:Hl.
    + intros [= <- _] Ho. congruence.
    + intros Hrest Ho. destruct (IH _ _ Hrest Ho) as [Hall Hother].
      split; [by constructor|exact Hother].
Qed.

(** A loop that gets an empty answer for every file ends in [otherwise]. *)
Lemma firstIcon_all_falsy (key workspaceId : jsstring)
    (otherwise : M P (option jsstring)) (paths : list jsstring) :
  forall st : State P,
    Forall (fun answer => truthy_opt answer = false)
           (fileAnswers P workspaceId paths (world st)) ->
    firstIcon P key workspaceId paths otherwise st
    = otherwise (afterReads P workspaceId paths st).
Proof.
  induction paths as [|p rest IH]; intros st; cbn [firstIcon fileAnswers afterReads];
    [done|].
  destruct (electronAPI_readWorkspaceImage P workspaceId p (world st)) as [a w].
  cbn zeta. intros [Hl Hrest]%Forall_cons. rewrite Hl. by apply IH.
Qed.

(** A fallback that returned nothing to cache left the icon store alone. *)
Lemma faviconFallback_falsy_frame (config : SourceConfig.t) (cacheKey : jsstring)
    (o : option jsstring) (st st1 : State P) :
  faviconFallback P config cacheKey st = (Normal o, st1) ->
  truthy_opt o = false ->
  iconCache st1 = iconCache st.
Proof.
  by_faviconFallback_cases P config st; intros [= <- <-] Ho; try done;
    by rewrite Ho.
Qed.

(** The events of a fallback extend those before it. *)
Lemma faviconFallback_events (config : SourceConfig.t) (cacheKey : jsstring)
    (st : State P) :
  exists later, events (faviconFallback P config cacheKey st).2 = events st ++ later.
Proof.
  by_faviconFallback_cases P config st.
  - exists []. rewrite app_nil_r. by destruct (truthy_opt stored).
  - eexists. by destruct (truthy_opt logoUrl).
  - eexists. cbn. by rewrite <- app_assoc.
  - exists []. by rewrite app_nil_r.
Qed.

(** The loop starts by reading its first file. *)
Lemma firstIcon_reads_first (key workspaceId p : jsstring) (rest : list jsstring)
    (config : SourceConfig.t) (cacheKey : jsstring) (st : State P) :
  exists later,
    events (firstIcon P key workspaceId (p :: rest)
              (faviconFallback P config cacheKey) st).2
    = events st ++ ReadWorkspaceImage workspaceId p :: later.
Proof.
  assert (forall paths (s : State P), exists later,
            events (firstIcon P key workspaceId paths
                      (faviconFallback P config cacheKey) s).2
            = events s ++ later) as Hextends.
  { induction paths as [|q paths IH]; intros s; cbn [firstIcon].
    - apply faviconFallback_events.
    - destruct (electronAPI_readWorkspaceImage P workspaceId q (world s)) as [a w].
      cbn zeta. destruct (truthy_opt (loadedIcon P q a w)); [by eexists|].
      destruct (IH (call P (ReadWorkspaceImage workspaceId q) w s)) as [later ->].
      eexists. cbn [events call]. by rewrite <- app_assoc. }
  cbn [firstIcon].
  destruct (electronAPI_readWorkspaceImage P workspaceId p (world st)) as [a w].
  cbn zeta. destruct (truthy_opt (loadedIcon P p a w)).
  - exists []. reflexivity.
  - destruct (Hextends rest (call P (ReadWorkspaceImage workspaceId p) w st))
      as [later ->].
    exists later. cbn [events call]. by rewrite <- app_assoc.
Qed.

(** After a fallback without result, a fallback on any state with the same
    logo-URL store returns the same and changes nothing. *)
Lemma faviconFallback_falsy_again (config : SourceConfig.t) (cacheKey : jsstring)
    (o : option jsstring) (st st1 s : State P) :
  faviconFallback P config cacheKey st = (Normal o, st1) ->
  truthy_opt o = false ->
  logoUrlCache s = logoUrlCache st1 ->
  faviconFallback P config cacheKey s = (Normal o, s).
Proof.
  intros Hfirst Ho Hstore.
  pose proof (faviconFallback_settles P _ _ _ _ _ Hfirst) as Hsettled.
  pose proof (faviconFallback_again P _ _ _ _ _ Hfirst) as Hagain.
  unfold logoSettled in Hsettled.
  destruct (deriveServiceUrl config) as [u|] eqn:Hu.
  - destruct Hsettled as [stored Hs].
    rewrite (faviconFallback_stored P _ _ _ _ _ Hu Hs) in Hagain.
    injection Hagain as -> _.
    rewrite <- Hstore in Hs.
    by rewrite (faviconFallback_stored P _ _ _ _ _ Hu Hs), Ho.
  - rewrite (faviconFallback_no_url P _ _ _ Hu) in Hagain.
    injection Hagain as <-. by rewrite (faviconFallback_no_url P _ _ _ Hu).
Qed.

(** After a first call without result, the second reads the first icon
    file again. *)
Lemma second_call_reads_again (source : Source) (o : option jsstring)
    (st st1 : State P) :
  loadSourceIcon P source st = (Normal o, st1) ->
  truthy_opt o = false ->
  exists relativePath rest later,
    iconPaths source = relativePath :: rest
    /\ events (loadSourceIcon P source st1).2
       = events st1 ++ ReadWorkspaceImage (workspaceId source) relativePath :: later.
Proof.
  intros Hfirst Ho.
  destruct (loadSourceIcon_falsy_start _ _ _ _ Hfirst Ho) as [Hc He].
  rewrite (loadSourceIcon_firstIcon _ _ Hc He) in Hfirst.
  destruct (firstIcon_falsy _ _ _ _ _ _ _ Hfirst Ho) as [_ Hfav].
  pose proof (faviconFallback_falsy_frame _ _ _ _ _ Hfav Ho) as Hframe.
  destruct (afterReads_stores (workspaceId source) (iconPaths source) st)
    as (Hicons & _ & _).
  rewrite loadSourceIcon_firstIcon; [|by rewrite Hframe, Hicons|exact He].
  assert (exists p rest, iconPaths source = p :: rest) as (p & rest & Hpaths).
  { unfold iconPaths. destruct (isLocalPath _); cbn [app]; eauto. }
  exists p, rest. rewrite Hpaths.
  destruct (firstIcon_reads_first (sourceKey source) (workspaceId source) p rest
              (config source)
              (workspaceId source ++ lit ":" ++ SourceConfig.slug (config source)) st1)
    as [later Hlater].
  by exists later.
Qed.

(** After a first call without result, a second call that gets the same
    answers for the icon files returns the same, after reading each of them
    once more and nothing else. *)
Lemma second_call_same_answers (source : Source) (o : option jsstring)
    (st st1 : State P) :
  loadSourceIcon P source st = (Normal o, st1) ->
  truthy_opt o = false ->
  fileAnswers P (workspaceId source) (iconPaths source) (world st1)
  = fileAnswers P (workspaceId source) (iconPaths source) (world st) ->
  (loadSourceIcon P source st1).1 = Normal o
  /\ iconCache (loadSourceIcon P source st1).2 = iconCache st1
  /\ logoUrlCache (loadSourceIcon P source st1).2 = logoUrlCache st1
  /\ events (loadSourceIcon P source st1).2
     = events st1
       ++ List.map (ReadWorkspaceImage (workspaceId source)) (iconPaths source).
Proof.
  intros Hfirst Ho Hsame.
  destruct (loadSourceIcon_falsy_start _ _ _ _ Hfirst Ho) as [Hc He].
  rewrite (loadSourceIcon_firstIcon _ _ Hc He) in Hfirst.
  destruct (firstIcon_falsy _ _ _ _ _ _ _ Hfirst Ho) as [Hall Hfav].
  pose proof (faviconFallback_falsy_frame _ _ _ _ _ Hfav Ho) as Hframe.
  destruct (afterReads_stores (workspaceId source) (iconPaths source) st)
    as (Hicons & _ & _).
  destruct (afterReads_stores (workspaceId source) (iconPaths source) st1)
    as (Hicons1 & Hlogos1 & Hevents1).
  rewrite loadSourceIcon_firstIcon; [|by rewrite Hframe, Hicons|exact He].
  rewrite firstIcon_all_falsy by (by rewrite Hsame).
  by rewrite (faviconFallback_falsy_again _ _ _ _ _ _ Hfav Ho Hlogos1).
Qed.

End SecondCall.

(** C2, as the code has it: when the first of two calls with identical
    inputs returns a non-empty string, the second returns the same string
    and changes nothing, so it makes no file read and no favicon lookup.
    After any first call the second makes no favicon lookup. After a first
    call without result ([null] or an empty string) the second reads the
    first icon file of the source again, the icon store keeping no negative
    entries; when [loadWorkspaceIcon] answers for the icon files of the
    source on the second call what it answered on the first, the second call
    returns what the first returned, reads each of these files once more,
    makes no other call and leaves both stores as they were. *)
Theorem second_call_served_from_cache (P : Platform) :
  (forall (source : Source) (v : jsstring) (st st1 : State P),
      loadSourceIcon P source st = (Normal (Some v), st1) ->
      truthy v = true ->
      loadSourceIcon P source st1 = (Normal (Some v), st1))
  /\ (forall (source : Source) (r : Completion (option jsstring)) (st st1 : State P),
        loadSourceIcon P source st = (r, st1) ->
        List.filter isGetLogoUrl (events (loadSourceIcon P source st1).2)
        = List.filter isGetLogoUrl (events st1))
  /\ (forall (source : Source) (o : option jsstring) (st st1 : State P),
        loadSourceIcon P source st = (Normal o, st1) ->
        truthy_opt o = false ->
        exists relativePath rest later,
          iconPaths source = relativePath :: rest
          /\ events (loadSourceIcon P source st1).2
             = events st1
               ++ ReadWorkspaceImage (workspaceId source) relativePath :: later)
  /\ (forall (source : Source) (o : option jsstring) (st st1 : State P),
        loadSourceIcon P source st = (Normal o, st1) ->
        truthy_opt o = false ->
        fileAnswers P (workspaceId source) (iconPaths source) (world st1)
        = fileAnswers P (workspaceId source) (iconPaths source) (world st) ->
        (loadSourceIcon P source st1).1 = Normal o
        /\ iconCache (loadSourceIcon P source st1).2 = iconCache st1
        /\ logoUrlCache (loadSourceIcon P source st1).2 = logoUrlCache st1
        /\ events (loadSourceIcon P source st1).2
           = events st1
             ++ List.map (ReadWorkspaceImage (workspaceId source)) (iconPaths source)).
Proof.
  split; [exact (second_call_cache_hit P)|].
  split; [exact (second_call_no_lookup P)|].
  split; [exact (second_call_reads_again P)|].
  exact (second_call_same_answers P).
Qed.

Lemma second_call_served_from_cache_witness :
  let first := loadSourceIcon diskPlatform bareSource (freshState emptyDisk) in
  let second := loadSourceIcon diskPlatform bareSource first.2 in
  first.1 = Normal None
  /\ second.1 = Normal None
  /\ iconCache second.2 = iconCache first.2
  /\ logoUrlCache second.2 = logoUrlCache first.2
  /\ events second.2
     = events first.2
       ++ [ReadWorkspaceImage (lit "ws") (lit "sources/x/icon.svg");
           ReadWorkspaceImage (lit "ws") (lit "sources/x/icon.png")].
Proof.
  cbv zeta.
  assert ((loadSourceIcon diskPlatform bareSource (freshState emptyDisk)).1
          = Normal None) as Hnull by (vm_compute; reflexivity).
  split; [exact Hnull|].
  destruct (second_call_served_from_cache diskPlatform) as (_ & _ & _ & Hsame).
  apply (Hsame bareSource None (freshState emptyDisk)).
  - apply injective_projections; [exact Hnull|reflexivity].
  - reflexivity.
  - vm_compute. reflexivity.
Defined.

(** C2 as stated fails: for a source without icon, files and service URL
    the first call returns [null] after two file reads, and the second call
    with the same input reads the two files again. *)
Lemma second_call_reads_files_again :
  let first := loadSourceIcon diskPlatform bareSource (freshState emptyDisk) in
  let second := loadSourceIcon diskPlatform bareSource first.2 in
  first.1 = Normal None
  /\ second.1 = Normal None
  /\ List.filter isIO (events first.2)
     = [ReadWorkspaceImage (lit "ws") (lit "sources/x/icon.svg");
        ReadWorkspaceImage (lit "ws") (lit "sources/x/icon.png")]
  /\ List.filter isIO (events second.2)
     = List.filter isIO (events first.2)
       ++ [ReadWorkspaceImage (lit "ws") (lit "sources/x/icon.svg");
           ReadWorkspaceImage (lit "ws") (lit "sources/x/icon.png")].
Proof. cbv zeta. repeat split; vm_compute; reflexivity. Qed.

(** ** Where an emoji marker can come from *)




(** A single emoji ends with a character with emoji presentation, U+FE0F, a
    skin-tone modifier, a regional indicator or U+20E3. *)
Lemma emojiCluster_last (EP E : N -> bool) (cps : list N) :
  emojiCluster EP E cps ->
  exists r c, cps = r ++ [c]
    /\ EP c || (c =? VS16) || isEmojiModifier c || isRegionalIndicator c
       || (c =? KEYCAP) = true.
Proof.
  assert (forall e, emojiElement EP E e ->
            exists r c, e = r ++ [c]
              /\ EP c || (c =? VS16) || isEmojiModifier c || isRegionalIndicator c
                 || (c =? KEYCAP) = true)
    as Helement.
  { intros e [c Hc|c Hc|c m _ Hm|a b _ Hb|c Hc].
    - exists [], c. by rewrite Hc.
    - exists [c], VS16. split; [reflexivity|]. by rewrite orb_true_r.
    - exists [c], m. split; [reflexivity|]. by rewrite Hm, !orb_true_r.
    - exists [a], b. split; [reflexivity|]. by rewrite Hb, !orb_true_r.
    - exists [c; VS16], KEYCAP. split; [reflexivity|]. by rewrite !orb_true_r. }
  induction 1 as [e He|e rest He _ (r & c & -> & Hc)].
  - by apply Helement.
  - exists (e ++ ZWJ :: r), c. split; [|exact Hc].
    by rewrite <- app_assoc.
Qed.


(** The notion is wider than the pattern: a flag, an emoji with a skin-tone
    modifier and a keycap are single emoji. *)
Example emoji_beyond_the_pattern :
  isSingleEmoji (in_ranges Emoji_Presentation_14) (in_ranges Emoji_14) flag_US
  /\ isSingleEmoji (in_ranges Emoji_Presentation_14) (in_ranges Emoji_14)
       thumbs_up_medium
  /\ isSingleEmoji (in_ranges Emoji_Presentation_14) (in_ranges Emoji_14) keycap_1.
Proof.
  unfold isSingleEmoji. split; [|split].
  - replace (toCodePoints flag_US) with [0x1F1FA; 0x1F1F8] by (vm_compute; reflexivity).
    apply emoji_single, emoji_flag; vm_compute; reflexivity.
  - replace (toCodePoints thumbs_up_medium) with [0x1F44D; 0x1F3FD]
      by (vm_compute; reflexivity).
    apply emoji_single, emoji_modified; vm_compute; reflexivity.
  - replace (toCodePoints keycap_1) with [0x31; VS16; KEYCAP]
      by (vm_compute; reflexivity).
    apply emoji_single, emoji_keycap; vm_compute; reflexivity.
Qed.

(** Where the notion ends: a digit followed by U+FE0F and a regional
    indicator on its own are emoji elements, and [isEmoji] accepts them. *)
Example emoji_at_the_edge :
  isSingleEmoji (in_ranges Emoji_Presentation_14) (in_ranges Emoji_14) [0x31; 0xFE0F]
  /\ isEmoji_14 [0x31; 0xFE0F] = true
  /\ isSingleEmoji (in_ranges Emoji_Presentation_14) (in_ranges Emoji_14)
       [0xD83C; 0xDDFA]
  /\ isEmoji_14 [0xD83C; 0xDDFA] = true.
Proof.
  unfold isSingleEmoji. split; [|split; [vm_compute; reflexivity|split; [|vm_compute; reflexivity]]].
  - replace (toCodePoints [0x31; 0xFE0F]) with [0x31; VS16] by (vm_compute; reflexivity).
    apply emoji_single, emoji_styled; vm_compute; reflexivity.
  - replace (toCodePoints [0xD83C; 0xDDFA]) with [0x1F1FA] by (vm_compute; reflexivity).
    apply emoji_single, emoji_presented; vm_compute; reflexivity.
Qed.

Lemma fireAndLetter_is_no_emoji :
  ~ isSingleEmoji (in_ranges Emoji_Presentation_14) (in_ranges Emoji_14) fireAndLetter.
Proof.
  intros (r & c & Hcps & Hc)%emojiCluster_last.
  vm_compute in Hcps.
  destruct r as [|a [|b r]]; cbn [app] in Hcps; [discriminate Hcps| |].
  - injection Hcps as _ <-. by vm_compute in Hc.
  - injection Hcps as _ _ Hnil. by destruct r.
Qed.

Section NoMarker.
Variable P : Platform.

(** The collaborators hand out no value that starts with the marker. *)
Hypothesis read_no_marker :
  forall (workspaceId relativePath result : jsstring) (w w' : World P),
    electronAPI_readWorkspaceImage P workspaceId relativePath w = (Normal result, w') ->
    startsWith result EMOJI_ICON_PREFIX = false.
Hypothesis logo_no_marker :
  forall (serviceUrl url : jsstring) (provider : option jsstring) (w w' : World P),
    electronAPI_getLogoUrl P serviceUrl provider w = (Normal (Some url), w') ->
    startsWith url EMOJI_ICON_PREFIX = false.






End NoMarker.



(** ** Skill icons *)

Example skillsMatch_commit :
  skillsMatch (lit "/home/u/.craft/skills/commit/icon.png")
  = Some (lit "commit", lit "icon.png").
Proof. reflexivity. Qed.
Example skillsMatch_nested :
  skillsMatch (lit "/skills/a/skills/b/c.svg") = Some (lit "a", lit "skills/b/c.svg").
Proof. reflexivity. Qed.
Example skillsMatch_misplaced : skillsMatch (lit "/tmp/icon.png") = None.
Proof. reflexivity. Qed.
Example skillsMatch_no_file : skillsMatch (lit "/x/skills/commit/") = None.
Proof. reflexivity. Qed.

Section SkillIcons.
Variable P : Platform.

(** [loadSkillIcon] by cases, in the order of the source. *)
Lemma loadSkillIcon_run (skill : SkillConfig.t) (workspaceId : jsstring) (st : State P) :
  loadSkillIcon P skill workspaceId st
  = if negb (truthy_opt (SkillConfig.iconPath skill)) then (Normal None, st)
    else if truthy_opt (iconCache st !! skillKey skill workspaceId)
    then (Normal (iconCache st !! skillKey skill workspaceId), st)
    else
      match skillsMatch (default [] (SkillConfig.iconPath skill)) with
      | None => (Normal None, st)
      | Some (group1, group2) =>
          let relativePath := skillRelativePath group1 group2 in
          let '(a, w) :=
            electronAPI_readWorkspaceImage P workspaceId relativePath (world st) in
          let st1 := call P (ReadWorkspaceImage workspaceId relativePath) w st in
          match a with
          | Throw e =>
              (Normal None, call P (ConsoleError (skillLoadFailed relativePath) e) w st1)
          | Normal result =>
              if endsWith relativePath (lit ".svg") then
                match btoa P (themeSvgContent_with (foregroundColorIn P w) result) with
                | Normal encoded =>
                    (Normal (Some (lit "data:image/svg+xml;base64," ++ encoded)),
                     with_iconCache P
                       (insert (skillKey skill workspaceId)
                          (lit "data:image/svg+xml;base64," ++ encoded)) st1)
                | Throw e =>
                    (Normal None,
                     call P (ConsoleError (skillLoadFailed relativePath) e) w st1)
                end
              else
                (Normal (Some result),
                 with_iconCache P (insert (skillKey skill workspaceId) result) st1)
          end
      end.
Proof.
  unfold loadSkillIcon. cbn zeta.
  destruct (negb (truthy_opt (SkillConfig.iconPath skill))); [reflexivity|].
  unfold bind at 1. unfold skillIconCache_get, iconCache_get.
  fold (skillKey skill workspaceId).
  destruct (truthy_opt (iconCache st !! skillKey skill workspaceId)); [reflexivity|].
  destruct (skillsMatch _) as [[group1 group2]|]; [|reflexivity].
  fold (skillRelativePath group1 group2).
  fold (skillLoadFailed (skillRelativePath group1 group2)).
  unfold try_catch. unfold bind at 1. unfold readWorkspaceImage.
  destruct (electronAPI_readWorkspaceImage P _ _ (world st)) as [[result|e] w];
    [|reflexivity].
  cbn zeta. destruct (endsWith _ (lit ".svg")); [|reflexivity].
  unfold bind at 1. rewrite svgToThemedDataUrl_run. cbn [world call].
  by destruct (btoa P _).
Qed.

(** C8, as the code has it. Without an icon path, or with an empty one,
    [loadSkillIcon] returns [null]. With a path that does not match the
    pattern, or whose file read fails, it returns [null] unless a non-empty
    value is cached under the key of the skill: that value is returned before
    the path is looked at. In none of these cases is anything written to the
    icon store; whenever the result is [null] the icon store is as it was. A
    later call with a matching path and a readable file therefore resolves
    and caches the icon. *)
Theorem loadSkillIcon_failure_leaves_cache :
  (forall (skill : SkillConfig.t) (workspaceId : jsstring) (st : State P),
      truthy_opt (SkillConfig.iconPath skill) = false ->
      loadSkillIcon P skill workspaceId st = (Normal None, st))
  /\ (forall (skill : SkillConfig.t) (workspaceId path : jsstring) (st : State P),
        SkillConfig.iconPath skill = Some path ->
        skillsMatch path = None ->
        truthy_opt (iconCache st !! skillKey skill workspaceId) = false ->
        loadSkillIcon P skill workspaceId st = (Normal None, st))
  /\ (forall (skill : SkillConfig.t) (workspaceId path group1 group2 e : jsstring)
        (w : World P) (st : State P),
        SkillConfig.iconPath skill = Some path ->
        skillsMatch path = Some (group1, group2) ->
        truthy_opt (iconCache st !! skillKey skill workspaceId) = false ->
        electronAPI_readWorkspaceImage P workspaceId
          (skillRelativePath group1 group2) (world st) = (Throw e, w) ->
        exists st',
          loadSkillIcon P skill workspaceId st = (Normal None, st')
          /\ iconCache st' = iconCache st
          /\ logoUrlCache st' = logoUrlCache st)
  /\ (forall (skill : SkillConfig.t) (workspaceId : jsstring) (st st' : State P),
        loadSkillIcon P skill workspaceId st = (Normal None, st') ->
        iconCache st' = iconCache st)
  /\ (forall (skill : SkillConfig.t) (workspaceId path : jsstring) (st : State P),
        SkillConfig.iconPath skill = Some path ->
        skillsMatch path = None ->
        iconCache (loadSkillIcon P skill workspaceId st).2 = iconCache st)
  /\ (forall (skill : SkillConfig.t) (workspaceId path group1 group2 content : jsstring)
        (w : World P) (st : State P),
        SkillConfig.iconPath skill = Some path ->
        skillsMatch path = Some (group1, group2) ->
        truthy_opt (iconCache st !! skillKey skill workspaceId) = false ->
        endsWith (skillRelativePath group1 group2) (lit ".svg") = false ->
        electronAPI_readWorkspaceImage P workspaceId
          (skillRelativePath group1 group2) (world st) = (Normal content, w) ->
        exists st',
          loadSkillIcon P skill workspaceId st = (Normal (Some content), st')
          /\ iconCache st' !! skillKey skill workspaceId = Some content).
Proof.
  assert (forall path : jsstring, skillsMatch path = None -> path = [] \/ truthy path = true)
    as Hpath by (intros [|c path] _; [by left|by right]).
  assert (forall (path g1 g2 : jsstring),
             skillsMatch path = Some (g1, g2) -> truthy path = true) as Hmatch
    by (by intros [|c path] g1 g2).
  repeat split.
  - intros skill workspaceId st Hfalsy. rewrite loadSkillIcon_run. by rewrite Hfalsy.
  - intros skill workspaceId path st Hp Hno Hmiss. rewrite loadSkillIcon_run.
    rewrite Hp, Hmiss. cbn [truthy_opt default from_option id]. rewrite Hno.
    by destruct (negb (truthy path)).
  - intros skill workspaceId path g1 g2 e w st Hp Hm Hmiss Hread.
    rewrite loadSkillIcon_run. rewrite Hp, Hmiss. cbn [truthy_opt default from_option id].
    rewrite (Hmatch _ _ _ Hm), Hm. cbn [negb]. cbn zeta. rewrite Hread.
    eexists. split; [reflexivity|done].
  - intros skill workspaceId st st'. rewrite loadSkillIcon_run.
    destruct (negb _); [by intros [= <-]|].
    destruct (truthy_opt (iconCache st !! _)) eqn:Hc.
    { intros [= Hn <-]. by rewrite Hn in Hc. }
    destruct (skillsMatch _) as [[g1 g2]|]; [|by intros [= <-]].
    cbn zeta. destruct (electronAPI_readWorkspaceImage P _ _ _) as [[result|e] w];
      [|by intros [= <-]].
    destruct (endsWith _ _); [|discriminate].
    destruct (btoa P _); [discriminate|by intros [= <-]].
  - intros skill workspaceId path st Hp Hno. rewrite loadSkillIcon_run.
    rewrite Hp. cbn [truthy_opt default from_option id]. rewrite Hno.
    destruct (negb (truthy path)); [done|]. by destruct (truthy_opt _).
  - intros skill workspaceId path g1 g2 content w st Hp Hm Hmiss Hsvg Hread.
    rewrite loadSkillIcon_run. rewrite Hp, Hmiss. cbn [truthy_opt default from_option id].
    rewrite (Hmatch _ _ _ Hm), Hm. cbn [negb]. cbn zeta. rewrite Hread, Hsvg.
    eexists. split; [reflexivity|]. cbn. by rewrite lookup_insert_eq.
Qed.

End SkillIcons.

Lemma loadSkillIcon_failure_leaves_cache_witness :
  loadSkillIcon diskPlatform commitSkillMisplaced (lit "ws") (freshState commitDisk)
  = (Normal None, freshState commitDisk).
Proof.
  destruct (loadSkillIcon_failure_leaves_cache diskPlatform) as (_ & Hmismatch & _).
  apply (Hmismatch commitSkillMisplaced (lit "ws") (lit "/tmp/icon.png"));
    reflexivity.
Defined.

(** C8 as stated fails: after the icon of the skill [commit] has been
    loaded, a call for the same skill with a path that does not match the
    pattern returns the cached icon, not [null]. *)
Lemma loadSkillIcon_mismatch_returns_cached :
  let first :=
    loadSkillIcon diskPlatform commitSkill (lit "ws") (freshState commitDisk) in
  let second := loadSkillIcon diskPlatform commitSkillMisplaced (lit "ws") first.2 in
  first.1 = Normal (Some (lit "data:image/png;base64,iVBORw0KGgo="))
  /\ SkillConfig.iconPath commitSkillMisplaced = Some (lit "/tmp/icon.png")
  /\ skillsMatch (lit "/tmp/icon.png") = None
  /\ second.1 = Normal (Some (lit "data:image/png;base64,iVBORw0KGgo="))
  /\ second.1 <> Normal None.
Proof. cbv zeta. repeat split; try (vm_compute; reflexivity). vm_compute. discriminate. Qed.

(** ** The scenarios of the specification *)

(** A source of type [mcp] without icon and without local files: the three
    tiers are tried in order and the favicon collaborator is asked for the
    service URL and the slug. *)
Example linear_falls_through_to_favicon :
  events (loadSourceIcon diskPlatform (inWorkspace "ws" linear) (freshState emptyDisk)).2
  = [ReadWorkspaceImage (lit "ws") (lit "sources/linear/icon.svg");
     ReadWorkspaceImage (lit "ws") (lit "sources/linear/icon.png");
     GetLogoUrl (lit "https://api.linear.app") (Some (lit "linear"))].
Proof. vm_compute. reflexivity. Qed.

(** The fire emoji as icon: the marker, without any collaborator call. *)
Example fire_is_returned_as_marker :
  (loadSourceIcon diskPlatform fireSource (freshState emptyDisk)).1
  = Normal (Some (lit "emoji:" ++ fire))
  /\ events (loadSourceIcon diskPlatform fireSource (freshState emptyDisk)).2 = [].
Proof. split; vm_compute; reflexivity. Qed.

(** An SVG file found by auto-discovery is themed with the fallback color
    and returned as a data URL. *)
Example linear_svg_is_themed :
  (loadSourceIcon diskPlatform (inWorkspace "ws" linear) (freshState linearIconDisk)).1
  = match btoa_base64
            (lit "<svg fill=" ++ dquote ++ lit "#e3e2e5" ++ dquote ++ lit "><path fill="
             ++ dquote ++ lit "#e3e2e5" ++ dquote ++ lit "/></svg>") with
    | Normal encoded => Normal (Some (lit "data:image/svg+xml;base64," ++ encoded))
    | Throw e => Throw e
    end.
Proof. vm_compute. reflexivity. Qed.

(** With a color that contains [>], the root tag found after the
    substitution ends inside the [stroke] value and has no fill attribute
    yet: one is injected although the tag of the input had [fill="none"]. *)
Example odd_color_breaks_the_root_tag :
  hasFillAttr (lit " stroke=" ++ dquote ++ lit "currentColor" ++ dquote ++ lit " fill="
               ++ dquote ++ lit "none" ++ dquote) = true
  /\ themeSvgContent_with (lit ">") svg_stroke_then_fill
     = lit "<svg stroke=" ++ dquote ++ lit " fill=" ++ dquote ++ lit ">" ++ dquote
       ++ lit ">" ++ dquote ++ lit " fill=" ++ dquote ++ lit "none" ++ dquote
       ++ lit "></svg>".
Proof. split; vm_compute; reflexivity. Qed.

(** * Further properties of the icon cache *)

(** ** What a call of a loader changes *)

Section LoaderSteps.
Variable P : Platform.

Lemma loaderStep_call (key : jsstring) (logoKey : option jsstring) (reads : nat)
    (r : Completion (option jsstring)) (workspaceId relativePath : jsstring)
    (w : World P) (st st1 : State P) :
  loaderStep key logoKey reads r
    (call P (ReadWorkspaceImage workspaceId relativePath) w st) st1 ->
  loaderStep key logoKey (S reads) r st st1.
Proof.
  intros (Hicon & Hlogo & evs & Hev & Hr & Hl & Hg). split; [exact Hicon|].
  split; [exact Hlogo|]. cbn in Hev.
  exists (ReadWorkspaceImage workspaceId relativePath :: evs).
  split; [by rewrite Hev, <- app_assoc|]. unfold count in *. cbn. lia.
Qed.

Lemma loaderStep_cached (key : jsstring) (logoKey : option jsstring) (reads : nat)
    (o : option jsstring) (st : State P) :
  truthy_opt o = true ->
  truthy_opt (iconCache st !! key) = false ->
  loaderStep key logoKey reads (Normal o) st
    (with_iconCache P (insert key (default [] o)) st).
Proof.
  intros Ho Hmiss. split; [|split; [by left|]].
  - right. exists (default [] o). destruct o as [v|]; [|done]. done.
  - exists []. split; [by rewrite app_nil_r|]. unfold count. cbn. lia.
Qed.

Lemma loaderStep_quiet (key : jsstring) (logoKey : option jsstring) (reads : nat)
    (r : Completion (option jsstring)) (st : State P) :
  loaderStep key logoKey reads r st st.
Proof.
  split; [by left|]. split; [by left|].
  exists []. split; [by rewrite app_nil_r|]. unfold count. cbn. lia.
Qed.

Lemma faviconFallback_step (config : SourceConfig.t) (cacheKey : jsstring)
    (r : Completion (option jsstring)) (st st1 : State P) :
  truthy_opt (iconCache st !! (lit "source:" ++ cacheKey)) = false ->
  faviconFallback P config cacheKey st = (r, st1) ->
  loaderStep (lit "source:" ++ cacheKey) (logoKeyOf config) 0 r st st1.
Proof.
  intros Hmiss. unfold logoKeyOf.
  by_faviconFallback_cases P config st; intros [= <- <-].
  - destruct (truthy_opt stored) eqn:Hst.
    + by apply loaderStep_cached.
    + apply loaderStep_quiet.
  - split; [|split].
    + destruct (truthy_opt logoUrl) eqn:Hl; [|by left].
      right. exists (default [] logoUrl). destruct logoUrl as [v|]; done.
    + right. exists (logoCacheKey u config), logoUrl.
      by destruct (truthy_opt logoUrl).
    + exists [GetLogoUrl u (logoProvider config)].
      split; [by destruct (truthy_opt logoUrl)|]. unfold count. cbn. lia.
  - split; [by left|]. split.
    + right. by exists (logoCacheKey u config), None.
    + eexists. split; [cbn; by rewrite <- app_assoc|]. unfold count. cbn. lia.
  - apply loaderStep_quiet.
Qed.

Lemma autoDiscover_step (config : SourceConfig.t) (workspaceId cacheKey : jsstring)
    (r : Completion (option jsstring)) (st st1 : State P) :
  truthy_opt (iconCache st !! (lit "source:" ++ cacheKey)) = false ->
  autoDiscover P config workspaceId cacheKey st = (r, st1) ->
  loaderStep (lit "source:" ++ cacheKey) (logoKeyOf config) 2 r st st1.
Proof.
  intros Hmiss. by_autoDiscover_cases.
  - intros [= <- <-]. eapply loaderStep_call. by apply loaderStep_cached.
  - intros [= <- <-]. do 2 eapply loaderStep_call. by apply loaderStep_cached.
  - intros Hfav. do 2 eapply loaderStep_call.
    by apply faviconFallback_step in Hfav.
Qed.

Lemma loadSourceIcon_step (source : Source) (r : Completion (option jsstring))
    (st st1 : State P) :
  loadSourceIcon P source st = (r, st1) ->
  loaderStep (sourceKey source) (logoKeyOf (config source)) 3 r st st1.
Proof.
  rewrite loadSourceIcon_run. cbn zeta.
  destruct (truthy_opt (iconCache st !! sourceKey source)) eqn:Hc.
  { intros [= <- <-]. apply loaderStep_quiet. }
  destruct (isEmojiIcon P (SourceConfig.icon (config source))) eqn:He.
  { intros [= <- <-].
    apply (loaderStep_cached _ _ _
             (Some (EMOJI_ICON_PREFIX ++ default [] (SourceConfig.icon (config source)))));
      done. }
  assert (forall s0 : State P,
    truthy_opt (iconCache s0 !! sourceKey source) = false ->
    autoDiscover P (config source) (workspaceId source)
      (workspaceId source ++ lit ":" ++ SourceConfig.slug (config source)) s0
    = (r, st1) ->
    loaderStep (sourceKey source) (logoKeyOf (config source)) 2 r s0 st1) as Hauto.
  { intros s0 H0 H. by apply autoDiscover_step in H. }
  destruct (isLocalPath _).
  - destruct (electronAPI_readWorkspaceImage P _ _ (world st)) as [a w].
    cbn zeta. destruct (truthy_opt (loadedIcon P _ a w)) eqn:Hl.
    + intros [= <- <-]. eapply loaderStep_call. by apply loaderStep_cached.
    + intros H. eapply loaderStep_call. by apply Hauto.
  - intros H. apply Hauto in H; [|done].
    destruct H as (Hi & Hlg & evs & Hev & Hr & Hrest).
    split; [done|]. split; [done|]. exists evs. split; [done|]. split; [lia|done].
Qed.

End LoaderSteps.

(** ** What [loadSourceIcon] keeps and what it costs *)

Section SourceIconFrame.
Variable P : Platform.

(** X1: a call of [loadSourceIcon] only adds to the two stores. Every
    non-empty entry of the icon store and every entry of the logo-URL store,
    a stored [null] included, is still there with the same value afterwards;
    the only key of the icon store the call can write is the one of its
    source, and the only key of the logo-URL store the one of its service URL
    and slug. *)
Theorem loadSourceIcon_keeps_entries (source : Source)
    (r : Completion (option jsstring)) (st st1 : State P) :
  loadSourceIcon P source st = (r, st1) ->
  (forall k v, iconCache st !! k = Some v -> truthy v = true ->
               iconCache st1 !! k = Some v)
  /\ (forall k, k <> sourceKey source -> iconCache st1 !! k = iconCache st !! k)
  /\ (forall k o, logoUrlCache st !! k = Some o -> logoUrlCache st1 !! k = Some o)
  /\ (forall k, logoKeyOf (config source) <> Some k ->
                logoUrlCache st1 !! k = logoUrlCache st !! k).
Proof.
  intros Hrun. apply loadSourceIcon_step in Hrun.
  destruct Hrun as (Hicon & Hlogo & _).
  split; [|split; [|split]].
  - intros k v Hk Hv. destruct Hicon as [->|(v' & _ & _ & Hmiss & ->)]; [done|].
    destruct (decide (k = sourceKey source)) as [->|Hne].
    + rewrite Hk in Hmiss. cbn in Hmiss. congruence.
    + by rewrite lookup_insert_ne.
  - intros k Hk. destruct Hicon as [->|(v' & _ & _ & _ & ->)]; [done|].
    by rewrite lookup_insert_ne.
  - intros k o Hk. destruct Hlogo as [->|(k' & o' & _ & Hmiss & ->)]; [done|].
    destruct (decide (k = k')) as [->|Hne]; [congruence|].
    by rewrite lookup_insert_ne.
  - intros k Hk. destruct Hlogo as [->|(k' & o' & Hkey & _ & ->)]; [done|].
    rewrite lookup_insert_ne; [done|]. congruence.
Qed.

(** X2: one call of [loadSourceIcon] appends to the log of collaborator
    calls and never rewrites it; it makes at most three file reads and at
    most one favicon lookup, and logs an error only for a favicon lookup
    that it made. *)
Theorem loadSourceIcon_io_bound (source : Source) (st : State P) :
  exists evs,
    events (loadSourceIcon P source st).2 = events st ++ evs
    /\ (count isRead evs <= 3)%nat
    /\ (count isGetLogoUrl evs <= 1)%nat
    /\ (count isLog evs <= count isGetLogoUrl evs)%nat.
Proof.
  destruct (loadSourceIcon P source st) as [r st1] eqn:Hrun.
  apply loadSourceIcon_step in Hrun. by destruct Hrun as (_ & _ & Hev).
Qed.

(** X3: what [loadSourceIcon] resolved to a non-empty string is what
    [getSourceIconSync] reads afterwards for the same workspace and slug,
    without changing anything; for a key without entry the synchronous
    reader answers [null]. *)
Theorem getSourceIconSync_after_load :
  (forall (source : Source) (v : jsstring) (st st1 : State P),
      loadSourceIcon P source st = (Normal (Some v), st1) ->
      truthy v = true ->
      getSourceIconSync P (workspaceId source) (SourceConfig.slug (config source)) st1
      = (Normal (Some v), st1))
  /\ (forall (workspaceId slug : jsstring) (st : State P),
        iconCache st !! (lit "source:" ++ workspaceId ++ lit ":" ++ slug) = None ->
        getSourceIconSync P workspaceId slug st = (Normal None, st)).
Proof.
  split.
  - intros source v st st1 Hrun Hv.
    pose proof (loadSourceIcon_result_cached P _ _ _ _ Hrun Hv) as Hc.
    unfold getSourceIconSync, sourceIconCache_get, iconCache_get. cbn beta.
    by rewrite <- Hc.
  - intros workspaceId slug st Hmiss.
    exact (f_equal (fun o => (Normal o, st)) Hmiss).
Qed.

(** X4: the first tier that yields a non-empty icon decides, and the later
    tiers are not consulted. With an icon string [./file] whose file is read
    as non-empty content that is no SVG, the result is that content after one
    read; without such a string, a non-empty [icon.png] is the result after
    the read of [icon.svg] failed, and no favicon lookup is made. *)
Theorem first_tier_decides :
  (forall (source : Source) (i content : jsstring) (w : World P) (st : State P),
      truthy_opt (iconCache st !! sourceKey source) = false ->
      SourceConfig.icon (config source) = Some i ->
      isEmoji (Emoji_Presentation P) (Emoji P) i = false ->
      startsWith i (lit "./") = true ->
      endsWith (lit "sources/" ++ SourceConfig.slug (config source) ++ lit "/"
                ++ slice i 2) (lit ".svg") = false ->
      electronAPI_readWorkspaceImage P (workspaceId source)
        (lit "sources/" ++ SourceConfig.slug (config source) ++ lit "/" ++ slice i 2)
        (world st) = (Normal content, w) ->
      truthy content = true ->
      exists st1,
        loadSourceIcon P source st = (Normal (Some content), st1)
        /\ events st1
           = events st
             ++ [ReadWorkspaceImage (workspaceId source)
                   (lit "sources/" ++ SourceConfig.slug (config source) ++ lit "/"
                    ++ slice i 2)]
        /\ iconCache st1 = <[sourceKey source := content]> (iconCache st))
  /\ (forall (source : Source) (content e : jsstring) (w1 w2 : World P) (st : State P),
        truthy_opt (iconCache st !! sourceKey source) = false ->
        isEmojiIcon P (SourceConfig.icon (config source)) = false ->
        isLocalPath (SourceConfig.icon (config source)) = false ->
        electronAPI_readWorkspaceImage P (workspaceId source)
          (iconSvgPath (config source)) (world st) = (Throw e, w1) ->
        electronAPI_readWorkspaceImage P (workspaceId source)
          (iconPngPath (config source)) w1 = (Normal content, w2) ->
        truthy content = true ->
        exists st1,
          loadSourceIcon P source st = (Normal (Some content), st1)
          /\ events st1
             = events st
               ++ [ReadWorkspaceImage (workspaceId source) (iconSvgPath (config source));
                   ReadWorkspaceImage (workspaceId source) (iconPngPath (config source))]
          /\ iconCache st1 = <[sourceKey source := content]> (iconCache st)).
Proof.
  split.
  - intros source i content w st Hmiss Hi He Hl Hsvg Hread Hc.
    rewrite loadSourceIcon_run. cbn zeta. rewrite Hmiss, Hi.
    cbn [isEmojiIcon isLocalPath default from_option id].
    rewrite He, andb_false_r, Hl, Hread. unfold loadedIcon. rewrite Hsvg.
    cbn [truthy_opt]. rewrite Hc. eexists. split; [reflexivity|]. done.
  - intros source content e w1 w2 st Hmiss He Hl H1 H2 Hc.
    rewrite loadSourceIcon_run. cbn zeta. rewrite Hmiss, He, Hl.
    rewrite autoDiscover_run, H1. cbn zeta. cbn [loadedIcon truthy_opt].
    rewrite H2. cbn zeta.
    assert (endsWith (iconPngPath (config source)) (lit ".svg") = false) as Hpng.
    { unfold endsWith, iconPngPath. rewrite !rev_app_distr. reflexivity. }
    unfold loadedIcon. rewrite Hpng. cbn [truthy_opt]. rewrite Hc.
    eexists. split; [reflexivity|]. split; [|done]. cbn. by rewrite <- app_assoc.
Qed.

End SourceIconFrame.

Lemma loadSourceIcon_keeps_entries_witness :
  iconCache (loadSourceIcon diskPlatform docsSource populatedState).2
    !! lit "skill:ws:commit"
  = Some (lit "data:image/png;base64,AA==").
Proof.
  destruct (loadSourceIcon_keeps_entries diskPlatform docsSource
              (loadSourceIcon diskPlatform docsSource populatedState).1
              populatedState
              (loadSourceIcon diskPlatform docsSource populatedState).2
              (surjective_pairing _)) as (Hkeeps & _).
  apply Hkeeps; reflexivity.
Defined.

Lemma getSourceIconSync_after_load_witness :
  getSourceIconSync diskPlatform (lit "ws") (lit "x")
    (with_iconCache diskPlatform
       (insert (sourceKey fireSource) (EMOJI_ICON_PREFIX ++ fire))
       (freshState emptyDisk))
  = (Normal (Some (EMOJI_ICON_PREFIX ++ fire)),
     with_iconCache diskPlatform
       (insert (sourceKey fireSource) (EMOJI_ICON_PREFIX ++ fire))
       (freshState emptyDisk)).
Proof.
  destruct (getSourceIconSync_after_load diskPlatform) as [Hread _].
  apply (Hread fireSource (EMOJI_ICON_PREFIX ++ fire) (freshState emptyDisk));
    reflexivity.
Defined.

Lemma first_tier_decides_witness :
  exists st1,
    loadSourceIcon diskPlatform docsSource (freshState docsDisk)
    = (Normal (Some (lit "data:image/png;base64,bG9nbw==")), st1)
    /\ events st1
       = events (freshState docsDisk)
         ++ [ReadWorkspaceImage (lit "ws") (lit "sources/docs/logo.png")]
    /\ iconCache st1
       = <[sourceKey docsSource := lit "data:image/png;base64,bG9nbw=="]> ∅.
Proof.
  destruct (first_tier_decides diskPlatform) as [Hlocal _].
  apply (Hlocal docsSource (lit "./logo.png") (lit "data:image/png;base64,bG9nbw==")
           docsDisk (freshState docsDisk)); reflexivity.
Defined.

(** ** Cache keys *)

Lemma colon_free_key_inj (w1 s1 w2 s2 : jsstring) :
  hasColon w1 = false -> hasColon w2 = false ->
  w1 ++ lit ":" ++ s1 = w2 ++ lit ":" ++ s2 -> w1 = w2 /\ s1 = s2.
Proof.
  revert w2. induction w1 as [|c w1 IH]; intros [|d w2]; cbn [hasColon existsb app].
  - intros _ _ H. split; [done|]. by apply app_inv_head in H.
  - intros _ [Hd _]%orb_false_iff H. injection H as H _.
    subst d. done.
  - intros [Hc _]%orb_false_iff _ H. injection H as H _.
    subst c. done.
  - intros [_ H1]%orb_false_iff [_ H2]%orb_false_iff H. injection H as -> H.
    destruct (IH w2 H1 H2 H) as [-> ->]. done.
Qed.

Section CacheKeys.
Variable P : Platform.

(** X5: as long as workspace identifiers contain no colon, two sources
    share their key of the icon store only when workspace and slug coincide,
    and resolving the icon of one source leaves what [getSourceIconSync]
    reads for any other workspace and slug as it was. *)
Theorem source_keys_do_not_collide (source : Source) (workspaceId' slug' : jsstring)
    (r : Completion (option jsstring)) (st st1 : State P) :
  hasColon (workspaceId source) = false ->
  hasColon workspaceId' = false ->
  (workspaceId source, SourceConfig.slug (config source)) <> (workspaceId', slug') ->
  loadSourceIcon P source st = (r, st1) ->
  (getSourceIconSync P workspaceId' slug' st1).1
  = (getSourceIconSync P workspaceId' slug' st).1.
Proof.
  intros Hc Hc' Hne Hrun. apply loadSourceIcon_step in Hrun as (Hicon & _).
  unfold getSourceIconSync, sourceIconCache_get, iconCache_get. cbn [fst].
  f_equal. destruct Hicon as [->|(v & _ & _ & _ & ->)]; [done|].
  apply lookup_insert_ne. unfold sourceKey. intros Heq.
  apply app_inv_head in Heq.
  apply colon_free_key_inj in Heq as [H1 H2]; [|done|done]. congruence.
Qed.

End CacheKeys.

Lemma source_keys_do_not_collide_witness :
  (getSourceIconSync diskPlatform (lit "other") (lit "x")
     (loadSourceIcon diskPlatform fireSource (freshState emptyDisk)).2).1
  = (getSourceIconSync diskPlatform (lit "other") (lit "x") (freshState emptyDisk)).1.
Proof.
  apply (source_keys_do_not_collide diskPlatform fireSource (lit "other") (lit "x")
           (loadSourceIcon diskPlatform fireSource (freshState emptyDisk)).1
           (freshState emptyDisk)
           (loadSourceIcon diskPlatform fireSource (freshState emptyDisk)).2).
  - reflexivity.
  - reflexivity.
  - vm_compute. discriminate.
  - apply surjective_pairing.
Defined.

(** With a colon in a workspace identifier the keys do collide: the icon
    resolved for slug [c] of workspace [a:b] is served for slug [b:c] of
    workspace [a]. *)
Example colon_in_workspace_id_collides :
  (getSourceIconSync diskPlatform (lit "a") (lit "b:c")
     (loadSourceIcon diskPlatform colonSourceA (freshState emptyDisk)).2).1
  = Normal (Some (EMOJI_ICON_PREFIX ++ fire))
  /\ (loadSourceIcon diskPlatform colonSourceB
        (loadSourceIcon diskPlatform colonSourceA (freshState emptyDisk)).2).1
     = Normal (Some (EMOJI_ICON_PREFIX ++ fire)).
Proof. split; vm_compute; reflexivity. Qed.

(** ** The path of a skill icon *)

Lemma span_spec (f : N -> bool) (s a b : jsstring) :
  span f s = (a, b) ->
  s = a ++ b /\ forallb f a = true
  /\ (b = [] \/ exists c r, b = c :: r /\ f c = false).
Proof.
  revert a b. induction s as [|c s IH]; intros a b; cbn.
  - intros [= <- <-]. eauto.
  - destruct (f c) eqn:Hc.
    + destruct (span f s) as [a' b'] eqn:Hs. intros [= <- <-].
      destruct (IH _ _ eq_refl) as (-> & Ha & Hb). cbn. by rewrite Hc, Ha.
    + intros [= <- <-]. split; [done|]. split; [done|]. right. eauto.
Qed.

Lemma span_stops (f : N -> bool) (a r : jsstring) (c : N) :
  forallb f a = true -> f c = false -> span f (a ++ c :: r) = (a, c :: r).
Proof.
  intros Ha Hc. induction a as [|d a IH]; cbn; [by rewrite Hc|].
  cbn in Ha. apply andb_true_iff in Ha as [-> Ha]. by rewrite (IH Ha).
Qed.

Lemma skillsMatchAt_Some (s group1 group2 : jsstring) :
  skillsMatchAt s = Some (group1, group2) <->
  s = skillRelativePath group1 group2
  /\ truthy group1 = true /\ hasSlash group1 = false
  /\ truthy group2 = true
  /\ forallb (fun c => negb (isLineTerminator c)) group2 = true.
Proof.
  unfold skillsMatchAt, skillRelativePath. split.
  - destruct (startsWith s (lit "skills/")) eqn:Hs; [|done].
    apply startsWith_spec in Hs as [r ->].
    rewrite drop_app_length' by reflexivity.
    destruct (span _ r) as [g1 b] eqn:Hspan.
    apply span_spec in Hspan as (-> & Hg1 & [->|(c & g2 & -> & Hc)]); [done|].
    destruct (truthy g1 && truthy g2 && forallb _ g2) eqn:Hok; [|done].
    intros [= <- <-].
    apply andb_true_iff in Hok as [[H1 H2]%andb_true_iff H3].
    apply negb_false_iff, N.eqb_eq in Hc as ->.
    repeat split; try done.
    unfold hasSlash. clear -Hg1. induction g1 as [|d g IH]; [done|].
    cbn in *. apply andb_true_iff in Hg1 as [Hd Hg].
    apply negb_true_iff in Hd. by rewrite Hd, (IH Hg).
  - intros (-> & H1 & Hno & H2 & H3).
    rewrite startsWith_app. rewrite drop_app_length' by reflexivity.
    rewrite (span_stops _ group1 group2 SLASH).
    + by rewrite H1, H2, H3.
    + clear -Hno. induction group1 as [|d g IH]; [done|].
      cbn in *. apply orb_false_iff in Hno as [Hd Hg]. by rewrite Hd, (IH Hg).
    + by rewrite N.eqb_refl.
Qed.

(** X6: when the pattern of line 299 matches an icon path, the path that is
    read, [skills/{group1}/{group2}], is a suffix of the icon path; the
    first group is a non-empty folder name without slash, the second a
    non-empty remainder without line terminator. Conversely every path that
    ends in such a suffix matches. *)
Theorem skillsMatch_reads_a_suffix :
  (forall iconPath group1 group2 : jsstring,
      skillsMatch iconPath = Some (group1, group2) ->
      exists before,
        iconPath = before ++ skillRelativePath group1 group2
        /\ truthy group1 = true /\ hasSlash group1 = false
        /\ truthy group2 = true
        /\ forallb (fun c => negb (isLineTerminator c)) group2 = true)
  /\ (forall before group1 group2 : jsstring,
        truthy group1 = true -> hasSlash group1 = false ->
        truthy group2 = true ->
        forallb (fun c => negb (isLineTerminator c)) group2 = true ->
        skillsMatch (before ++ skillRelativePath group1 group2) <> None).
Proof.
  split.
  - intros iconPath. induction iconPath as [|c s IH]; intros g1 g2.
    + cbn. done.
    + cbn [skillsMatch].
      destruct (skillsMatchAt (c :: s)) as [[a b]|] eqn:Hat.
      * intros [= <- <-]. apply skillsMatchAt_Some in Hat as (-> & H).
        by exists [].
      * intros H. destruct (IH _ _ H) as (before & -> & Hrest).
        by exists (c :: before).
  - intros before g1 g2 H1 Hno H2 H3.
    assert (skillsMatchAt (skillRelativePath g1 g2) = Some (g1, g2)) as Hat
      by (by apply skillsMatchAt_Some).
    induction before as [|c before IH].
    + cbn [app]. destruct (skillRelativePath g1 g2) as [|c t] eqn:Hp; [done|].
      cbn [skillsMatch]. by rewrite Hat.
    + cbn [app skillsMatch].
      destruct (skillsMatchAt (c :: before ++ skillRelativePath g1 g2)) as [[a b]|];
        [discriminate|exact IH].
Qed.

Lemma skillsMatch_reads_a_suffix_witness :
  exists before,
    lit "/home/u/.craft/skills/commit/icon.png"
    = before ++ skillRelativePath (lit "commit") (lit "icon.png")
    /\ truthy (lit "commit") = true /\ hasSlash (lit "commit") = false
    /\ truthy (lit "icon.png") = true
    /\ forallb (fun c => negb (isLineTerminator c)) (lit "icon.png") = true.
Proof.
  destruct skillsMatch_reads_a_suffix as [Hsuffix _].
  apply Hsuffix. reflexivity.
Defined.

(** ** What [loadSkillIcon] changes *)

Section SkillIconFrame.
Variable P : Platform.

(** X7: [loadSkillIcon] always resolves, never rejects. One call makes at
    most one file read and no favicon lookup, leaves the logo-URL store as
    it is, writes no key of the icon store but the one of its skill, and
    keeps every non-empty entry of the icon store. *)
Theorem loadSkillIcon_is_contained (skill : SkillConfig.t) (workspaceId : jsstring)
    (st : State P) :
  exists r st1 evs,
    loadSkillIcon P skill workspaceId st = (Normal r, st1)
    /\ logoUrlCache st1 = logoUrlCache st
    /\ events st1 = events st ++ evs
    /\ (count isRead evs <= 1)%nat
    /\ count isGetLogoUrl evs = 0%nat
    /\ (forall k, k <> skillKey skill workspaceId ->
                  iconCache st1 !! k = iconCache st !! k)
    /\ (forall k v, iconCache st !! k = Some v -> truthy v = true ->
                    iconCache st1 !! k = Some v).
Proof.
  rewrite loadSkillIcon_run.
  assert (forall r, exists (r' : option jsstring) (st1 : State P) evs,
    (Normal r, st) = (Normal r', st1)
    /\ logoUrlCache st1 = logoUrlCache st
    /\ events st1 = events st ++ evs
    /\ (count isRead evs <= 1)%nat
    /\ count isGetLogoUrl evs = 0%nat
    /\ (forall k, k <> skillKey skill workspaceId ->
                  iconCache st1 !! k = iconCache st !! k)
    /\ (forall k v, iconCache st !! k = Some v -> truthy v = true ->
                    iconCache st1 !! k = Some v)) as Hquiet.
  { intros r. exists r, st, []. rewrite app_nil_r. unfold count. cbn.
    repeat split; first [done|lia]. }
  destruct (negb _); [apply Hquiet|].
  destruct (truthy_opt (iconCache st !! skillKey skill workspaceId)) eqn:Hc;
    [apply Hquiet|].
  destruct (skillsMatch _) as [[g1 g2]|]; [|apply Hquiet].
  cbn zeta. destruct (electronAPI_readWorkspaceImage P _ _ _) as [[result|e] w].
  - assert (forall url : jsstring, exists (r' : option jsstring) (st1 : State P) evs,
      (Normal (Some url),
       with_iconCache P (insert (skillKey skill workspaceId) url)
         (call P (ReadWorkspaceImage workspaceId (skillRelativePath g1 g2)) w st))
      = (Normal r', st1)
      /\ logoUrlCache st1 = logoUrlCache st
      /\ events st1 = events st ++ evs
      /\ (count isRead evs <= 1)%nat
      /\ count isGetLogoUrl evs = 0%nat
      /\ (forall k, k <> skillKey skill workspaceId ->
                    iconCache st1 !! k = iconCache st !! k)
      /\ (forall k v, iconCache st !! k = Some v -> truthy v = true ->
                      iconCache st1 !! k = Some v)) as Hset.
    { intros url. do 3 eexists. split; [reflexivity|]. split; [done|].
      split; [reflexivity|]. unfold count. cbn. split; [lia|]. split; [done|].
      split.
      - intros k Hk. by rewrite lookup_insert_ne.
      - intros k v Hk Hv. rewrite lookup_insert_ne; [done|]. intros Heq.
        subst k. rewrite Hk in Hc. cbn in Hc. congruence. }
    destruct (endsWith _ _); [|apply Hset].
    destruct (btoa P _); [apply Hset|].
    do 3 eexists. split; [reflexivity|]. split; [done|].
    split; [cbn; by rewrite <- app_assoc|]. unfold count. cbn.
    repeat split; first [done|lia].
  - do 3 eexists. split; [reflexivity|]. split; [done|].
    split; [cbn; by rewrite <- app_assoc|]. unfold count. cbn.
    repeat split; first [done|lia].
Qed.

(** X8: what [loadSkillIcon] resolved to a non-empty string is what
    [getSkillIconSync] reads afterwards for the same workspace and slug, and
    a second call for the skill returns it again without any collaborator
    call or change of state. *)
Theorem loadSkillIcon_then_cached (skill : SkillConfig.t) (workspaceId v : jsstring)
    (st st1 : State P) :
  loadSkillIcon P skill workspaceId st = (Normal (Some v), st1) ->
  truthy v = true ->
  getSkillIconSync P workspaceId (SkillConfig.slug skill) st1 = (Normal (Some v), st1)
  /\ loadSkillIcon P skill workspaceId st1 = (Normal (Some v), st1).
Proof.
  intros Hrun Hv.
  assert (negb (truthy_opt (SkillConfig.iconPath skill)) = false
          /\ iconCache st1 !! skillKey skill workspaceId = Some v) as [Hpath Hc].
  { revert Hrun. rewrite loadSkillIcon_run.
    destruct (negb _); [done|]. split; [done|]. revert Hrun.
    destruct (truthy_opt (iconCache st !! _));
      [intros [= Hv' Hst]; by rewrite <- Hst|].
    destruct (skillsMatch _) as [[g1 g2]|]; [|done].
    cbn zeta. destruct (electronAPI_readWorkspaceImage P _ _ _) as [[result|e] w];
      [|done].
    destruct (endsWith _ _).
    - destruct (btoa P _); [|done]. intros [= <- <-]. cbn. by rewrite lookup_insert_eq.
    - intros [= <- <-]. cbn. by rewrite lookup_insert_eq. }
  split.
  - exact (f_equal (fun o => (Normal o, st1)) Hc).
  - rewrite loadSkillIcon_run, Hpath, Hc. cbn [truthy_opt]. by rewrite Hv.
Qed.

(** X9: a skill icon file without content is resolved to the empty string,
    not to [null], and the empty string is written to the icon store; being
    falsy it is never served from there, so the next call for the skill
    reads the file again. *)
Theorem loadSkillIcon_empty_file (skill : SkillConfig.t)
    (workspaceId path group1 group2 : jsstring) (w : World P) (st : State P) :
  SkillConfig.iconPath skill = Some path ->
  skillsMatch path = Some (group1, group2) ->
  truthy_opt (iconCache st !! skillKey skill workspaceId) = false ->
  endsWith (skillRelativePath group1 group2) (lit ".svg") = false ->
  electronAPI_readWorkspaceImage P workspaceId (skillRelativePath group1 group2)
    (world st) = (Normal [], w) ->
  exists st1,
    loadSkillIcon P skill workspaceId st = (Normal (Some []), st1)
    /\ iconCache st1 !! skillKey skill workspaceId = Some []
    /\ exists st2 after,
         (loadSkillIcon P skill workspaceId st1).2 = st2
         /\ events st2
            = events st1
              ++ ReadWorkspaceImage workspaceId (skillRelativePath group1 group2)
                 :: after.
Proof.
  intros Hp Hm Hmiss Hsvg Hread.
  assert (truthy path = true) as Htp by (by destruct path).
  rewrite loadSkillIcon_run, Hp, Hmiss. cbn [truthy_opt default from_option id].
  rewrite Htp, Hm. cbn [negb]. cbn zeta. rewrite Hread, Hsvg.
  eexists. split; [reflexivity|]. split; [cbn; by rewrite lookup_insert_eq|].
  rewrite loadSkillIcon_run, Hp. cbn [truthy_opt default from_option id].
  rewrite Htp. cbn [negb iconCache with_iconCache]. rewrite lookup_insert_eq.
  cbn [truthy_opt truthy]. rewrite Hm. cbn zeta. cbn [world call with_iconCache].
  destruct (electronAPI_readWorkspaceImage P workspaceId
              (skillRelativePath group1 group2) w) as [[result|e] w'].
  - rewrite Hsvg. do 2 eexists. split; [reflexivity|]. cbn. reflexivity.
  - do 2 eexists. split; [reflexivity|]. cbn. rewrite <- app_assoc. reflexivity.
Qed.

End SkillIconFrame.

Lemma loadSkillIcon_is_contained_witness :
  exists r st1 evs,
    loadSkillIcon diskPlatform commitSkill (lit "ws") populatedState = (Normal r, st1)
    /\ logoUrlCache st1 = logoUrlCache populatedState
    /\ events st1 = events populatedState ++ evs
    /\ (count isRead evs <= 1)%nat
    /\ count isGetLogoUrl evs = 0%nat
    /\ (forall k, k <> skillKey commitSkill (lit "ws") ->
                  iconCache st1 !! k = iconCache populatedState !! k)
    /\ (forall k v, iconCache populatedState !! k = Some v -> truthy v = true ->
                    iconCache st1 !! k = Some v).
Proof. exact (loadSkillIcon_is_contained diskPlatform commitSkill (lit "ws") populatedState). Defined.

Lemma loadSkillIcon_then_cached_witness :
  (getSkillIconSync diskPlatform (lit "ws") (lit "commit")
     (with_iconCache diskPlatform
        (insert (skillKey commitSkill (lit "ws"))
           (lit "data:image/png;base64,iVBORw0KGgo="))
        (call diskPlatform
           (ReadWorkspaceImage (lit "ws") (lit "skills/commit/icon.png")) commitDisk
           (freshState commitDisk)))).1
  = Normal (Some (lit "data:image/png;base64,iVBORw0KGgo=")).
Proof.
  destruct (loadSkillIcon_then_cached diskPlatform commitSkill (lit "ws")
              (lit "data:image/png;base64,iVBORw0KGgo=") (freshState commitDisk)
              (with_iconCache diskPlatform
                 (insert (skillKey commitSkill (lit "ws"))
                    (lit "data:image/png;base64,iVBORw0KGgo="))
                 (call diskPlatform
                    (ReadWorkspaceImage (lit "ws") (lit "skills/commit/icon.png"))
                    commitDisk (freshState commitDisk))))
    as [Hsync _]; [reflexivity|reflexivity|].
  exact (f_equal fst Hsync).
Defined.

Lemma loadSkillIcon_empty_file_witness :
  exists st1,
    loadSkillIcon diskPlatform blankSkill (lit "ws") (freshState blankDisk)
    = (Normal (Some []), st1)
    /\ iconCache st1 !! skillKey blankSkill (lit "ws") = Some []
    /\ exists st2 after,
         (loadSkillIcon diskPlatform blankSkill (lit "ws") st1).2 = st2
         /\ events st2
            = events st1
              ++ ReadWorkspaceImage (lit "ws")
                   (skillRelativePath (lit "blank") (lit "icon.png")) :: after.
Proof.
  apply (loadSkillIcon_empty_file diskPlatform blankSkill (lit "ws")
           (lit "/home/u/.craft/skills/blank/icon.png") (lit "blank") (lit "icon.png")
           blankDisk (freshState blankDisk)); reflexivity.
Defined.

(** ** The three views *)

Lemma view_keys_differ (a b : ViewName) (key key' : jsstring) :
  a <> b -> viewPrefix a ++ key <> viewPrefix b ++ key'.
Proof.
  intros Hab H. destruct a, b; try done; cbv [viewPrefix lit] in H; cbn in H;
    discriminate H.
Qed.

Lemma view_key_outside (a b : ViewName) (key' : jsstring) :
  a <> b -> startsWith (viewPrefix b ++ key') (viewPrefix a) = false.
Proof.
  intros Hab. apply not_true_is_false. intros [r Hr]%startsWith_spec.
  by apply (view_keys_differ b a key' r).
Qed.

Section ViewProperties.
Variable P : Platform.

Lemma view_get_run (a : ViewName) (key : jsstring) (st : State P) :
  view_get P (viewOf P a) key st = (Normal (iconCache st !! (viewPrefix a ++ key)), st).
Proof. by destruct a. Qed.

Lemma view_has_run (a : ViewName) (key : jsstring) (st : State P) :
  view_has P (viewOf P a) key st
  = (Normal (match iconCache st !! (viewPrefix a ++ key) with
             | Some _ => true
             | None => false
             end), st).
Proof. by destruct a. Qed.

Lemma view_set_run (a : ViewName) (key value : jsstring) (st : State P) :
  view_set P (viewOf P a) key value st
  = (Normal tt, with_iconCache P (insert (viewPrefix a ++ key) value) st).
Proof. by destruct a. Qed.

Lemma view_delete_run (a : ViewName) (key : jsstring) (st : State P) :
  (view_delete P (viewOf P a) key st).2
  = with_iconCache P (delete (viewPrefix a ++ key)) st.
Proof. by destruct a. Qed.

Lemma view_clear_run (a : ViewName) (st : State P) :
  view_clear P (viewOf P a) st
  = (Normal tt, with_iconCache P (deleteByPrefix (viewPrefix a)) st).
Proof. by destruct a. Qed.

(** X10: the three legacy views [sourceIconCache], [skillIconCache] and
    [statusIconCache] share one map without sharing an entry. What [set],
    [delete] or [clear] of one view does is not seen through another view,
    whatever the keys, and touches neither the logo-URL store nor the world;
    through its own view a value set is read back, a key deleted is gone, and
    after [clear] the view has no key left. *)
Theorem views_are_isolated (a b : ViewName) (key key' value : jsstring)
    (st st' : State P) :
  a <> b ->
  st' = (view_set P (viewOf P a) key value st).2
  \/ st' = (view_delete P (viewOf P a) key st).2
  \/ st' = (view_clear P (viewOf P a) st).2 ->
  ((view_get P (viewOf P b) key' st').1 = (view_get P (viewOf P b) key' st).1
   /\ (view_has P (viewOf P b) key' st').1 = (view_has P (viewOf P b) key' st).1
   /\ logoUrlCache st' = logoUrlCache st
   /\ world st' = world st
   /\ events st' = events st)
  /\ (view_get P (viewOf P a) key (view_set P (viewOf P a) key value st).2).1
     = Normal (Some value)
  /\ (view_has P (viewOf P a) key (view_delete P (viewOf P a) key st).2).1
     = Normal false
  /\ (view_has P (viewOf P a) key' (view_clear P (viewOf P a) st).2).1
     = Normal false.
Proof.
  intros Hab Hst'. split; [|split; [|split]].
  - assert (iconCache st' !! (viewPrefix b ++ key') = iconCache st !! (viewPrefix b ++ key')
            /\ logoUrlCache st' = logoUrlCache st /\ world st' = world st
            /\ events st' = events st) as (Hlook & Hlogo & Hw & Hev).
    { destruct Hst' as [->|[->| ->]].
      - rewrite view_set_run. cbn [snd with_iconCache iconCache logoUrlCache world events].
        split; [|done]. apply lookup_insert_ne. by apply view_keys_differ.
      - rewrite view_delete_run. cbn [with_iconCache iconCache logoUrlCache world events].
        split; [|done]. apply lookup_delete_ne. by apply view_keys_differ.
      - rewrite view_clear_run. cbn [snd with_iconCache iconCache logoUrlCache world events].
        split; [|done]. rewrite deleteByPrefix_lookup.
        by rewrite (view_key_outside a b key' Hab). }
    rewrite !view_get_run, !view_has_run. cbn [fst]. by rewrite Hlook.
  - rewrite view_set_run, view_get_run. cbn [fst snd with_iconCache iconCache].
    by rewrite lookup_insert_eq.
  - rewrite view_delete_run, view_has_run. cbn [fst with_iconCache iconCache].
    by rewrite lookup_delete_eq.
  - rewrite view_clear_run, view_has_run. cbn [fst snd with_iconCache iconCache].
    rewrite deleteByPrefix_lookup. by rewrite startsWith_app.
Qed.

End ViewProperties.

Lemma views_are_isolated_witness :
  (view_get diskPlatform (viewOf diskPlatform SkillIcons) (lit "ws:commit")
     (view_clear diskPlatform (viewOf diskPlatform SourceIcons) populatedState).2).1
  = (view_get diskPlatform (viewOf diskPlatform SkillIcons) (lit "ws:commit")
       populatedState).1
  /\ (view_has diskPlatform (viewOf diskPlatform SourceIcons) (lit "ws:linear")
        (view_clear diskPlatform (viewOf diskPlatform SourceIcons) populatedState).2).1
     = Normal false.
Proof.
  destruct (views_are_isolated diskPlatform SourceIcons SkillIcons (lit "ws:linear")
              (lit "ws:commit") [] populatedState
              (view_clear diskPlatform (viewOf diskPlatform SourceIcons) populatedState).2
              ltac:(discriminate) ltac:(right; right; reflexivity))
    as ((Hget & _) & _ & _ & Hcleared).
  split; [exact Hget|].
  exact (proj2 (proj2 (proj2
    (views_are_isolated diskPlatform SourceIcons SkillIcons (lit "ws:linear")
       (lit "ws:linear") [] populatedState
       (view_clear diskPlatform (viewOf diskPlatform SourceIcons) populatedState).2
       ltac:(discriminate) ltac:(right; right; reflexivity))))).
Defined.

(** ** What the result of [loadSourceIcon] depends on *)

Section Locality.
Variable P : Platform.

Lemma sameOutcome_call {A : Type} (e : Event) (w : World P) (st st' : State P)
    (out out' : Completion A * State P) :
  sameOutcome (call P e w st) (call P e w st') out out' ->
  sameOutcome st st' out out'.
Proof.
  intros (Hr & Hw & evs & Hev & Hev'). split; [done|]. split; [done|].
  exists (e :: evs). cbn in Hev, Hev'. rewrite <- app_assoc in Hev, Hev'. done.
Qed.

(** Two runs that end with the same completion and only write to the icon
    store. *)
Lemma sameOutcome_stored {A : Type} (r : Completion A) (b : bool)
    (f : gmap jsstring jsstring -> gmap jsstring jsstring) (st st' : State P) :
  world st = world st' ->
  sameOutcome st st'
    (r, if b then with_iconCache P f st else st)
    (r, if b then with_iconCache P f st' else st').
Proof.
  intros Hw. split; [done|]. split; [by destruct b|].
  exists []. rewrite !app_nil_r. by destruct b.
Qed.

Lemma faviconFallback_local (config : SourceConfig.t) (cacheKey : jsstring)
    (st st' : State P) :
  world st = world st' ->
  (forall k, logoKeyOf config = Some k -> logoUrlCache st !! k = logoUrlCache st' !! k) ->
  sameOutcome st st'
    (faviconFallback P config cacheKey st) (faviconFallback P config cacheKey st').
Proof.
  intros Hw Hlogo. unfold logoKeyOf in Hlogo.
  destruct (deriveServiceUrl config) as [u|] eqn:Hu.
  - specialize (Hlogo _ eq_refl).
    destruct (logoUrlCache st' !! logoCacheKey u config) as [stored|] eqn:Hs'.
    + rewrite (faviconFallback_stored P _ _ _ _ _ Hu Hlogo).
      rewrite (faviconFallback_stored P _ _ _ _ _ Hu Hs').
      by apply sameOutcome_stored.
    + rewrite (faviconFallback_miss P _ _ _ _ Hu Hlogo).
      rewrite (faviconFallback_miss P _ _ _ _ Hu Hs'). rewrite <- Hw.
      destruct (electronAPI_getLogoUrl P u (logoProvider config) (world st))
        as [[logoUrl|error] w]; cbn zeta.
      * eapply sameOutcome_call. split; [done|]. split; [by destruct (truthy_opt logoUrl)|].
        exists []. rewrite !app_nil_r. by destruct (truthy_opt logoUrl).
      * eapply sameOutcome_call. split; [done|]. split; [done|].
        eexists. split; reflexivity.
  - rewrite !(faviconFallback_no_url P _ _ _ Hu).
    split; [done|]. split; [done|]. exists []. by rewrite !app_nil_r.
Qed.

Lemma autoDiscover_local (config : SourceConfig.t) (workspaceId cacheKey : jsstring)
    (st st' : State P) :
  world st = world st' ->
  (forall k, logoKeyOf config = Some k -> logoUrlCache st !! k = logoUrlCache st' !! k) ->
  sameOutcome st st'
    (autoDiscover P config workspaceId cacheKey st)
    (autoDiscover P config workspaceId cacheKey st').
Proof.
  intros Hw Hlogo. rewrite !autoDiscover_run. rewrite <- Hw.
  destruct (electronAPI_readWorkspaceImage P workspaceId (iconSvgPath config) (world st))
    as [a1 w1]. cbn zeta. eapply sameOutcome_call.
  destruct (truthy_opt (loadedIcon P (iconSvgPath config) a1 w1)).
  { by apply (sameOutcome_stored _ true). }
  destruct (electronAPI_readWorkspaceImage P workspaceId (iconPngPath config) w1)
    as [a2 w2]. cbn zeta. eapply sameOutcome_call.
  destruct (truthy_opt (loadedIcon P (iconPngPath config) a2 w2)).
  { by apply (sameOutcome_stored _ true). }
  by apply faviconFallback_local.
Qed.

Lemma loadSourceIcon_local (source : Source) (st st' : State P) :
  sameEntries source st st' ->
  sameOutcome st st' (loadSourceIcon P source st) (loadSourceIcon P source st').
Proof.
  intros (Hicon & Hlogo & Hw). rewrite !loadSourceIcon_run. cbn zeta.
  rewrite <- Hicon, <- Hw.
  destruct (truthy_opt (iconCache st !! sourceKey source)).
  { split; [done|]. split; [done|]. exists []. by rewrite !app_nil_r. }
  destruct (isEmojiIcon P _).
  { by apply (sameOutcome_stored _ true). }
  destruct (isLocalPath _); [|by apply autoDiscover_local].
  destruct (electronAPI_readWorkspaceImage P _ _ (world st)) as [a w]. cbn zeta.
  eapply sameOutcome_call.
  destruct (truthy_opt (loadedIcon P _ a w)).
  { by apply (sameOutcome_stored _ true). }
  by apply autoDiscover_local.
Qed.

(** X11: what [loadSourceIcon] resolves to, the calls it makes and the world
    it leaves depend on the two stores only through the entries of the
    source: its key of the icon store and, when it has a service URL, its
    key of the logo-URL store. Whatever else the stores hold makes no
    difference. *)
Theorem loadSourceIcon_reads_own_entries (source : Source) (st st' : State P) :
  sameEntries source st st' ->
  sameOutcome st st' (loadSourceIcon P source st) (loadSourceIcon P source st').
Proof. exact (loadSourceIcon_local source st st'). Qed.

Lemma resolvedAfresh_intro (source : Source) (st' : State P) :
  iconCache st' !! sourceKey source = None ->
  logoUrlCache st' = ∅ ->
  resolvedAfresh source st'.
Proof.
  intros Hicon Hlogo. split.
  - unfold getSourceIconSync, sourceIconCache_get, iconCache_get. cbn [fst].
    f_equal. exact Hicon.
  - apply loadSourceIcon_local. split; [|split; [|done]].
    + by rewrite Hicon.
    + intros k _. by rewrite Hlogo.
Qed.

(** X12: which clear operation makes a source icon be resolved anew. After
    [clearIconCaches], after [clearSourceIconCaches] and after the avatar's
    [clearSourceIconCache] nothing is cached for any source, and
    [loadSourceIcon] does what it does in a renderer with empty stores: same
    result, same calls, favicon lookup included. [clearSkillIconCaches] and
    [clearStatusIconCaches] change nothing for [loadSourceIcon]. The avatar's
    [clearSourceIconCache] forgets the skill icons too, which
    [clearSourceIconCaches] keeps. *)
Theorem clear_then_load (source : Source) (st : State P) :
  resolvedAfresh source (clearIconCaches P st).2
  /\ resolvedAfresh source (clearSourceIconCaches P st).2
  /\ resolvedAfresh source (clearSourceIconCache P st).2
  /\ sameOutcome (clearSkillIconCaches P st).2 st
       (loadSourceIcon P source (clearSkillIconCaches P st).2)
       (loadSourceIcon P source st)
  /\ sameOutcome (clearStatusIconCaches P st).2 st
       (loadSourceIcon P source (clearStatusIconCaches P st).2)
       (loadSourceIcon P source st)
  /\ (forall workspaceId slug : jsstring,
        (getSkillIconSync P workspaceId slug (clearSourceIconCache P st).2).1
        = Normal None
        /\ (getSkillIconSync P workspaceId slug (clearSourceIconCaches P st).2).1
           = (getSkillIconSync P workspaceId slug st).1).
Proof.
  split; [by apply resolvedAfresh_intro|].
  split.
  { apply resolvedAfresh_intro; [|done].
    cbn [clearSourceIconCaches sourceIconCache_clear bind snd with_iconCache
         with_logoUrlCache iconCache].
    rewrite deleteByPrefix_lookup. unfold sourceKey. by rewrite startsWith_app. }
  split; [by apply resolvedAfresh_intro|].
  split.
  { apply loadSourceIcon_local. split; [|done].
    cbn [clearSkillIconCaches skillIconCache_clear snd with_iconCache iconCache].
    rewrite deleteByPrefix_lookup.
    pose proof (view_key_outside SkillIcons SourceIcons
                  (workspaceId source ++ lit ":" ++ SourceConfig.slug (config source))
                  ltac:(done)) as Hout.
    cbn [viewPrefix] in Hout. unfold sourceKey. by rewrite Hout. }
  split.
  { apply loadSourceIcon_local. split; [|done].
    cbn [clearStatusIconCaches statusIconCache_clear snd with_iconCache iconCache].
    rewrite deleteByPrefix_lookup.
    pose proof (view_key_outside StatusIcons SourceIcons
                  (workspaceId source ++ lit ":" ++ SourceConfig.slug (config source))
                  ltac:(done)) as Hout.
    cbn [viewPrefix] in Hout. unfold sourceKey. by rewrite Hout. }
  intros workspaceId slug. split; [done|].
  unfold getSkillIconSync, skillIconCache_get, iconCache_get. cbn [fst]. f_equal.
  cbn [clearSourceIconCaches sourceIconCache_clear bind snd with_iconCache
       with_logoUrlCache iconCache].
  rewrite deleteByPrefix_lookup.
  pose proof (view_key_outside SourceIcons SkillIcons (workspaceId ++ lit ":" ++ slug)
                ltac:(done)) as Hout.
  cbn [viewPrefix] in Hout. by rewrite Hout.
Qed.

End Locality.

Lemma loadSourceIcon_reads_own_entries_witness :
  sameEntries bareSource populatedState (freshState emptyDisk)
  /\ sameOutcome populatedState (freshState emptyDisk)
       (loadSourceIcon diskPlatform bareSource populatedState)
       (loadSourceIcon diskPlatform bareSource (freshState emptyDisk)).
Proof.
  assert (sameEntries bareSource populatedState (freshState emptyDisk)) as H.
  { split; [|split]; [vm_compute; reflexivity|intros k [=]|reflexivity]. }
  split; [exact H|].
  exact (loadSourceIcon_reads_own_entries diskPlatform bareSource populatedState
           (freshState emptyDisk) H).
Defined.

(** ** SVG files that [btoa] cannot encode *)

Lemma hasWide_app (a b : jsstring) : hasWide (a ++ b) = hasWide a || hasWide b.
Proof. apply existsb_app. Qed.

(** What matches an ASCII pattern without regard to case is ASCII too. *)
Lemma startsWith_ci_narrow (s pat : jsstring) :
  startsWith_ci s pat = true ->
  hasWide pat = false ->
  hasWide (take (List.length pat) s) = false.
Proof.
  revert s. induction pat as [|p pat IH]; intros s; [done|].
  destruct s as [|c s]; [done|]. cbn [startsWith_ci hasWide existsb List.length take].
  intros [Hc Hs]%andb_true_iff [Hp Hpat]%orb_false_iff.
  apply orb_false_iff. split; [|by apply IH].
  unfold ci_eqb, toUpperAscii in Hc. apply N.ltb_ge. apply N.ltb_ge in Hp.
  apply N.eqb_eq in Hc.
  destruct ((97 <=? c) && (c <=? 122)) eqn:Hlow.
  - apply andb_true_iff in Hlow as [_ Hle%N.leb_le]. lia.
  - destruct ((97 <=? p) && (p <=? 122)); lia.
Qed.

Lemma replaceAll_ci_wide (pat template : jsstring) (s : jsstring) :
  hasWide pat = false ->
  truthy pat = true ->
  forall (before : jsstring) (skip : nat),
    hasWide (drop skip s) = true ->
    hasWide (replaceAll_ci pat template before skip s) = true.
Proof.
  intros Hpat Hne. induction s as [|c r IH]; intros before skip.
  - by rewrite drop_nil.
  - destruct skip as [|k]; cbn [replaceAll_ci drop].
    + destruct (startsWith_ci (c :: r) pat) eqn:Hm.
      * intros Hwide. rewrite hasWide_app. apply orb_true_iff. right. apply IH.
        pose proof (startsWith_ci_narrow _ _ Hm Hpat) as Hnarrow.
        rewrite <- (take_drop (List.length pat) (c :: r)), hasWide_app, Hnarrow in Hwide.
        destruct pat as [|p pat]; [done|]. exact Hwide.
      * cbn [hasWide existsb]. intros [Hc|Hr]%orb_true_iff; apply orb_true_iff;
          [by left|right]. by apply (IH _ 0%nat).
    + apply IH.
Qed.

Lemma replaceSvgTag_wide (color s : jsstring) :
  hasWide s = true ->
  hasWide (replaceSvgTag (rootFillReplacer color) s) = true.
Proof.
  induction s as [|c r IH]; [done|]. rewrite replaceSvgTag_unfold.
  destruct (svgTagAt (c :: r)) as [[attrs rest]|] eqn:Htag.
  - unfold rootFillReplacer. destruct (hasFillAttr attrs).
    { by rewrite (svgTagAt_split _ _ _ Htag). }
    apply svgTagAt_Some in Htag as (Hsvg & Hdrop & _).
    pose proof (startsWith_ci_narrow _ _ Hsvg eq_refl) as Hnarrow.
    change (List.length (lit "<svg")) with 4%nat in Hnarrow.
    rewrite <- (take_drop 4 (c :: r)), hasWide_app, Hnarrow, Hdrop, hasWide_app.
    cbn [orb]. rewrite !hasWide_app.
    intros [Ha|Hr]%orb_true_iff.
    + rewrite Ha. by rewrite orb_true_r.
    + cbn [hasWide existsb] in Hr. cbn [orb] in Hr.
      apply orb_true_iff. right. exact Hr.
  - cbn [hasWide existsb]. intros [Hc|Hr]%orb_true_iff; apply orb_true_iff;
      [by left|right]. by apply IH.
Qed.

(** Theming keeps every code unit above 0xFF of the file. *)
Lemma themeSvgContent_with_wide (color svgContent : jsstring) :
  hasWide svgContent = true ->
  hasWide (themeSvgContent_with color svgContent) = true.
Proof.
  intros Hwide. unfold themeSvgContent_with, replaceCurrentColor. cbn zeta.
  apply replaceSvgTag_wide. by apply replaceAll_ci_wide.
Qed.

Section WideSvg.
Variable P : Platform.

(** X13: an SVG file with a character outside Latin-1 (a title in another
    script, a typographic quote in a comment) gives no icon. Theming keeps
    the character, [btoa] throws on it, and the exception is caught:
    [loadWorkspaceIcon] answers [null] and logs nothing, as it does for a
    file that is missing; [loadSkillIcon] answers [null], logs the error and
    leaves the icon store as it was. *)
Theorem wide_svg_gives_no_icon (workspaceId svgContent : jsstring) (w : World P)
    (st : State P) :
  (forall s, hasWide s = true -> exists e, btoa P s = Throw e) ->
  hasWide svgContent = true ->
  (forall relativePath : jsstring,
      endsWith relativePath (lit ".svg") = true ->
      electronAPI_readWorkspaceImage P workspaceId relativePath (world st)
      = (Normal svgContent, w) ->
      loadWorkspaceIcon P workspaceId relativePath st
      = (Normal None, call P (ReadWorkspaceImage workspaceId relativePath) w st))
  /\ (forall (skill : SkillConfig.t) (iconPath group1 group2 : jsstring),
        SkillConfig.iconPath skill = Some iconPath ->
        skillsMatch iconPath = Some (group1, group2) ->
        endsWith (skillRelativePath group1 group2) (lit ".svg") = true ->
        truthy_opt (iconCache st !! skillKey skill workspaceId) = false ->
        electronAPI_readWorkspaceImage P workspaceId (skillRelativePath group1 group2)
          (world st)
        = (Normal svgContent, w) ->
        exists e st',
          loadSkillIcon P skill workspaceId st = (Normal None, st')
          /\ iconCache st' = iconCache st
          /\ events st'
             = events st
               ++ [ReadWorkspaceImage workspaceId (skillRelativePath group1 group2);
                   ConsoleError (skillLoadFailed (skillRelativePath group1 group2)) e]).
Proof.
  intros Hbtoa Hwide.
  destruct (Hbtoa _ (themeSvgContent_with_wide (foregroundColorIn P w) _ Hwide))
    as [e He].
  split.
  - intros relativePath Hsvg Hread. rewrite loadWorkspaceIcon_run, Hread.
    cbn zeta. unfold loadedIcon. by rewrite Hsvg, He.
  - intros skill iconPath group1 group2 Hpath Hmatch Hsvg Hmiss Hread.
    exists e. eexists. rewrite loadSkillIcon_run, Hpath.
    assert (truthy_opt (Some iconPath) = true) as ->.
    { destruct iconPath; [by vm_compute in Hmatch|done]. }
    cbn [negb]. rewrite Hmiss. cbn [default from_option id]. rewrite Hmatch.
    cbn zeta. rewrite Hread, Hsvg, He.
    split; [reflexivity|]. split; [reflexivity|].
    cbn [events call]. by rewrite <- app_assoc.
Qed.

End WideSvg.

Lemma btoa_base64_wide (s : jsstring) :
  hasWide s = true -> exists e, btoa_base64 s = Throw e.
Proof.
  intros Hwide. unfold btoa_base64.
  destruct (forallb (fun c => c <=? 0xFF) s) eqn:Hall; [|eauto].
  exfalso. unfold hasWide in Hwide. apply existsb_exists in Hwide as (c & Hin & Hc).
  rewrite forallb_forall in Hall. specialize (Hall c Hin).
  apply N.ltb_lt in Hc. apply N.leb_le in Hall. lia.
Qed.

Lemma wide_svg_gives_no_icon_witness :
  loadWorkspaceIcon diskPlatform (lit "ws") (lit "sources/x/icon.svg") (freshState snowDisk)
  = (Normal None,
     call diskPlatform (ReadWorkspaceImage (lit "ws") (lit "sources/x/icon.svg")) snowDisk
       (freshState snowDisk))
  /\ exists e st',
       loadSkillIcon diskPlatform snowSkill (lit "ws") (freshState snowDisk)
       = (Normal None, st')
       /\ iconCache st' = iconCache (freshState snowDisk)
       /\ events st'
          = events (freshState snowDisk)
            ++ [ReadWorkspaceImage (lit "ws") (skillRelativePath (lit "snow") (lit "icon.svg"));
                ConsoleError
                  (skillLoadFailed (skillRelativePath (lit "snow") (lit "icon.svg"))) e].
Proof.
  destruct (wide_svg_gives_no_icon diskPlatform (lit "ws") svg_snowman snowDisk
              (freshState snowDisk) btoa_base64_wide eq_refl) as [Hsource Hskill].
  split.
  - apply Hsource; reflexivity.
  - apply (Hskill snowSkill (lit "/home/u/.craft/skills/snow/icon.svg")); reflexivity.
Defined.

(** ** The root tag that has no fill attribute *)


Lemma hasGT_app (a b : jsstring) : hasGT (a ++ b) = hasGT a || hasGT b.
Proof. apply existsb_app. Qed.




(** Where the first [<svg] of a text is, there its root tag is. *)
Lemma rootAttrs_at (pre tag attrs rest : jsstring) :
  (forall i, (i < List.length pre)%nat ->
     startsWith_ci (drop i (pre ++ tag)) (lit "<svg") = false) ->
  List.length tag = 4%nat ->
  startsWith_ci tag (lit "<svg") = true ->
  hasGT attrs = false ->
  rootAttrs (pre ++ tag ++ attrs ++ GT :: rest) = Some attrs.
Proof.
  intros Hfirst Hlen Hsvg Hgt. induction pre as [|c pre IH]; rewrite rootAttrs_unfold.
  - change ([] ++ tag ++ attrs ++ GT :: rest) with (tag ++ attrs ++ GT :: rest).
    assert (svgTagAt (tag ++ attrs ++ GT :: rest) = Some (attrs, rest)) as ->; [|done].
    apply svgTagAt_Some. split; [by apply startsWith_ci_app|]. split; [|done].
    by rewrite drop_app_length'.
  - assert (svgTagAt ((c :: pre) ++ tag ++ attrs ++ GT :: rest) = None) as ->.
    { unfold svgTagAt. rewrite app_assoc.
      rewrite (startsWith_ci_app_long ((c :: pre) ++ tag)).
      - pose proof (Hfirst 0%nat ltac:(cbn; lia)) as H0. rewrite drop_0 in H0.
        by rewrite H0.
      - rewrite length_app, Hlen. change (List.length (lit "<svg")) with 4%nat. lia. }
    cbn [app]. apply IH. intros i Hi. apply (Hfirst (S i)). cbn. lia.
Qed.



Section RootWithoutFill.
Variable P : Platform.


End RootWithoutFill.


(** ** The root tag that has a fill attribute *)

(** A color without [$] is substituted as it is written. *)
Lemma GetSubstitution_plain (matched before after template : jsstring) :
  forallb (fun c => negb (c =? 36)) template = true ->
  GetSubstitution matched before after template = template.
Proof.
  induction template as [|c t IH]; [done|].
  cbn [forallb GetSubstitution]. intros [Hc Ht]%andb_true_iff.
  apply negb_true_iff in Hc. rewrite Hc. by rewrite (IH Ht).
Qed.

(** The substitution of such a color does not depend on what was passed. *)
Lemma replaceAll_ci_before (pat template : jsstring) :
  forallb (fun c => negb (c =? 36)) template = true ->
  forall (s before : jsstring) (skip : nat),
    replaceAll_ci pat template before skip s = replaceAll_ci pat template [] skip s.
Proof.
  intros Ht. induction s as [|c s IH]; intros before skip; [done|].
  cbn [replaceAll_ci]. destruct skip as [|k].
  - rewrite !(GetSubstitution_plain _ _ _ _ Ht).
    rewrite (IH (before ++ [c])), (IH ([] ++ [c])).
    by rewrite (IH (before ++ [c]) O), (IH ([] ++ [c]) O).
  - by rewrite (IH (before ++ [c])), (IH ([] ++ [c])).
Qed.

(** No occurrence of a pattern reaches across a character the pattern does
    not hold. *)
Lemma startsWith_ci_before_sep (sep : N) (pat : jsstring) :
  forallb (fun d => negb (ci_eqb sep d)) pat = true ->
  pat <> [] ->
  forall x y : jsstring, startsWith_ci (x ++ sep :: y) pat = startsWith_ci x pat.
Proof.
  induction pat as [|d pat IH]; [done|]. cbn [forallb].
  intros [Hd Hpat]%andb_true_iff _ x y. apply negb_true_iff in Hd.
  destruct x as [|c x]; cbn [app startsWith_ci]; [by rewrite Hd|].
  destruct pat as [|d' pat']; [done|]. by rewrite (IH Hpat).
Qed.

Lemma replaceAll_ci_sep (sep : N) (pat template : jsstring) (y : jsstring) :
  forallb (fun c => negb (c =? 36)) template = true ->
  forallb (fun d => negb (ci_eqb sep d)) pat = true ->
  pat <> [] ->
  forall (x : jsstring) (skip : nat),
    (skip <= List.length x)%nat ->
    replaceAll_ci pat template [] skip (x ++ sep :: y)
    = replaceAll_ci pat template [] skip x
      ++ sep :: replaceAll_ci pat template [] O y.
Proof.
  intros Ht Hsep Hpat. induction x as [|c x IH]; intros skip Hskip.
  - cbn [List.length] in Hskip. assert (skip = O) as -> by lia.
    cbn [app replaceAll_ci].
    pose proof (startsWith_ci_before_sep sep pat Hsep Hpat [] y) as Hno.
    cbn [app] in Hno. rewrite Hno.
    destruct pat as [|d pat']; [done|]. cbn [startsWith_ci].
    by rewrite (replaceAll_ci_before _ _ Ht).
  - cbn [app replaceAll_ci]. cbn [List.length] in Hskip. destruct skip as [|k].
    + pose proof (startsWith_ci_before_sep sep pat Hsep Hpat (c :: x) y) as Hsame.
      cbn [app] in Hsame. rewrite Hsame.
      destruct (startsWith_ci (c :: x) pat) eqn:Hhere.
      * rewrite !(GetSubstitution_plain _ _ _ _ Ht).
        rewrite !(replaceAll_ci_before _ _ Ht _ ([] ++ [c])).
        apply startsWith_ci_length in Hhere. cbn [List.length] in Hhere.
        rewrite IH by lia. by rewrite <- app_assoc.
      * rewrite !(replaceAll_ci_before _ _ Ht _ ([] ++ [c])).
        rewrite IH by lia. reflexivity.
    + rewrite !(replaceAll_ci_before _ _ Ht _ ([] ++ [c])).
      rewrite IH by lia. reflexivity.
Qed.

(** Characters that do not start the pattern are copied. *)
Lemma replaceAll_ci_run (p0 : N) (pat template x y : jsstring) :
  forallb (fun c => negb (c =? 36)) template = true ->
  forallb (fun c => negb (ci_eqb c p0)) x = true ->
  replaceAll_ci (p0 :: pat) template [] O (x ++ y)
  = x ++ replaceAll_ci (p0 :: pat) template [] O y.
Proof.
  intros Ht. induction x as [|c x IH]; [done|].
  cbn [forallb app replaceAll_ci startsWith_ci].
  intros [Hc Hx]%andb_true_iff. apply negb_true_iff in Hc. rewrite Hc.
  cbn [andb]. rewrite (replaceAll_ci_before _ _ Ht). by rewrite (IH Hx).
Qed.

(** A color without [>] brings none into a text that has none. *)
Lemma replaceAll_ci_no_GT (pat template : jsstring) :
  forallb (fun c => negb (c =? 36)) template = true ->
  hasGT template = false ->
  forall (s : jsstring) (skip : nat),
    hasGT s = false -> hasGT (replaceAll_ci pat template [] skip s) = false.
Proof.
  intros Ht Hgt. induction s as [|c s IH]; intros skip; [done|].
  cbn [replaceAll_ci]. unfold hasGT at 1. cbn [existsb].
  intros [Hc Hs]%orb_false_iff. fold (hasGT s) in Hs.
  destruct skip as [|k].
  2: { rewrite (replaceAll_ci_before _ _ Ht). by apply IH. }
  destruct (startsWith_ci (c :: s) pat).
  - rewrite (GetSubstitution_plain _ _ _ _ Ht), hasGT_app, Hgt.
    rewrite (replaceAll_ci_before _ _ Ht). by apply IH.
  - unfold hasGT. cbn [existsb]. rewrite Hc.
    rewrite (replaceAll_ci_before _ _ Ht). by apply IH.
Qed.

Lemma hasGT_split (s : jsstring) :
  hasGT s = true -> exists a r, s = a ++ GT :: r /\ hasGT a = false.
Proof.
  intros Hs. destruct (span (fun c => negb (c =? GT)) s) as [a b] eqn:Hspan.
  apply span_notGT in Hspan as (-> & Ha & [->|[r ->]]).
  - rewrite app_nil_r in Hs. congruence.
  - by exists a, r.
Qed.

Lemma isXmlSpace_cases (c : N) :
  isXmlSpace c = true -> c = 32 \/ c = 9 \/ c = 10 \/ c = 13.
Proof.
  unfold isXmlSpace. rewrite !orb_true_iff, !N.eqb_eq. tauto.
Qed.

Lemma xmlSpaces_plain (x : jsstring) :
  forallb isXmlSpace x = true ->
  hasGT x = false
  /\ forallb isWhiteSpace x = true
  /\ forallb (fun c => negb (ci_eqb c 99)) x = true.
Proof.
  induction x as [|c x IH]; [done|]. cbn [forallb].
  intros [Hc Hx]%andb_true_iff. destruct (IH Hx) as (Hgt & Hws & Hnc).
  unfold hasGT in *. cbn [existsb forallb]. rewrite Hgt, Hws, Hnc.
  by destruct (isXmlSpace_cases c Hc) as [-> | [-> | [-> | ->]]].
Qed.

(** The fill test of line 380 finds a [fill] that follows a character that
    is no word character. *)
Lemma fillAttr_search_after (b : bool) (c : N) (a s : jsstring) :
  isWordChar c = false ->
  fillAttrAt s = true ->
  fillAttr_search b (a ++ c :: s) = true.
Proof.
  intros Hc Hs. revert b. induction a as [|c0 a IH]; intros b.
  - destruct s as [|d s]; [by vm_compute in Hs|].
    cbn [app fillAttr_search]. rewrite Hc.
    cbn [negb andb]. rewrite Hs. cbn [orb]. apply orb_true_r.
  - cbn [app fillAttr_search]. rewrite IH. apply orb_true_r.
Qed.

Lemma span_all (f : N -> bool) (x : jsstring) (c : N) (y : jsstring) :
  forallb f x = true -> f c = false -> span f (x ++ c :: y) = (x, c :: y).
Proof.
  intros Hx Hc. induction x as [|d x IH]; cbn [app span].
  - by rewrite Hc.
  - cbn [forallb] in Hx. apply andb_true_iff in Hx as [-> Hx]. by rewrite (IH Hx).
Qed.

(** No [<svg] starts before the root tag when none occurs there. *)
Lemma first_svg_tag (pre : jsstring) :
  occurs_ci (lit "<svg") pre = false ->
  forall i, (i < List.length pre)%nat ->
    startsWith_ci (drop i (pre ++ lit "<svg")) (lit "<svg") = false.
Proof.
  induction pre as [|c pre IH]; intros Hno i Hi; [cbn in Hi; lia|].
  cbn [occurs_ci] in Hno. apply orb_false_iff in Hno as [Hhere Hlater].
  destruct i as [|i].
  - rewrite drop_0.
    destruct pre as [|c1 [|c2 [|c3 pre]]].
    + change (lit "<svg") with [60; 115; 118; 103]. cbn [app startsWith_ci].
      change (ci_eqb 60 115) with false. by rewrite !andb_false_r.
    + change (lit "<svg") with [60; 115; 118; 103]. cbn [app startsWith_ci].
      change (ci_eqb 60 118) with false. by rewrite !andb_false_r.
    + change (lit "<svg") with [60; 115; 118; 103]. cbn [app startsWith_ci].
      change (ci_eqb 60 103) with false. by rewrite !andb_false_r.
    + rewrite startsWith_ci_app_long; [exact Hhere|].
      cbn [List.length]. change (List.length (lit "<svg")) with 4%nat. lia.
  - cbn [app drop]. apply IH; [exact Hlater|]. cbn [List.length] in Hi. lia.
Qed.

(** The root tag of such a document is found by line 377, and line 380
    finds its fill attribute. *)
Lemma root_with_fill (d : SvgWithFill) :
  isSvgWithFill d = true ->
  exists attrs, rootAttrs (svgText d) = Some attrs /\ hasFillAttr attrs = true.
Proof.
  unfold isSvgWithFill.
  intros [[[[Hpre Hbefore]%andb_true_iff Hblank]%andb_true_iff
            Hblanks]%andb_true_iff Hclosed]%andb_true_iff.
  apply negb_true_iff in Hpre, Hbefore.
  destruct (hasGT_split _ Hclosed) as (a & r & Hvalue & Ha).
  destruct (xmlSpaces_plain _ Hblanks) as (Hgt & Hws & _).
  set (attrs := attrsBeforeFill d ++ blank d :: lit "fill" ++ blanksBeforeEq d ++ 61 :: a).
  exists attrs. split.
  - assert (svgText d = beforeRoot d ++ lit "<svg" ++ attrs ++ GT :: r) as ->.
    { unfold svgText, attrs. rewrite Hvalue.
      rewrite <- !app_assoc. cbn [app]. do 3 f_equal.
      by rewrite <- !app_assoc. }
    apply rootAttrs_at; [by apply first_svg_tag|reflexivity|reflexivity|].
    unfold attrs. rewrite hasGT_app, Hbefore. cbn [orb].
    unfold hasGT. cbn [existsb]. rewrite !existsb_app.
    fold (hasGT (blanksBeforeEq d)). fold (hasGT a). rewrite Hgt. cbn [existsb].
    fold (hasGT a). rewrite Ha.
    by destruct (isXmlSpace_cases _ Hblank) as [-> | [-> | [-> | ->]]].
  - unfold hasFillAttr, attrs. apply fillAttr_search_after.
    + by destruct (isXmlSpace_cases _ Hblank) as [-> | [-> | [-> | ->]]].
    + unfold fillAttrAt.
      change (drop 4 (lit "fill" ++ blanksBeforeEq d ++ 61 :: a))
        with (blanksBeforeEq d ++ 61 :: a).
      by rewrite (span_all isWhiteSpace _ 61 a Hws eq_refl).
Qed.

(** The substitution of a plain color goes through the parts of the
    document. *)
Lemma replaceCurrentColor_parts (color : jsstring) (d : SvgWithFill) :
  isSvgWithFill d = true ->
  isPlainColor color = true ->
  occurs_ci (lit "<svg") (replaceCurrentColor color (beforeRoot d)) = false ->
  replaceCurrentColor color (svgText d) = svgText (withColor color d)
  /\ isSvgWithFill (withColor color d) = true.
Proof.
  unfold isSvgWithFill, isPlainColor.
  intros [[[[Hpre Hbefore]%andb_true_iff Hblank]%andb_true_iff
            Hblanks]%andb_true_iff Hclosed]%andb_true_iff
         [Hgt Hplain]%andb_true_iff Hnone.
  apply negb_true_iff in Hbefore, Hgt.
  destruct (xmlSpaces_plain _ Hblanks) as (_ & _ & Hnc).
  split.
  - unfold replaceCurrentColor, svgText. cbn [withColor beforeRoot attrsBeforeFill
      blank blanksBeforeEq fromValue].
    change (lit "<svg") with (60 :: lit "svg"). cbn [app].
    rewrite (replaceAll_ci_sep 60 (lit "currentColor") color _ Hplain eq_refl
               ltac:(done) (beforeRoot d) O ltac:(lia)).
    change (lit "currentColor") with (99 :: lit "urrentColor") at 2.
    rewrite (replaceAll_ci_run 99 _ color (lit "svg") _ Hplain eq_refl).
    change (99 :: lit "urrentColor") with (lit "currentColor").
    rewrite (replaceAll_ci_sep (blank d) (lit "currentColor") color _ Hplain
               ltac:(by destruct (isXmlSpace_cases _ Hblank) as [-> | [-> | [-> | ->]]])
               ltac:(done) (attrsBeforeFill d) O ltac:(lia)).
    change (lit "currentColor") with (99 :: lit "urrentColor").
    replace (lit "fill" ++ blanksBeforeEq d ++ 61 :: fromValue d)
      with ((lit "fill" ++ blanksBeforeEq d ++ [61]) ++ fromValue d)
      by (by rewrite <- !app_assoc).
    rewrite (replaceAll_ci_run 99 _ color (lit "fill" ++ blanksBeforeEq d ++ [61]) _
               Hplain).
    2: { rewrite !forallb_app, Hnc. reflexivity. }
    by rewrite <- !app_assoc.
  - cbn [withColor beforeRoot attrsBeforeFill blank blanksBeforeEq fromValue].
    rewrite Hnone, Hblank, Hblanks. cbn [negb andb].
    unfold replaceCurrentColor.
    rewrite (replaceAll_ci_no_GT _ _ Hplain Hgt _ _ Hbefore). cbn [negb andb].
    destruct (hasGT_split _ Hclosed) as (a & r & -> & _).
    rewrite (replaceAll_ci_sep GT (lit "currentColor") color _ Hplain eq_refl
               ltac:(done) a O ltac:(lia)).
    rewrite hasGT_app. unfold hasGT at 2. cbn [existsb].
    change (GT =? GT) with true. apply orb_true_r.
Qed.

(** Without currentColor before the root tag, no [<svg] arises there. *)
Lemma no_currentColor_before_root (color : jsstring) (d : SvgWithFill) :
  isSvgWithFill d = true ->
  occurs_ci (lit "currentColor") (beforeRoot d) = false ->
  occurs_ci (lit "<svg") (replaceCurrentColor color (beforeRoot d)) = false.
Proof.
  unfold isSvgWithFill, replaceCurrentColor. intros Hd Hnone.
  rewrite (replaceAll_ci_no_occurrence _ _ _ _ Hnone).
  apply negb_true_iff. by repeat (apply andb_true_iff in Hd as [Hd _]).
Qed.

Section RootTag.
Variable P : Platform.

(** C7, as the code has it, for an SVG input whose root tag is the first
    [<svg] of the input, carries a fill attribute ([fill="none"] included)
    and holds no [>] before it. With a color that holds no [>] and no [$],
    and still no [<svg] before the root tag once the color stands there for
    currentColor (so when there is no currentColor before the root tag), no
    fill is injected: the result is the input with every currentColor
    replaced by the color, those inside the root tag included, and the root
    tag of the result carries the fill attribute as before. With any color,
    and no currentColor up to a [>] of the tag after the fill attribute,
    everything up to that [>] is unchanged. *)
Theorem root_fill_attribute_is_kept (d : SvgWithFill) (color : jsstring)
    (st : State P) :
  isSvgWithFill d = true ->
  (isPlainColor color = true ->
   occurs_ci (lit "<svg") (replaceCurrentColor color (beforeRoot d)) = false ->
   themeSvgContent P (svgText d) (Some color) st
   = (Normal (svgText (withColor color d)), st)
   /\ svgText (withColor color d) = replaceCurrentColor color (svgText d)
   /\ isSvgWithFill (withColor color d) = true)
  /\ (forall value rest : jsstring,
        fromValue d = value ++ GT :: rest ->
        let upToClose :=
          beforeRoot d ++ lit "<svg" ++ attrsBeforeFill d
          ++ blank d :: lit "fill" ++ blanksBeforeEq d ++ 61 :: value in
        occurs_ci (lit "currentColor") (upToClose ++ [GT]) = false ->
        themeSvgContent P (svgText d) (Some color) st
        = (Normal ((upToClose ++ [GT])
                   ++ replaceAll_ci (lit "currentColor") color (upToClose ++ [GT]) O rest),
           st)).
Proof.
  intros Hd. split.
  - intros Hcolor Hnone.
    destruct (replaceCurrentColor_parts color d Hd Hcolor Hnone) as [Hparts Hd'].
    split; [|by split].
    destruct (root_with_fill _ Hd') as (attrs & Hroot & Hfill).
    unfold themeSvgContent, bind, ret, themeSvgContent_with. cbn zeta.
    rewrite Hparts. by rewrite (replaceSvgTag_root_has_fill _ _ _ Hroot Hfill).
  - intros value rest Hvalue upToClose Hnone.
    assert (svgText d = (upToClose ++ [GT]) ++ rest) as Htext.
    { unfold svgText, upToClose. rewrite Hvalue.
      rewrite <- !app_assoc. cbn [app]. do 3 f_equal.
      f_equal. rewrite <- !app_assoc. reflexivity. }
    unfold themeSvgContent, bind, ret, themeSvgContent_with, replaceCurrentColor.
    cbn zeta. rewrite Htext.
    rewrite (replaceAll_ci_head (lit "currentColor") color upToClose [] rest
               eq_refl Hnone).
    change ([] ++ upToClose ++ [GT]) with (upToClose ++ [GT]).
    set (themedRest := replaceAll_ci _ _ _ _ rest).
    pose (d' := {| beforeRoot := beforeRoot d; attrsBeforeFill := attrsBeforeFill d;
                   blank := blank d; blanksBeforeEq := blanksBeforeEq d;
                   fromValue := value ++ GT :: themedRest |}).
    assert (isSvgWithFill d' = true) as Hd'.
    { revert Hd. unfold isSvgWithFill.
      cbn [d' beforeRoot attrsBeforeFill blank blanksBeforeEq fromValue].
      intros [-> _]%andb_true_iff. rewrite hasGT_app. unfold hasGT at 2.
      cbn [existsb]. change (GT =? GT) with true. by rewrite orb_true_r. }
    destruct (root_with_fill _ Hd') as (attrs & Hroot & Hfill).
    assert (svgText d' = (upToClose ++ [GT]) ++ themedRest) as Htext'.
    { unfold svgText, upToClose.
      cbn [d' beforeRoot attrsBeforeFill blank blanksBeforeEq fromValue].
      rewrite <- !app_assoc. cbn [app]. do 3 f_equal.
      f_equal. rewrite <- !app_assoc. reflexivity. }
    rewrite Htext' in Hroot.
    by rewrite (replaceSvgTag_root_has_fill _ _ _ Hroot Hfill).
Qed.

End RootTag.

Lemma root_fill_attribute_is_kept_witness :
  (themeSvgContent diskPlatform (svgText strokeThenFill) (Some red)
     (freshState emptyDisk)
   = (Normal (svgText (withColor red strokeThenFill)), freshState emptyDisk)
   /\ svgText (withColor red strokeThenFill)
      = replaceCurrentColor red (svgText strokeThenFill)
   /\ isSvgWithFill (withColor red strokeThenFill) = true)
  /\ themeSvgContent diskPlatform (svgText fillThenChild) (Some red)
       (freshState emptyDisk)
     = (Normal ((lit "<svg fill=" ++ dquote ++ lit "none" ++ dquote ++ [GT])
                ++ replaceAll_ci (lit "currentColor") red
                     (lit "<svg fill=" ++ dquote ++ lit "none" ++ dquote ++ [GT]) O
                     (lit "<path stroke=" ++ dquote ++ lit "currentColor" ++ dquote
                      ++ lit "/></svg>")),
        freshState emptyDisk).
Proof.
  split.
  - destruct (root_fill_attribute_is_kept diskPlatform strokeThenFill red
                (freshState emptyDisk) eq_refl) as [Hplain _].
    apply Hplain; reflexivity.
  - destruct (root_fill_attribute_is_kept diskPlatform fillThenChild red
                (freshState emptyDisk) eq_refl) as [_ Hhead].
    apply (Hhead (dquote ++ lit "none" ++ dquote)
             (lit "<path stroke=" ++ dquote ++ lit "currentColor" ++ dquote
              ++ lit "/></svg>")); reflexivity.
Defined.

(** What the two witnesses are, written out: the root tag keeps its fill,
    and the currentColor of its [stroke] attribute is substituted. *)
Example strokeThenFill_themed :
  svgText strokeThenFill = svg_stroke_then_fill
  /\ svgText (withColor red strokeThenFill)
     = lit "<svg stroke=" ++ dquote ++ lit "#ff0000" ++ dquote ++ lit " fill="
       ++ dquote ++ lit "none" ++ dquote ++ lit "></svg>".
Proof. split; vm_compute; reflexivity. Qed.

(** A [>] inside the value of an attribute before [fill] ends the tag for
    the pattern of line 377: the test of line 380 sees no fill attribute,
    and a fill is injected into the value of that attribute, although the
    root tag carries [fill="none"]. *)
Example quoted_gt_hides_the_fill :
  themeSvgContent_with red svg_quoted_gt
  = lit "<svg data-x=" ++ dquote ++ lit " fill=" ++ dquote ++ lit "#ff0000" ++ dquote
    ++ lit ">" ++ dquote ++ lit " fill=" ++ dquote ++ lit "none" ++ dquote
    ++ lit "></svg>".
Proof. vm_compute. reflexivity. Qed.


(** C7 as stated fails: the root tag of [svg_stroke_icon] carries
    [fill="none"], and theming rewrites its [stroke] attribute. *)
Lemma root_attributes_rewritten :
  rootAttrs svg_stroke_icon
  = Some (lit " fill=" ++ dquote ++ lit "none" ++ dquote ++ lit " stroke=" ++ dquote
          ++ lit "currentColor" ++ dquote)
  /\ hasFillAttr (lit " fill=" ++ dquote ++ lit "none" ++ dquote ++ lit " stroke="
                  ++ dquote ++ lit "currentColor" ++ dquote) = true
  /\ (themeSvgContent diskPlatform svg_stroke_icon (Some red) (freshState emptyDisk)).1
     = Normal (lit "<svg fill=" ++ dquote ++ lit "none" ++ dquote ++ lit " stroke="
               ++ dquote ++ lit "#ff0000" ++ dquote ++ lit "><path d=" ++ dquote
               ++ lit "M0 0h24" ++ dquote ++ lit "/></svg>")
  /\ rootAttrs (themeSvgContent_with red svg_stroke_icon)
     = Some (lit " fill=" ++ dquote ++ lit "none" ++ dquote ++ lit " stroke=" ++ dquote
             ++ lit "#ff0000" ++ dquote)
  /\ rootAttrs (themeSvgContent_with red svg_stroke_icon) <> rootAttrs svg_stroke_icon.
Proof. repeat split; try (vm_compute; reflexivity). vm_compute. discriminate. Qed.

(** ** The avatar component *)

Section SourceAvatarProperties.
Variable P : Platform.

Lemma source_eta (source : Source) :
  {| config := config source; workspaceId := workspaceId source |} = source.
Proof. by destruct source. Qed.

(** A call that finds nothing leaves the icon store as it was. *)
Lemma loadSourceIcon_falsy_keeps_store (source : Source) (r : option jsstring)
    (st st1 : State P) :
  loadSourceIcon P source st = (Normal r, st1) ->
  truthy_opt r = false ->
  iconCache st1 = iconCache st.
Proof.
  intros H Hr. apply loadSourceIcon_step in H as ([Hi|(v & Hv & Hrv & _)] & _); [done|].
  injection Hrv as ->. cbn in Hr. congruence.
Qed.

(** The effect of [useSourceIcon] by cases: the state it sets is the one
    for the cached value or for the result of [loadSourceIcon]. *)
Lemma useSourceIcon_effect_run (source : Source) (cancelled : bool)
    (h : SourceIconState) (st : State P) :
  useSourceIcon_effect P (Some source) cancelled h st
  = if truthy_opt (iconCache st !! sourceKey source)
    then (Normal (shownFor (iconCache st !! sourceKey source)), st)
    else
      match loadSourceIcon P source st with
      | (Normal r, st') => (Normal (if cancelled then h else shownFor r), st')
      | (Throw _, st') =>
          (Normal (if cancelled then h else {| iconUrl := None; emojiIcon := None |}),
           st')
      end.
Proof.
  unfold useSourceIcon_effect. unfold bind at 1.
  unfold getSourceIconSync, sourceIconCache_get, iconCache_get.
  fold (sourceKey source). rewrite source_eta.
  destruct (iconCache st !! sourceKey source) as [cached|] eqn:Hcached;
    cbn [truthy_opt default from_option id].
  - destruct (truthy cached) eqn:Ht.
    + unfold shownFor. by destruct (startsWith cached EMOJI_ICON_PREFIX).
    + unfold try_catch, bind.
      destruct (loadSourceIcon P source st) as [[r|e] st']; [|by destruct cancelled].
      destruct cancelled; [done|]. unfold shownFor.
      destruct r as [r|]; [|done]. by destruct (startsWith r EMOJI_ICON_PREFIX).
  - unfold try_catch, bind.
    destruct (loadSourceIcon P source st) as [[r|e] st']; [|by destruct cancelled].
    destruct cancelled; [done|]. unfold shownFor.
    destruct r as [r|]; [|done]. by destruct (startsWith r EMOJI_ICON_PREFIX).
Qed.

(** What the state initializers compute from a store that holds [r], or
    nothing to speak of when [r] is empty. *)
Lemma shownFor_initial (source : Source) (r : option jsstring) (st' : State P) :
  (truthy_opt r = true -> iconCache st' !! sourceKey source = r) ->
  (truthy_opt r = false -> truthy_opt (iconCache st' !! sourceKey source) = false) ->
  (iconUrl (shownFor r) = None \/ emojiIcon (shownFor r) = None)
  /\ useSourceIcon_initialIconUrl P (Some source) st'
     = (Normal (if truthy_opt (iconUrl (shownFor r)) then iconUrl (shownFor r) else None),
        st')
  /\ useSourceIcon_initialEmojiIcon P (Some source) st'
     = (Normal (emojiIcon (shownFor r)), st').
Proof.
  intros Hyes Hno.
  unfold useSourceIcon_initialIconUrl, useSourceIcon_initialEmojiIcon, bind.
  unfold getSourceIconSync, sourceIconCache_get, iconCache_get.
  fold (sourceKey source).
  destruct (truthy_opt r) eqn:Hr.
  - rewrite (Hyes eq_refl). destruct r as [v|]; [|done]. cbn [truthy_opt] in Hr.
    unfold shownFor. cbn [truthy_opt default from_option id]. rewrite Hr.
    destruct (startsWith v EMOJI_ICON_PREFIX); cbn [iconUrl emojiIcon truthy_opt negb andb];
      [by auto|]. rewrite Hr. by auto.
  - specialize (Hno eq_refl).
    assert (shownFor r = {| iconUrl := r; emojiIcon := None |}) as ->.
    { destruct r as [[|c v]|]; done. }
    cbn [iconUrl emojiIcon]. rewrite Hr, Hno. cbn [andb].
    split; [by right|]. split; [done|].
    destruct (iconCache st' !! sourceKey source) as [[|c v]|]; done.
Qed.

(** X15: the two paths of [useSourceIcon] agree. Once the effect has
    settled in a mounted avatar, the state it has set holds at most one of
    [iconUrl] and [emojiIcon], and it is what the state initializers of a
    later first render compute from the cache as the effect left it (an
    empty URL counting as none): an avatar that is mounted again starts with
    what the last one showed. The effect never throws. An effect whose
    avatar was unmounted in between leaves the same stores, world and log
    behind. *)
Theorem useSourceIcon_settled (source : Source) (h : SourceIconState)
    (c : Completion SourceIconState) (st st' : State P) :
  useSourceIcon_effect P (Some source) false h st = (c, st') ->
  exists h',
    c = Normal h'
    /\ (iconUrl h' = None \/ emojiIcon h' = None)
    /\ useSourceIcon_initialIconUrl P (Some source) st'
       = (Normal (if truthy_opt (iconUrl h') then iconUrl h' else None), st')
    /\ useSourceIcon_initialEmojiIcon P (Some source) st' = (Normal (emojiIcon h'), st')
    /\ (useSourceIcon_effect P (Some source) true h st).2 = st'.
Proof.
  rewrite !useSourceIcon_effect_run.
  destruct (truthy_opt (iconCache st !! sourceKey source)) eqn:Hc.
  - intros [= <- <-]. eexists. split; [reflexivity|].
    destruct (shownFor_initial source (iconCache st !! sourceKey source) st)
      as (H1 & H2 & H3); [done|congruence|].
    split; [exact H1|]. split; [exact H2|]. split; [exact H3|]. reflexivity.
  - destruct (loadSourceIcon_completes P source st) as (r & st1 & Hload).
    rewrite Hload. intros [= <- <-]. exists (shownFor r). split; [reflexivity|].
    destruct (shownFor_initial source r st1) as (H1 & H2 & H3).
    + by apply (loadSourceIcon_result_cached P source r st st1).
    + intros Hr. by rewrite (loadSourceIcon_falsy_keeps_store _ _ _ _ Hload Hr).
    + split; [exact H1|]. split; [exact H2|]. split; [exact H3|]. reflexivity.
Qed.

End SourceAvatarProperties.

Lemma useSourceIcon_settled_witness :
  exists h',
    (useSourceIcon_effect diskPlatform (Some docsSource) false noIcon
       (freshState docsDisk)).1 = Normal h'
    /\ (iconUrl h' = None \/ emojiIcon h' = None)
    /\ useSourceIcon_initialIconUrl diskPlatform (Some docsSource)
         (useSourceIcon_effect diskPlatform (Some docsSource) false noIcon
            (freshState docsDisk)).2
       = (Normal (if truthy_opt (iconUrl h') then iconUrl h' else None),
          (useSourceIcon_effect diskPlatform (Some docsSource) false noIcon
             (freshState docsDisk)).2)
    /\ useSourceIcon_initialEmojiIcon diskPlatform (Some docsSource)
         (useSourceIcon_effect diskPlatform (Some docsSource) false noIcon
            (freshState docsDisk)).2
       = (Normal (emojiIcon h'),
          (useSourceIcon_effect diskPlatform (Some docsSource) false noIcon
             (freshState docsDisk)).2)
    /\ (useSourceIcon_effect diskPlatform (Some docsSource) true noIcon
          (freshState docsDisk)).2
       = (useSourceIcon_effect diskPlatform (Some docsSource) false noIcon
            (freshState docsDisk)).2.
Proof.
  exact (useSourceIcon_settled diskPlatform docsSource noIcon _ (freshState docsDisk) _
           (surjective_pairing _)).
Defined.

Section AvatarRuns.
Variable P : Platform.

(** The state initializers change nothing: the hook is its effect, started
    from what they computed. *)
Lemma useSourceIcon_run (source : Source) (cancelled : bool) (st : State P) :
  exists h0, useSourceIcon P (Some source) cancelled st
             = useSourceIcon_effect P (Some source) cancelled h0 st.
Proof.
  unfold useSourceIcon, useSourceIcon_initialIconUrl, useSourceIcon_initialEmojiIcon.
  unfold getSourceIconSync, sourceIconCache_get, iconCache_get, bind, ret.
  destruct (truthy_opt _ && _); destruct (iconCache st !! _) as [cached|];
    try destruct (startsWith cached EMOJI_ICON_PREFIX); eauto.
Qed.

Lemma useSourceIcon_none (cancelled : bool) (st : State P) :
  useSourceIcon P None cancelled st = (Normal noIcon, st).
Proof. reflexivity. Qed.

Lemma useLogoUrl_none (provider : option jsstring) (cancelled : bool) (st : State P) :
  useLogoUrl P None provider cancelled st = (Normal None, st).
Proof. reflexivity. Qed.

(** [useLogoUrl] by cases, for a service URL that is not empty. *)
Lemma useLogoUrl_run (u : jsstring) (provider : option jsstring) (cancelled : bool)
    (st : State P) :
  truthy u = true ->
  useLogoUrl P (Some u) provider cancelled st
  = let key : jsstring := u ++ lit ":" ++ default [] provider in
    match logoUrlCache st !! key with
    | Some stored => (Normal stored, st)
    | None =>
        match electronAPI_getLogoUrl P u provider (world st) with
        | (Normal result, w) =>
            if cancelled then (Normal None, call P (GetLogoUrl u provider) w st)
            else (Normal result,
                  with_logoUrlCache P (insert key result)
                    (call P (GetLogoUrl u provider) w st))
        | (Throw error, w) =>
            if cancelled then (Normal None, call P (GetLogoUrl u provider) w st)
            else (Normal None,
                  with_logoUrlCache P (insert key None)
                    (call P (ConsoleError (lit "[SourceAvatar] Failed to resolve logo URL:")
                               error) w
                       (call P (GetLogoUrl u provider) w st)))
        end
    end.
Proof.
  intros Hu. unfold useLogoUrl, useLogoUrl_initial, useLogoUrl_effect.
  cbn [truthy_opt default from_option id]. rewrite Hu. cbn [negb]. cbn zeta.
  unfold bind at 1. unfold bind at 1. unfold logoUrlCache_get.
  destruct (logoUrlCache st !! _) as [stored|] eqn:Hs.
  - unfold ret. unfold bind. by rewrite Hs.
  - unfold ret. unfold bind at 1. rewrite Hs.
    unfold try_catch, bind, getLogoUrl.
    destruct (electronAPI_getLogoUrl P u provider (world st)) as [[result|error] w];
      by destruct cancelled.
Qed.

End AvatarRuns.

Section AvatarIcons.
Variable P : Platform.

Lemma SourceAvatar_icon_loaded (source : Source) (st : State P) :
  SourceAvatar_icon P (LoadedSourceAvatarProps source) st
  = match useSourceIcon P (Some source) false st with
    | (Normal h, st') => (Normal (iconUrl h, emojiIcon h), st')
    | (Throw e, st') => (Throw e, st')
    end.
Proof.
  unfold SourceAvatar_icon, useSourceIcon. cbn zeta. cbn [andb].
  unfold useSourceIcon_initialIconUrl, useSourceIcon_initialEmojiIcon.
  unfold useLogoUrl_initial, useLogoUrl_effect. cbn [truthy_opt negb].
  unfold getSourceIconSync, sourceIconCache_get, iconCache_get, bind, ret.
  destruct (truthy_opt _ && _); destruct (iconCache st !! _) as [cached|];
    try destruct (startsWith cached EMOJI_ICON_PREFIX);
    by destruct (useSourceIcon_effect P (Some source) false _ st) as [[h|e] st'].
Qed.

Lemma SourceAvatar_icon_direct (type name : jsstring)
    (logoUrl serviceUrl provider : option jsstring) (st : State P) :
  SourceAvatar_icon P (DirectSourceAvatarProps type name logoUrl serviceUrl provider) st
  = if truthy_opt logoUrl then (Normal (logoUrl, None), st)
    else
      match useLogoUrl P serviceUrl provider false st with
      | (Normal resolved, st') => (Normal (nullish logoUrl resolved, None), st')
      | (Throw e, st') => (Throw e, st')
      end.
Proof.
  unfold SourceAvatar_icon, useLogoUrl. cbn zeta. cbn [andb].
  destruct (truthy_opt logoUrl) eqn:Hl; cbn [negb].
  - by destruct logoUrl.
  - unfold useSourceIcon_initialIconUrl, useSourceIcon_initialEmojiIcon,
      useSourceIcon_effect, bind, ret.
    destruct (useLogoUrl_initial P serviceUrl provider st) as [[logoUrl0|e0] st0];
      [|done].
    by destruct (useLogoUrl_effect P serviceUrl provider false logoUrl0 st0)
      as [[r|e] st'].
Qed.

(** [useLogoUrl] completes, and touches neither the icon store nor the
    workspace files. *)
Lemma useLogoUrl_outcome (serviceUrl provider : option jsstring) (cancelled : bool)
    (st : State P) :
  exists r st',
    useLogoUrl P serviceUrl provider cancelled st = (Normal r, st')
    /\ iconCache st' = iconCache st
    /\ List.filter isRead (events st') = List.filter isRead (events st).
Proof.
  destruct serviceUrl as [u|]; [|by exists None, st].
  destruct (truthy u) eqn:Hu.
  2: { exists None, st. split; [|done].
       unfold useLogoUrl, useLogoUrl_initial, useLogoUrl_effect.
       cbn [truthy_opt]. by rewrite Hu. }
  rewrite (useLogoUrl_run P u provider cancelled st Hu). cbn zeta.
  destruct (logoUrlCache st !! _) as [stored|]; [by exists stored, st|].
  destruct (electronAPI_getLogoUrl P u provider (world st)) as [[result|error] w];
    destruct cancelled; eexists; eexists; (split; [reflexivity|]);
    cbn [iconCache events call with_logoUrlCache];
    rewrite ?List.filter_app; cbn [List.filter isRead]; by rewrite ?app_nil_r.
Qed.

(** X16: a source whose configured icon is an emoji is shown as that emoji.
    When nothing is cached for the source, the avatar in loaded-source mode
    ends with [emojiIcon] equal to the configured icon and no logo URL, having
    called no collaborator: the only change is the marker left in the icon
    store, from which an avatar mounted later shows the same. *)
Theorem emoji_icon_is_shown (source : Source) (e : jsstring) (st : State P) :
  SourceConfig.icon (config source) = Some e ->
  isEmoji (Emoji_Presentation P) (Emoji P) e = true ->
  truthy_opt (iconCache st !! sourceKey source) = false ->
  SourceAvatar_icon P (LoadedSourceAvatarProps source) st
  = (Normal (None, Some e),
     with_iconCache P (insert (sourceKey source) (EMOJI_ICON_PREFIX ++ e)) st)
  /\ SourceAvatar_icon P (LoadedSourceAvatarProps source)
       (with_iconCache P (insert (sourceKey source) (EMOJI_ICON_PREFIX ++ e)) st)
     = (Normal (None, Some e),
        with_iconCache P (insert (sourceKey source) (EMOJI_ICON_PREFIX ++ e)) st).
Proof.
  intros Hi He Hc.
  assert (forall marker, marker = EMOJI_ICON_PREFIX ++ e ->
            shownFor (Some marker) = {| iconUrl := None; emojiIcon := Some e |})
    as Hshown.
  { intros marker ->. unfold shownFor. rewrite startsWith_app. unfold slice.
    by rewrite drop_app_length. }
  split.
  - rewrite SourceAvatar_icon_loaded.
    destruct (useSourceIcon_run P source false st) as [h0 ->].
    rewrite useSourceIcon_effect_run, Hc, loadSourceIcon_run. cbn zeta.
    rewrite Hc, Hi. cbn [isEmojiIcon default from_option id]. rewrite He.
    destruct e as [|c e]; [discriminate He|]. cbn [truthy andb].
    by rewrite !Hshown by reflexivity.
  - rewrite SourceAvatar_icon_loaded.
    destruct (useSourceIcon_run P source false
                (with_iconCache P (insert (sourceKey source) (EMOJI_ICON_PREFIX ++ e)) st))
      as [h0 ->].
    rewrite useSourceIcon_effect_run. cbn [iconCache with_iconCache].
    rewrite lookup_insert_eq. cbn [truthy_opt].
    change (truthy (EMOJI_ICON_PREFIX ++ e)) with true. cbv iota.
    by rewrite !Hshown by reflexivity.
Qed.

(** X17: the avatar in direct-props mode. It never shows an emoji, never
    reads a workspace file and never writes to the icon store. With a
    non-empty [logoUrl] it shows that URL and does nothing else. An empty
    [logoUrl] is taken for a missing one when the lookup is decided, but for
    a given one when the URL is chosen: the favicon service is asked and its
    answer stored exactly as without [logoUrl], and the avatar still shows
    the empty URL instead of the answer. *)
Theorem direct_avatar_logo (type name : jsstring)
    (logoUrl serviceUrl provider : option jsstring) (st : State P) :
  (exists final st',
      SourceAvatar_icon P (DirectSourceAvatarProps type name logoUrl serviceUrl provider) st
      = (Normal (final, None), st')
      /\ iconCache st' = iconCache st
      /\ List.filter isRead (events st') = List.filter isRead (events st))
  /\ (truthy_opt logoUrl = true ->
      SourceAvatar_icon P (DirectSourceAvatarProps type name logoUrl serviceUrl provider) st
      = (Normal (logoUrl, None), st))
  /\ (forall (u : jsstring) (answer : option jsstring) (w : World P),
        serviceUrl = Some u ->
        truthy u = true ->
        logoUrlCache st !! avatarLogoKey u provider = None ->
        electronAPI_getLogoUrl P u provider (world st) = (Normal answer, w) ->
        let asked :=
          with_logoUrlCache P (insert (avatarLogoKey u provider) answer)
            (call P (GetLogoUrl u provider) w st) in
        SourceAvatar_icon P (DirectSourceAvatarProps type name None serviceUrl provider) st
        = (Normal (answer, None), asked)
        /\ SourceAvatar_icon P
             (DirectSourceAvatarProps type name (Some []) serviceUrl provider) st
           = (Normal (Some [], None), asked)).
Proof.
  split; [|split].
  - rewrite SourceAvatar_icon_direct.
    destruct (truthy_opt logoUrl); [by exists logoUrl, st|].
    destruct (useLogoUrl_outcome serviceUrl provider false st)
      as (r & st' & -> & Hicon & Hread).
    by exists (nullish logoUrl r), st'.
  - intros Hl. by rewrite SourceAvatar_icon_direct, Hl.
  - intros u answer w -> Hu Hmiss Hanswer asked. unfold avatarLogoKey in *.
    rewrite !SourceAvatar_icon_direct. cbn [truthy_opt truthy].
    rewrite (useLogoUrl_run P u provider false st Hu). cbn zeta.
    rewrite Hmiss, Hanswer. done.
Qed.

(** X18: the two modes of the avatar share the logo-URL store, under the
    same key when the provider given to a direct avatar is the slug of the
    source. After a direct avatar for the service URL of a source has
    settled, [loadSourceIcon] for that source makes no favicon lookup. After
    [loadSourceIcon] has left a source without icon, a direct avatar for its
    service URL makes no call at all and leaves the state as it is: a failed
    or empty lookup is not repeated in either mode. The provider configured
    for the source has no part in this: line 221 prefers the slug, which is
    always there, so that [loadSourceIcon] does the same for a source under
    another name and with another provider. *)
Theorem logo_store_is_shared (source : Source) (u type name : jsstring) (st : State P) :
  deriveServiceUrl (config source) = Some u ->
  let direct :=
    DirectSourceAvatarProps type name None (Some u)
      (Some (SourceConfig.slug (config source))) in
  List.filter isGetLogoUrl
    (events (loadSourceIcon P source (SourceAvatar_icon P direct st).2).2)
  = List.filter isGetLogoUrl (events (SourceAvatar_icon P direct st).2)
  /\ (forall (r : Completion (option jsstring)) (st1 : State P),
        loadSourceIcon P source st = (r, st1) ->
        truthy_opt (iconCache st1 !! sourceKey source) = false ->
        exists stored, SourceAvatar_icon P direct st1 = (Normal (stored, None), st1))
  /\ (forall (name' : jsstring) (provider' : option jsstring),
        loadSourceIcon P
          {| config := relabelled (config source) name' provider';
             workspaceId := workspaceId source |} st
        = loadSourceIcon P source st).
Proof.
  intros Hu direct. pose proof (deriveServiceUrl_truthy _ _ Hu) as Htruthy.
  assert (forall s : State P,
    SourceAvatar_icon P direct s
    = match logoUrlCache s !! logoCacheKey u (config source) with
      | Some stored => (Normal (stored, None), s)
      | None =>
          match useLogoUrl P (Some u) (Some (SourceConfig.slug (config source))) false s with
          | (Normal resolved, s') => (Normal (resolved, None), s')
          | (Throw e, s') => (Throw e, s')
          end
      end) as Hdirect.
  { intros s. unfold direct. rewrite SourceAvatar_icon_direct. cbn [truthy_opt].
    rewrite (useLogoUrl_run P u _ false s Htruthy). cbn zeta.
    unfold logoCacheKey. cbn [nullish default from_option id].
    by destruct (logoUrlCache s !! _) as [stored|]. }
  split; [|split].
  3: { intros name' provider'. clear.
       by destruct source as [[slug0 name0 type0 icon0 provider0 mcp0 api0] ws]. }
  - apply loadSourceIcon_settled_no_lookup. right. unfold logoSettled. rewrite Hu.
    rewrite Hdirect.
    destruct (logoUrlCache st !! logoCacheKey u (config source)) as [stored|] eqn:Hs.
    { cbn [snd]. by rewrite Hs. }
    rewrite (useLogoUrl_run P u _ false st Htruthy). cbn zeta.
    unfold logoCacheKey in Hs. cbn [nullish default from_option id] in Hs |- *.
    rewrite Hs.
    destruct (electronAPI_getLogoUrl P u _ (world st)) as [[result|error] w];
      cbn [snd logoUrlCache with_logoUrlCache]; unfold logoCacheKey;
      cbn [nullish default from_option id]; by rewrite lookup_insert_eq.
  - intros r st1 Hload Hnone.
    destruct (loadSourceIcon_settles P _ _ _ _ Hload) as [Hicon|Hsettled];
      [congruence|].
    unfold logoSettled in Hsettled. rewrite Hu in Hsettled.
    destruct Hsettled as [stored Hs]. exists stored. by rewrite Hdirect, Hs.
Qed.

(** X19: [useLogoUrl] asks the favicon service at most once per key, unless
    its avatar goes away before the answer. When the effect has settled in a
    mounted avatar, a later run of the hook, mounted or not, returns the
    same logo from the store and makes no call, failures included: they are
    stored as [null]. When the avatar was unmounted before the answer came,
    the answer is dropped: nothing is stored and nothing is logged, and the
    next avatar asks again. *)
Theorem useLogoUrl_asks_once (u : jsstring) (provider : option jsstring) (st : State P) :
  truthy u = true ->
  (forall (r : Completion (option jsstring)) (st' : State P) (cancelled : bool),
      useLogoUrl P (Some u) provider false st = (r, st') ->
      useLogoUrl P (Some u) provider cancelled st' = (r, st'))
  /\ (logoUrlCache st !! avatarLogoKey u provider = None ->
      exists w,
        useLogoUrl P (Some u) provider true st
        = (Normal None, call P (GetLogoUrl u provider) w st)
        /\ exists answered,
             events (useLogoUrl P (Some u) provider false
                       (call P (GetLogoUrl u provider) w st)).2
             = events st ++ GetLogoUrl u provider :: GetLogoUrl u provider :: answered).
Proof.
  intros Hu. split.
  - intros r st' cancelled. rewrite !(useLogoUrl_run P u provider _ _ Hu). cbn zeta.
    destruct (logoUrlCache st !! _) as [stored|] eqn:Hs.
    { intros [= <- <-]. by rewrite Hs. }
    destruct (electronAPI_getLogoUrl P u provider (world st)) as [[result|error] w];
      intros [= <- <-]; cbn [logoUrlCache with_logoUrlCache];
      by rewrite lookup_insert_eq.
  - intros Hmiss. unfold avatarLogoKey in Hmiss.
    rewrite (useLogoUrl_run P u provider true st Hu). cbn zeta.
    rewrite Hmiss.
    destruct (electronAPI_getLogoUrl P u provider (world st)) as [[result|error] w];
      exists w; (split; [reflexivity|]);
      rewrite (useLogoUrl_run P u provider false _ Hu); cbn zeta;
      cbn [logoUrlCache call world]; rewrite Hmiss;
      destruct (electronAPI_getLogoUrl P u provider w) as [[result2|error2] w2];
      cbn [snd events call with_logoUrlCache]; eexists;
      rewrite <- ?app_assoc; reflexivity.
Qed.

End AvatarIcons.

Lemma emoji_icon_is_shown_witness :
  SourceAvatar_icon diskPlatform (LoadedSourceAvatarProps fireSource) (freshState emptyDisk)
  = (Normal (None, Some fire),
     with_iconCache diskPlatform
       (insert (sourceKey fireSource) (EMOJI_ICON_PREFIX ++ fire)) (freshState emptyDisk)).
Proof.
  apply (proj1 (emoji_icon_is_shown diskPlatform fireSource fire (freshState emptyDisk)
                  eq_refl eq_refl eq_refl)).
Defined.

Lemma direct_avatar_logo_witness :
  (SourceAvatar_icon diskPlatform (linearDirect (Some [])) (freshState linearUp)).1
  = Normal (Some [], None)
  /\ (SourceAvatar_icon diskPlatform (linearDirect None) (freshState linearUp)).1
     = Normal (Some (lit "https://logo.example/linear.png"), None)
  /\ SourceAvatar_icon diskPlatform
       (linearDirect (Some (lit "https://cdn.example/linear.svg"))) (freshState linearUp)
     = (Normal (Some (lit "https://cdn.example/linear.svg"), None), freshState linearUp).
Proof.
  destruct (direct_avatar_logo diskPlatform (lit "mcp") (lit "Linear")
              (Some (lit "https://cdn.example/linear.svg"))
              (Some (lit "https://api.linear.app")) (Some (lit "linear"))
              (freshState linearUp)) as (_ & Hgiven & Hasked).
  destruct (Hasked (lit "https://api.linear.app")
              (Some (lit "https://logo.example/linear.png")) linearUp
              eq_refl eq_refl eq_refl eq_refl) as [Hnone Hempty].
  split; [|split].
  - unfold linearDirect. by rewrite Hempty.
  - unfold linearDirect. by rewrite Hnone.
  - apply Hgiven. reflexivity.
Defined.

Lemma logo_store_is_shared_witness :
  List.filter isGetLogoUrl
    (events (loadSourceIcon diskPlatform linearSource
               (SourceAvatar_icon diskPlatform (linearDirect None)
                  (freshState linearDown)).2).2)
  = List.filter isGetLogoUrl
      (events (SourceAvatar_icon diskPlatform (linearDirect None) (freshState linearDown)).2).
Proof.
  exact (proj1 (logo_store_is_shared diskPlatform linearSource
                  (lit "https://api.linear.app") (lit "mcp") (lit "Linear")
                  (freshState linearDown) eq_refl)).
Defined.

Lemma useLogoUrl_asks_once_witness :
  useLogoUrl diskPlatform (Some (lit "https://api.linear.app")) (Some (lit "linear")) true
    (useLogoUrl diskPlatform (Some (lit "https://api.linear.app")) (Some (lit "linear"))
       false (freshState linearDown)).2
  = ((useLogoUrl diskPlatform (Some (lit "https://api.linear.app")) (Some (lit "linear"))
        false (freshState linearDown)).1,
     (useLogoUrl diskPlatform (Some (lit "https://api.linear.app")) (Some (lit "linear"))
        false (freshState linearDown)).2).
Proof.
  exact (proj1 (useLogoUrl_asks_once diskPlatform (lit "https://api.linear.app")
                  (Some (lit "linear")) (freshState linearDown) eq_refl)
           _ _ true (surjective_pairing _)).
Defined.

(** * Model names *)

Example getModelDisplayName_sonnet :
  getModelDisplayName (lit "claude-sonnet-4-5-20250929") = lit "Sonnet 4.5".
Proof. reflexivity. Qed.
Example getModelDisplayName_older :
  getModelDisplayName (lit "claude-3-5-sonnet-20241022") = lit "3-5-sonnet".
Proof. reflexivity. Qed.
Example getModelShortName_older :
  getModelShortName (lit "claude-3-5-sonnet-20241022") = lit "3-5-sonnet".
Proof. reflexivity. Qed.
Example getModelShortName_alias :
  getModelShortName (lit "claude-opus-4-5") = lit "opus".
Proof. reflexivity. Qed.
Example getModelShortName_provider :
  getModelShortName (lit "anthropic/claude-sonnet-4") = lit "claude-sonnet-4".
Proof. reflexivity. Qed.

Lemma removeFirst_head (pat s : jsstring) : removeFirst pat (pat ++ s) = s.
Proof.
  destruct (pat ++ s) as [|c r] eqn:Hs; cbn [removeFirst]; rewrite <- Hs;
    by rewrite startsWith_app, drop_app_length.
Qed.

Lemma removeFirst_absent (pat s : jsstring) :
  includes s pat = false -> removeFirst pat s = s.
Proof.
  induction s as [|c r IH]; cbn [includes removeFirst];
    intros [-> Hr]%orb_false_iff; [done|]. f_equal. by apply IH.
Qed.

(** A hyphen and eight digits at the end are taken out, wherever else the
    text has hyphens and digits. *)
Lemma stripDateSuffix_date (x d : jsstring) :
  forallb isDigit d = true -> List.length d = 8%nat ->
  stripDateSuffix (x ++ 45 :: d) = x.
Proof.
  intros Hd Hlen. induction x as [|c x IH]; cbn [app stripDateSuffix dateSuffixAt].
  - by rewrite Hd, Hlen.
  - assert (Nat.eqb (List.length (x ++ 45 :: d)) 8 = false) as ->.
    { apply Nat.eqb_neq. rewrite length_app. cbn [List.length]. lia. }
    rewrite andb_false_r. cbn [andb]. by rewrite IH.
Qed.

Lemma stripDateSuffix_none (s : jsstring) :
  (forall i, dateSuffixAt (drop i s) = false) -> stripDateSuffix s = s.
Proof.
  induction s as [|c r IH]; intros Hno; [done|].
  pose proof (Hno 0%nat) as H0. rewrite drop_0 in H0.
  cbn [stripDateSuffix]. rewrite H0. f_equal. apply IH.
  intros i. exact (Hno (S i)).
Qed.

Lemma stripVersionSuffix_version (x v : jsstring) (c : N) :
  isVersionChar c = false ->
  truthy v = true -> forallb isVersionChar v = true ->
  stripVersionSuffix (x ++ c :: 45 :: v) = x ++ [c].
Proof.
  intros Hc Hv Hclass. induction x as [|a x IH];
    cbn [app stripVersionSuffix versionSuffixAt].
  - cbn [forallb]. rewrite Hv, Hclass.
    assert ((c =? 45) = false) as ->.
    { destruct (c =? 45) eqn:H45; [|done]. apply N.eqb_eq in H45 as ->. done. }
    done.
  - assert (forallb isVersionChar (x ++ c :: 45 :: v) = false) as ->.
    { rewrite forallb_app. cbn [forallb]. rewrite Hc. by rewrite andb_false_r. }
    rewrite andb_false_r. by rewrite IH.
Qed.

Lemma hasSlash_app (a b : jsstring) : hasSlash (a ++ b) = hasSlash a || hasSlash b.
Proof. apply existsb_app. Qed.

Lemma lastSegment_after_slash (a b : jsstring) :
  hasSlash b = false -> lastSegment (a ++ SLASH :: b) = b.
Proof.
  intros Hb. induction a as [|c a IH]; cbn [app lastSegment].
  - by rewrite Hb.
  - rewrite hasSlash_app. cbn [hasSlash existsb]. rewrite N.eqb_refl.
    by rewrite orb_true_r.
Qed.

(** The identifiers of the table have no slash. *)
Lemma findModel_Some (modelId : jsstring) (m : ModelDefinition.t) :
  findModel modelId = Some m ->
  In m MODELS /\ modelId = ModelDefinition.id m.
Proof.
  unfold findModel. intros H. apply find_some in H as [Hin Heq].
  split; [exact Hin|]. symmetry. by apply string_eqb_eq.
Qed.

Lemma known_model_has_no_slash (modelId : jsstring) (m : ModelDefinition.t) :
  findModel modelId = Some m -> hasSlash modelId = false.
Proof.
  intros [Hin ->]%findModel_Some. cbn [MODELS In] in Hin.
  destruct Hin as [<-|[<-|[<-|[]]]]; reflexivity.
Qed.

(** X20: the display name of a model. An identifier of the table has the
    name of its entry. For any other identifier that is [claude-], some text,
    a hyphen and eight digits, the name is that text: prefix and date are
    taken out, and nothing else even when the text itself has hyphens and
    digits. An identifier without [claude-] in it and without such a date at
    its end is its own name. *)
Theorem getModelDisplayName_strips_prefix_and_date :
  (forall m, In m MODELS ->
     getModelDisplayName (ModelDefinition.id m) = ModelDefinition.name m)
  /\ (forall x d : jsstring,
        forallb isDigit d = true -> List.length d = 8%nat ->
        findModel (lit "claude-" ++ x ++ 45 :: d) = None ->
        getModelDisplayName (lit "claude-" ++ x ++ 45 :: d) = x)
  /\ (forall modelId : jsstring,
        findModel modelId = None ->
        includes modelId (lit "claude-") = false ->
        (forall i, dateSuffixAt (drop i modelId) = false) ->
        getModelDisplayName modelId = modelId).
Proof.
  split; [|split].
  - intros m Hin. cbn [MODELS In] in Hin.
    destruct Hin as [<-|[<-|[<-|[]]]]; reflexivity.
  - intros x d Hd Hlen Hnone. unfold getModelDisplayName. rewrite Hnone.
    by rewrite removeFirst_head, stripDateSuffix_date.
  - intros modelId Hnone Habsent Hdate. unfold getModelDisplayName. rewrite Hnone.
    by rewrite removeFirst_absent, stripDateSuffix_none.
Qed.

Lemma getModelDisplayName_strips_prefix_and_date_witness :
  getModelDisplayName (lit "claude-" ++ lit "3-5-sonnet" ++ 45 :: lit "20241022")
  = lit "3-5-sonnet"
  /\ getModelDisplayName (lit "gpt-4o") = lit "gpt-4o".
Proof.
  destruct getModelDisplayName_strips_prefix_and_date as (_ & Hdate & Hother).
  split.
  - apply Hdate; reflexivity.
  - apply Hother; [reflexivity|reflexivity|].
    intros i. do 7 (destruct i as [|i]; [reflexivity|]). reflexivity.
Defined.

(** X21: the short name of a model. An identifier of the table has the short
    name of its entry. An identifier with a slash is no identifier of the
    table, and its short name is what follows its last slash, with [claude-]
    and version left in; when nothing follows the last slash, it is the whole
    identifier. For an identifier without slash that is not in the table and
    is [claude-], a text that does not end in a digit, dot or hyphen, a
    hyphen and a version made of digits, dots and hyphens, the short name is
    that text. *)
Theorem getModelShortName_by_shape :
  (forall m, In m MODELS ->
     getModelShortName (ModelDefinition.id m) = ModelDefinition.shortName m)
  /\ (forall provider model : jsstring,
        hasSlash model = false ->
        getModelShortName (provider ++ SLASH :: model)
        = if truthy model then model else provider ++ [SLASH])
  /\ (forall (x v : jsstring) (c : N),
        isVersionChar c = false ->
        truthy v = true -> forallb isVersionChar v = true ->
        hasSlash (x ++ [c]) = false ->
        findModel (lit "claude-" ++ x ++ c :: 45 :: v) = None ->
        getModelShortName (lit "claude-" ++ x ++ c :: 45 :: v) = x ++ [c]).
Proof.
  split; [|split].
  - intros m Hin. cbn [MODELS In] in Hin.
    destruct Hin as [<-|[<-|[<-|[]]]]; reflexivity.
  - intros provider model Hmodel. unfold getModelShortName.
    assert (hasSlash (provider ++ SLASH :: model) = true) as Hslash.
    { rewrite hasSlash_app. cbn [hasSlash existsb]. rewrite N.eqb_refl.
      by rewrite orb_true_r. }
    destruct (findModel (provider ++ SLASH :: model)) as [m|] eqn:Hfind.
    { apply known_model_has_no_slash in Hfind. congruence. }
    rewrite Hslash. cbn zeta. rewrite (lastSegment_after_slash _ _ Hmodel).
    destruct model; done.
  - intros x v c Hc Hv Hclass Hslash Hnone. unfold getModelShortName. rewrite Hnone.
    assert (hasSlash (lit "claude-" ++ x ++ c :: 45 :: v) = false) as ->.
    { assert (hasSlash v = false) as Hvs.
      { clear -Hclass. induction v as [|a v IH]; [done|].
        cbn [forallb] in Hclass. apply andb_true_iff in Hclass as [Ha Hv].
        change (hasSlash (a :: v)) with ((a =? SLASH) || hasSlash v).
        rewrite (IH Hv), orb_false_r.
        destruct (a =? SLASH) eqn:H47; [|done]. apply N.eqb_eq in H47 as ->. done. }
      rewrite hasSlash_app. change (hasSlash (lit "claude-")) with false. cbn [orb].
      rewrite (cons_middle c), app_assoc, hasSlash_app, Hslash. cbn [orb].
      change (hasSlash (45 :: v)) with ((45 =? SLASH) || hasSlash v).
      by rewrite Hvs. }
    by rewrite removeFirst_head, stripVersionSuffix_version.
Qed.

Lemma getModelShortName_by_shape_witness :
  getModelShortName (lit "openrouter/anthropic" ++ SLASH :: lit "claude-sonnet-4")
  = lit "claude-sonnet-4"
  /\ getModelShortName (lit "claude-" ++ lit "3-5-sonne" ++ 116 :: 45 :: lit "20241022")
     = lit "3-5-sonne" ++ [116].
Proof.
  destruct getModelShortName_by_shape as (_ & Hprovider & Hversion).
  split.
  - exact (Hprovider (lit "openrouter/anthropic") (lit "claude-sonnet-4") eq_refl).
  - apply Hversion; reflexivity.
Defined.

(** * Sources side by side *)

Section SideBySide.
Variable P : Platform.

(** X22: loading the icon of one source does not change what another
    resolves to. When the two sources have different keys in the icon store
    and no key of the logo-URL store in common, [loadSourceIcon] for the
    second after the first has been loaded returns what it returns, and calls
    what it calls, in a renderer that has cached nothing of the first. *)
Theorem loads_do_not_interfere (first second : Source)
    (r : Completion (option jsstring)) (st st1 : State P) :
  loadSourceIcon P first st = (r, st1) ->
  sourceKey first <> sourceKey second ->
  (forall k, logoKeyOf (config first) = Some k ->
             logoKeyOf (config second) = Some k -> False) ->
  sameOutcome st1 (withStoresOf st st1)
    (loadSourceIcon P second st1) (loadSourceIcon P second (withStoresOf st st1)).
Proof.
  intros Hload Hkeys Hlogo.
  apply loadSourceIcon_step in Hload as (Hicon & Hstore & _).
  apply loadSourceIcon_local. split; [|split; [|done]].
  - cbn [withStoresOf iconCache].
    destruct Hicon as [->|(v & _ & _ & _ & ->)]; [done|].
    by rewrite lookup_insert_ne.
  - intros k Hk. cbn [withStoresOf logoUrlCache].
    destruct Hstore as [->|(k1 & o & Hk1 & _ & ->)]; [done|].
    rewrite lookup_insert_ne; [done|]. intros ->. by apply (Hlogo k).
Qed.

End SideBySide.

Lemma loads_do_not_interfere_witness :
  sameOutcome (loadSourceIcon diskPlatform fireSource (freshState emptyDisk)).2
    (withStoresOf (freshState emptyDisk)
       (loadSourceIcon diskPlatform fireSource (freshState emptyDisk)).2)
    (loadSourceIcon diskPlatform otherSource
       (loadSourceIcon diskPlatform fireSource (freshState emptyDisk)).2)
    (loadSourceIcon diskPlatform otherSource
       (withStoresOf (freshState emptyDisk)
          (loadSourceIcon diskPlatform fireSource (freshState emptyDisk)).2)).
Proof.
  apply (loads_do_not_interfere diskPlatform fireSource otherSource _
           (freshState emptyDisk) _ (surjective_pairing _)).
  - vm_compute. discriminate.
  - intros k [=].
Defined.
